(** * FreshBooks client: token refresh and persistence core

    A shallow embedding of [FreshBooksClient] from
    [agent_workspaces/accountant/freshbooks/freshbooks.py]:
    [atomic_save_tokens], [is_token_expired], [refresh_access_token],
    [_make_request] and [send_invoice].

    The Python methods mutate the client object, the files [.env] and
    [.env.backup], print to the console and talk to two HTTP servers.  They
    are embedded as computations of a state-and-exception monad over a
    [World] (client object, file system, trace of effects).  Everything the
    program does not decide itself (the clock, I/O faults, the answers of the
    servers, the library functions [float], [str] and dotenv's [set_key]) is
    read from an environment [Env], over which every theorem quantifies. *)

From Stdlib Require Import QArith Qround Lqa DecimalString.
From stdpp Require Import base option list strings gmap.

Local Open Scope string_scope.
Local Open Scope list_scope.
Set Warnings "-register-all".
Set Default Proof Using "Type*".

(** ** Python values *)

(** A Python [float].  Finite values are kept as exact rationals; the
    special values are there because [float("nan")] and [float("inf")]
    parse without error. *)
Inductive pyfloat :=
| PFin (q : Q)
| PInf
| PNegInf
| PNaN.

Definition pf_neg (x : pyfloat) : pyfloat :=
  match x with
  | PFin q => PFin (- q)
  | PInf => PNegInf
  | PNegInf => PInf
  | PNaN => PNaN
  end.

Definition pf_add (x y : pyfloat) : pyfloat :=
  match x, y with
  | PNaN, _ | _, PNaN => PNaN
  | PFin a, PFin b => PFin (a + b)
  | PInf, PNegInf | PNegInf, PInf => PNaN
  | PInf, _ | _, PInf => PInf
  | PNegInf, _ | _, PNegInf => PNegInf
  end.

Definition pf_sub (x y : pyfloat) : pyfloat := pf_add x (pf_neg y).

(** The machine's [x + y] and [x - y]: the exact result of two finite
    operands is rounded to a float by [round], which gives an infinity when
    the result is out of range. *)
Definition fl_round (round : Q -> pyfloat) (x : pyfloat) : pyfloat :=
  match x with
  | PFin q => round q
  | _ => x
  end.

Definition fl_add (round : Q -> pyfloat) (x y : pyfloat) : pyfloat :=
  fl_round round (pf_add x y).

Definition fl_sub (round : Q -> pyfloat) (x y : pyfloat) : pyfloat :=
  fl_round round (pf_sub x y).

Definition Qltb (a b : Q) : bool := negb (Qle_bool b a).

(** [x < y] on floats: every comparison with NaN is false. *)
Definition pf_ltb (x y : pyfloat) : bool :=
  match x, y with
  | PNaN, _ | _, PNaN => false
  | PFin a, PFin b => Qltb a b
  | PFin _, PInf => true
  | PNegInf, PFin _ => true
  | PNegInf, PInf => true
  | _, _ => false
  end.

Definition pf_gtb (x y : pyfloat) : bool := pf_ltb y x.

(** The values that come out of [response.json()] and [os.getenv]; [JNull]
    is Python's [None].  A [dict] is kept as its list of items. *)
Inductive pyval :=
| JNull
| JBool (b : bool)
| JNum (x : pyfloat)
| JStr (s : string)
| JArr (items : list pyval)
| JObj (items : list (string * pyval)).

(** Python truthiness, as used by [not v]. *)
Definition truthy (v : pyval) : bool :=
  match v with
  | JNull => false
  | JBool b => b
  | JNum (PFin q) => negb (Qeq_bool q 0)
  | JNum _ => true
  | JStr s => negb (String.eqb s "")
  | JArr l => match l with [] => false | _ => true end
  | JObj l => match l with [] => false | _ => true end
  end.

(** [v == s] for a string literal [s]. *)
Definition py_eq_str (v : pyval) (s : string) : bool :=
  match v with
  | JStr s' => String.eqb s' s
  | _ => false
  end.

Definition of_getenv (o : option string) : pyval :=
  match o with
  | Some s => JStr s
  | None => JNull
  end.

(** ** Exceptions *)

Inductive exn :=
| ValueError (msg : string)
| TypeError (msg : string)
| AttributeError (msg : string)
| JSONDecodeError (msg : string)
| HTTPError (status : Z)
| ConnectionError (msg : string)
| OSError (msg : string)
| OverflowError (msg : string).

(** [isinstance(e, ValueError)]: [json.JSONDecodeError] derives from it. *)
Definition is_ValueError (e : exn) : bool :=
  match e with
  | ValueError _ | JSONDecodeError _ => true
  | _ => false
  end.

Inductive result (A : Type) :=
| Ok (a : A)
| Raise (e : exn).
Arguments Ok {A} a.
Arguments Raise {A} e.

Fixpoint assoc_get (items : list (string * pyval)) (key : string) : option pyval :=
  match items with
  | [] => None
  | (k, v) :: rest => if String.eqb k key then Some v else assoc_get rest key
  end.

(** [d.get(key, dflt)]; only a [dict] has the method. *)
Definition py_get (d : pyval) (key : string) (dflt : pyval) : result pyval :=
  match d with
  | JObj items => Ok (default dflt (assoc_get items key))
  | _ => Raise (AttributeError "object has no attribute 'get'")
  end.

(** [float(n)] for a finite number [n] of a JSON body, as [now + n] takes
    it: a float is itself; an [int] becomes the nearest float, and one out
    of the range of floats is an [OverflowError]. *)
Definition py_to_float (round : Q -> pyfloat) (n : Q) : result Q :=
  match round n with
  | PFin x => Ok x
  | _ => Raise (OverflowError "int too large to convert to float")
  end.

(** [now + expires_in], where [now] is the float from
    [datetime.now().timestamp()]: numbers and booleans add, as floats do,
    anything else is a [TypeError]. *)
Definition py_add_float (round : Q -> pyfloat) (t : Q) (v : pyval)
  : result pyfloat :=
  match v with
  | JNum (PFin n) =>
      match py_to_float round n with
      | Ok x => Ok (fl_add round (PFin t) (PFin x))
      | Raise e => Raise e
      end
  | JNum x => Ok (fl_add round (PFin t) x)
  | JBool b => Ok (fl_add round (PFin t) (PFin (if b then 1 else 0)))
  | _ => Raise (TypeError "unsupported operand type(s) for +")
  end.

(** ** HTTP *)

(** A response of the [requests] library: the status code and what its
    [json()] method gives (it raises when the body is not JSON). *)
Record response := {
  status_code : Z;
  resp_json : result pyval
}.

(** A header value; [Bearer tok] is the f-string [f"Bearer {tok}"] with the
    interpolated value kept as it is. *)
Inductive hval :=
| HLit (s : string)
| Bearer (tok : pyval).

(** The arguments of [requests.request]. *)
Record request := {
  req_method : string;
  req_url : string;
  req_headers : gmap string hval;
  req_json : option pyval;
  req_params : option pyval
}.

(** What a network call does: it raises or it returns a response. *)
Inductive net_outcome :=
| NetRaise (e : exn)
| NetResp (r : response).

(** ** Effects *)

Inductive fs_op :=
| OpRead (path : string)
| OpWrite (path : string) (content : string)
| OpSetKey (path key : string) (value : pyval)
| OpRemove (path : string).

(** The interpolated value of a printed f-string. *)
Inductive print_arg :=
| PNone
| PExn (e : exn)
| PTime (t : Q).

(** The trace records every effect in program order.  [EvRefresh] marks an
    entry into [refresh_access_token]; it is there to count attempts. *)
Inductive event :=
| EvNow (t : Q)
| EvPrint (text : string) (arg : print_arg)
| EvIO (op : fs_op) (failure : option exn)
| EvPost (url : string) (form : list (string * pyval)) (out : net_outcome)
| EvRequest (req : request) (out : net_outcome)
| EvRefresh.

(** A failing file operation raises [fault_exn] and may leave the file it
    was writing in any state ([fault_damage] maps the file's old state to
    the state it is left in; [None] is a missing file). *)
Record fault := {
  fault_exn : exn;
  fault_damage : option string -> option string
}.

(** The environment: what the interpreter, the libraries, the disk and the
    network do.  Each oracle sees the whole trace so far. *)
Record Env := {
  (** [float(s)]; [None] is a [ValueError] *)
  py_float : string -> option pyfloat;
  (** [str(x)] of a float *)
  py_str_float : pyfloat -> string;
  (** the float nearest to a rational, an infinity when out of range: how
      the machine rounds the exact result of an operation on floats *)
  py_round : Q -> pyfloat;
  (** dotenv's [set_key]: the file's state after the call, from its state
      before, the key and the value *)
  dotenv_set_key : option string -> string -> pyval -> option string;
  (** [datetime.now().timestamp()] *)
  env_now : list event -> Q;
  (** whether the next file operation fails *)
  env_fault : list event -> fs_op -> option fault;
  (** the answer of the authorization server to [requests.post] *)
  env_post : list event -> string -> list (string * pyval) -> net_outcome;
  (** the answer of the API server to [requests.request] *)
  env_request : list event -> request -> net_outcome
}.

(** ** The client object and the world *)

(** The attributes of a [FreshBooksClient] set by [__init__]. *)
Record Client := {
  account_id : string;
  access_token : pyval;
  refresh_token : pyval;
  token_expires_at : option string;
  client_id : option string;
  client_secret : option string;
  token_url : string;
  env_path : string;
  base_url : string;
  headers : gmap string hval
}.

Record World := {
  self : Client;
  fs : gmap string string;
  trace : list event
}.

Definition log (ev : event) (w : World) : World :=
  {| self := self w; fs := fs w; trace := trace w ++ [ev] |}.

Definition with_fs (m : gmap string string) (w : World) : World :=
  {| self := self w; fs := m; trace := trace w |}.

Definition with_self (c : Client) (w : World) : World :=
  {| self := c; fs := fs w; trace := trace w |}.

(** The file at [path] is left in state [st]. *)
Definition fs_put (path : string) (st : option string) (m : gmap string string)
  : gmap string string :=
  partial_alter (fun _ => st) path m.

(** ** The monad: state and exceptions *)

Definition M (A : Type) : Type := World -> result A * World.

Definition ret {A} (a : A) : M A := fun w => (Ok a, w).

Definition raise {A} (e : exn) : M A := fun w => (Raise e, w).

Definition bind {A B} (m : M A) (k : A -> M B) : M B :=
  fun w =>
    match m w with
    | (Ok a, w') => k a w'
    | (Raise e, w') => (Raise e, w')
    end.

(** [try: m  except Exception as e: h e] *)
Definition try_except {A} (m : M A) (h : exn -> M A) : M A :=
  fun w =>
    match m w with
    | (Ok a, w') => (Ok a, w')
    | (Raise e, w') => h e w'
    end.

Definition lift {A} (r : result A) : M A := fun w => (r, w).

Definition gets {A} (f : Client -> A) : M A := fun w => (Ok (f (self w)), w).

Notation "x <- m ;; k" := (bind m (fun x => k))
  (at level 100, m at next level, right associativity).
Notation "m ;;; k" := (bind m (fun _ => k))
  (at level 100, right associativity).

(** ** Messages of the exceptions raised by the client *)

Definition nl : string := String (Ascii.ascii_of_nat 10) EmptyString.

Definition NO_REFRESH_TOKEN_MSG : string :=
  "No refresh token available - manual re-authentication required." +:+ nl +:+
  "Run: python freshbooks.py AUTH_CODE".

Definition INVALID_GRANT_MSG : string :=
  "Refresh token is invalid (already used or revoked)." +:+ nl +:+
  "Manual re-authentication required." +:+ nl +:+
  "This usually happens when:" +:+ nl +:+
  "1. The refresh token was used but new token wasn't saved" +:+ nl +:+
  "2. Multiple processes tried to refresh simultaneously" +:+ nl +:+
  "3. The token was manually revoked" +:+ nl +:+ nl +:+
  "To fix: Get a new auth code and run: python freshbooks.py AUTH_CODE".

Definition MALFORMED_TOKEN_MSG : string :=
  "Invalid token response - missing access or refresh token".

Definition SAFETY_CHECK_MSG : string :=
  "SAFETY CHECK: Invoice cannot be sent without explicit human approval. " +:+
  "Set humanApproved=True only after receiving explicit permission from the user. " +:+
  "Example: client.send_invoice(invoice_id, humanApproved=True)".

(** [needle in hay] *)
Fixpoint contains (needle hay : string) : bool :=
  String.prefix needle hay ||
  match hay with
  | EmptyString => false
  | String _ rest => contains needle rest
  end.

Section Client.

Variable E : Env.

(** ** Primitive effects *)

Definition now : M Q :=
  fun w => let t := env_now E (trace w) in (Ok t, log (EvNow t) w).

Definition print (text : string) (arg : print_arg) : M unit :=
  fun w => (Ok tt, log (EvPrint text arg) w).

(** [os.path.exists(path)] *)
Definition path_exists (path : string) : M bool :=
  fun w => (Ok (match fs w !! path with Some _ => true | None => false end), w).

(** [open(path, 'r').read()] *)
Definition read_file (path : string) : M string :=
  fun w =>
    match env_fault E (trace w) (OpRead path) with
    | Some f => (Raise (fault_exn f), log (EvIO (OpRead path) (Some (fault_exn f))) w)
    | None =>
        match fs w !! path with
        | Some c => (Ok c, log (EvIO (OpRead path) None) w)
        | None =>
            let e := OSError "No such file or directory" in
            (Raise e, log (EvIO (OpRead path) (Some e)) w)
        end
    end.

(** [open(path, 'w').write(content)] *)
Definition write_file (path content : string) : M unit :=
  fun w =>
    let op := OpWrite path content in
    match env_fault E (trace w) op with
    | Some f =>
        (Raise (fault_exn f),
         log (EvIO op (Some (fault_exn f)))
           (with_fs (fs_put path (fault_damage f (fs w !! path)) (fs w)) w))
    | None => (Ok tt, log (EvIO op None) (with_fs (<[path := content]> (fs w)) w))
    end.

(** dotenv's [set_key(path, key, value)] *)
Definition set_key (path key : string) (value : pyval) : M unit :=
  fun w =>
    let op := OpSetKey path key value in
    match env_fault E (trace w) op with
    | Some f =>
        (Raise (fault_exn f),
         log (EvIO op (Some (fault_exn f)))
           (with_fs (fs_put path (fault_damage f (fs w !! path)) (fs w)) w))
    | None =>
        (Ok tt,
         log (EvIO op None)
           (with_fs (fs_put path (dotenv_set_key E (fs w !! path) key value) (fs w)) w))
    end.

(** [os.remove(path)] *)
Definition remove_file (path : string) : M unit :=
  fun w =>
    let op := OpRemove path in
    match env_fault E (trace w) op with
    | Some f => (Raise (fault_exn f), log (EvIO op (Some (fault_exn f))) w)
    | None =>
        match fs w !! path with
        | Some _ => (Ok tt, log (EvIO op None) (with_fs (delete path (fs w)) w))
        | None =>
            let e := OSError "No such file or directory" in
            (Raise e, log (EvIO op (Some e)) w)
        end
    end.

Definition of_outcome (out : net_outcome) : result response :=
  match out with
  | NetRaise e => Raise e
  | NetResp r => Ok r
  end.

(** [requests.post(url, data=form)] *)
Definition requests_post (url : string) (form : list (string * pyval)) : M response :=
  fun w =>
    let out := env_post E (trace w) url form in
    (of_outcome out, log (EvPost url form out) w).

(** [requests.request(method=..., url=..., headers=..., json=..., params=...)] *)
Definition requests_request (req : request) : M response :=
  fun w =>
    let out := env_request E (trace w) req in
    (of_outcome out, log (EvRequest req out) w).

(** [response.raise_for_status()]: an [HTTPError] for 4xx and 5xx. *)
Definition is_error_status (s : Z) : bool := (400 <=? s)%Z && (s <? 600)%Z.

Definition raise_for_status (r : response) : M unit :=
  if is_error_status (status_code r) then raise (HTTPError (status_code r))
  else ret tt.

(** ** The methods of [FreshBooksClient] *)

(** The four assignments [self.access_token = ...], [self.refresh_token =
    ...], [self.token_expires_at = ...], [self.headers['Authorization'] =
    ...] of [atomic_save_tokens]. *)
Definition update_credentials (access refresh : pyval) (expires : string)
    (c : Client) : Client :=
  {| account_id := account_id c;
     access_token := access;
     refresh_token := refresh;
     token_expires_at := Some expires;
     client_id := client_id c;
     client_secret := client_secret c;
     token_url := token_url c;
     env_path := env_path c;
     base_url := base_url c;
     headers := <["Authorization" := Bearer access]> (headers c) |}.

Definition set_credentials (access refresh : pyval) (expires : string) : M unit :=
  fun w => (Ok tt, with_self (update_credentials access refresh expires (self w)) w).

Definition backup_of (path : string) : string := path +:+ ".backup".

(** [atomic_save_tokens], lines 77-83: the backup of the current [.env]. *)
Definition make_backup (env backup_path : string) : M unit :=
  ex <- path_exists env ;;
  if ex then
    backup_content <- read_file env ;;
    write_file backup_path backup_content
  else ret tt.

(** [atomic_save_tokens], lines 86-101: the body of the [try]. *)
Definition write_tokens (env backup_path : string) (access refresh : pyval)
    (expires_at : pyfloat) : M unit :=
  set_key env "FRESHBOOKS_ACCESS_TOKEN" access ;;;
  set_key env "FRESHBOOKS_REFRESH_TOKEN" refresh ;;;
  set_key env "FRESHBOOKS_TOKEN_EXPIRES_AT" (JStr (py_str_float E expires_at)) ;;;
  set_credentials access refresh (py_str_float E expires_at) ;;;
  ex <- path_exists backup_path ;;
  (if ex then remove_file backup_path else ret tt) ;;;
  t <- now ;;
  print "✓ Tokens saved atomically at " (PTime t).

(** [atomic_save_tokens], lines 103-112: the [except] block. *)
Definition restore_backup (env backup_path : string) (e : exn) : M unit :=
  print "ERROR saving tokens: " (PExn e) ;;;
  ex <- path_exists backup_path ;;
  (if ex then
     backup_content <- read_file backup_path ;;
     write_file env backup_content ;;;
     print "Restored from backup" PNone
   else ret tt) ;;;
  raise e.

Definition atomic_save_tokens (access refresh expires_in : pyval) : M unit :=
  t <- now ;;
  expires_at <- lift (py_add_float (py_round E) t expires_in) ;;
  env <- gets env_path ;;
  let backup_path := backup_of env in
  make_backup env backup_path ;;;
  try_except
    (write_tokens env backup_path access refresh expires_at)
    (restore_backup env backup_path).

Definition is_token_expired : M bool :=
  expires <- gets token_expires_at ;;
  match expires with
  | None => ret true
  | Some s =>
      if negb (truthy (JStr s)) then ret true
      else
        match py_float E s with
        | None => ret true
        | Some expires_at =>
            t <- now ;;
            ret (pf_gtb (PFin t) (fl_sub (py_round E) expires_at (PFin 300)))
        end
  end.

Definition refresh_access_token : M pyval :=
  (fun w => (Ok tt, log EvRefresh w)) ;;;
  rt <- gets refresh_token ;;
  if negb (truthy rt) then raise (ValueError NO_REFRESH_TOKEN_MSG)
  else
    t <- now ;;
    print "Refreshing token at " (PTime t) ;;;
    cid <- gets client_id ;;
    csecret <- gets client_secret ;;
    url <- gets token_url ;;
    let data := [("grant_type", JStr "refresh_token");
                 ("refresh_token", rt);
                 ("client_id", of_getenv cid);
                 ("client_secret", of_getenv csecret)] in
    resp <- requests_post url data ;;
    (if negb (status_code resp =? 200)%Z then
       error_data <- lift (resp_json resp) ;;
       err <- lift (py_get error_data "error" JNull) ;;
       if py_eq_str err "invalid_grant" then raise (ValueError INVALID_GRANT_MSG)
       else raise_for_status resp
     else ret tt) ;;;
    token_data <- lift (resp_json resp) ;;
    new_access <- lift (py_get token_data "access_token" JNull) ;;
    new_refresh <- lift (py_get token_data "refresh_token" JNull) ;;
    expires_in <- lift (py_get token_data "expires_in" (JNum (PFin 43200))) ;;
    if negb (truthy new_access) || negb (truthy new_refresh) then
      raise (ValueError MALFORMED_TOKEN_MSG)
    else
      atomic_save_tokens new_access new_refresh expires_in ;;;
      ret token_data.

(** [_make_request], lines 201-208: the refresh before the call. *)
Definition proactive_refresh : M unit :=
  expired <- is_token_expired ;;
  if expired then
    print "Access token expired or expiring soon, refreshing..." PNone ;;;
    try_except
      (refresh_access_token ;;; ret tt)
      (fun e => print "Token refresh failed: " (PExn e))
  else ret tt.

Definition build_request (method url : string) (data params : option pyval)
  : M request :=
  hdrs <- gets headers ;;
  ret {| req_method := method; req_url := url; req_headers := hdrs;
         req_json := data; req_params := params |}.

(** [_make_request], lines 210-242: the call, the retry after a 401 and
    the result. *)
Definition request_with_retry (method url : string) (data params : option pyval)
  : M pyval :=
  req <- build_request method url data params ;;
  response <- requests_request req ;;
  response <-
    (if (status_code response =? 401)%Z then
       try_except
         (print "Got 401 Unauthorized, attempting token refresh..." PNone ;;;
          refresh_access_token ;;;
          req' <- build_request method url data params ;;
          requests_request req')
         (fun e =>
            if is_ValueError e then
              print "Token refresh failed: " (PExn e) ;;; raise e
            else
              print "Unexpected error during token refresh: " (PExn e) ;;; raise e)
     else ret response) ;;
  raise_for_status response ;;;
  lift (resp_json response).

Definition _make_request (method endpoint : string) (data params : option pyval)
  : M pyval :=
  base <- gets base_url ;;
  let url := base +:+ endpoint in
  proactive_refresh ;;;
  request_with_retry method url data params.

Definition send_invoice (invoice_id : string) (humanApproved : pyval) : M pyval :=
  if negb (truthy humanApproved) then raise (ValueError SAFETY_CHECK_MSG)
  else
    acct <- gets account_id ;;
    let endpoint :=
      "/accounting/account/" +:+ acct +:+ "/invoices/invoices/" +:+ invoice_id in
    let data := JObj [("invoice", JObj [("action_email", JBool true)])] in
    _make_request "PUT" endpoint (Some data) None.

(** [send_invoice(invoice_id)]: the parameter defaults to [False]. *)
Definition send_invoice_default (invoice_id : string) : M pyval :=
  send_invoice invoice_id (JBool false).

End Client.

(** * Observations, specification and examples *)

(** ** The errors of the specification

    The client raises [ValueError] with three different messages and lets
    [raise_for_status] raise [HTTPError]; the specification names them. *)

Definition NoRefreshToken : exn := ValueError NO_REFRESH_TOKEN_MSG.
Definition RefreshTokenInvalid : exn := ValueError INVALID_GRANT_MSG.
Definition MalformedTokenResponse : exn := ValueError MALFORMED_TOKEN_MSG.
Definition AuthServerError (status : Z) : exn := HTTPError status.

(** ** Observing a run *)

(** The events a computation added to the trace. *)
Definition new_events (w w' : World) : list event :=
  drop (length (trace w)) (trace w').

Definition is_refresh (ev : event) : bool :=
  match ev with EvRefresh => true | _ => false end.

Definition is_request (ev : event) : bool :=
  match ev with EvRequest _ _ => true | _ => false end.

Definition is_post (ev : event) : bool :=
  match ev with EvPost _ _ _ => true | _ => false end.

Definition is_network (ev : event) : bool := is_post ev || is_request ev.

Definition count (p : event -> bool) (evs : list event) : nat :=
  length (List.filter p evs).

(** The exception of the first file operation that failed. *)
Fixpoint first_failure (evs : list event) : option exn :=
  match evs with
  | [] => None
  | EvIO _ (Some e) :: _ => Some e
  | _ :: rest => first_failure rest
  end.

(** The persisted store is the file at [env_path]. *)
Definition store (w : World) : option string := fs w !! env_path (self w).

Definition backup (w : World) : option string :=
  fs w !! backup_of (env_path (self w)).

(** [m] only appends to the trace, and only events satisfying [P]. *)
Definition adds (P : event -> bool) {A} (m : M A) : Prop :=
  forall w, exists evs,
    trace (m w).2 = trace w ++ evs /\ Forall (fun ev => P ev = true) evs.

(** Events that stay on the machine: clock, console and files. *)
Definition is_local (ev : event) : bool :=
  match ev with
  | EvNow _ | EvPrint _ _ | EvIO _ _ => true
  | _ => false
  end.

(** Events other than a refresh attempt or an API request. *)
Definition is_quiet (ev : event) : bool :=
  negb (is_refresh ev) && negb (is_request ev).

(** ** A concrete environment for examples *)

Module Sample.

Fixpoint digits (s : string) (acc : Z) : option Z :=
  match s with
  | EmptyString => Some acc
  | String c rest =>
      let n := Z.of_nat (Ascii.nat_of_ascii c) in
      if (48 <=? n)%Z && (n <=? 57)%Z then digits rest (10 * acc + (n - 48))%Z
      else None
  end.

(** Stands in for [float]: unsigned decimal integers, "nan" and "inf". *)
Definition float (s : string) : option pyfloat :=
  if String.eqb s "" then None
  else if String.eqb s "nan" then Some PNaN
  else if String.eqb s "inf" then Some PInf
  else (fun z => PFin (inject_Z z)) <$> digits s 0.

(** Stands in for [str] of a float: the integer part, in decimal. *)
Definition str (x : pyfloat) : string :=
  match x with
  | PFin q => DecimalString.NilZero.string_of_int (Z.to_int (Qfloor q))
  | PInf => "inf"
  | PNegInf => "-inf"
  | PNaN => "nan"
  end.

(** Rounding is left out of the examples ([py_round] is [PFin]): their
    clocks and lifetimes are small integers, which floats add exactly. *)

(** Stands in for dotenv's [set_key]: appends the line [key='value'],
    creating the file when it is missing (python-dotenv touches the path
    before it rewrites the file). *)
Definition set_key_line (old : option string) (key : string) (value : pyval)
  : option string :=
  match value with
  | JStr v => Some (default "" old +:+ key +:+ "='" +:+ v +:+ "'" +:+ nl)
  | _ => old
  end.

Definition env (faults : list event -> fs_op -> option fault)
    (post : list event -> string -> list (string * pyval) -> net_outcome)
    (request : list event -> request -> net_outcome) : Env :=
  {| py_float := float;
     py_str_float := str;
     py_round := PFin;
     dotenv_set_key := set_key_line;
     env_now := fun tr => inject_Z (1000 + Z.of_nat (length tr));
     env_fault := faults;
     env_post := post;
     env_request := request |}.

Definition no_faults : list event -> fs_op -> option fault := fun _ _ => None.

Definition client (refresh : pyval) (expires : option string) : Client :=
  {| account_id := "ogqZ2g";
     access_token := JStr "old-access";
     refresh_token := refresh;
     token_expires_at := expires;
     client_id := Some "id";
     client_secret := Some "secret";
     token_url := "https://api.freshbooks.com/auth/oauth/token";
     env_path := ".env";
     base_url := "https://api.freshbooks.com";
     headers := {[ "Authorization" := Bearer (JStr "old-access");
                   "Content-Type" := HLit "application/json";
                   "Accept" := HLit "application/json" ]} |}.

Definition world (c : Client) (files : gmap string string) : World :=
  {| self := c; fs := files; trace := [] |}.

Definition json_response (status : Z) (body : pyval) : response :=
  {| status_code := status; resp_json := Ok body |}.

Definition tokens_body : pyval :=
  JObj [("access_token", JStr "new-access");
        ("refresh_token", JStr "new-refresh");
        ("expires_in", JNum (PFin 43200))].

End Sample.

(** ** When a token counts as expired *)

Section Expiry.

Variable E : Env.

(** The specification's three reasons to report "expired". *)
Definition no_expiry_known (c : Client) : Prop :=
  token_expires_at c = None \/ token_expires_at c = Some "".

Definition expiry_malformed (c : Client) : Prop :=
  exists s, token_expires_at c = Some s /\ py_float E s = None.

(** Fewer than 300 seconds remain at time [t], on the numbers themselves:
    [expires_at - t < 300].  An expiry of minus infinity has passed, one of
    plus infinity never comes. *)
Definition seconds_left_below (t : Q) (x : pyfloat) (margin : Q) : Prop :=
  match x with
  | PFin expires_at => (expires_at - t < margin)%Q
  | PNegInf => True
  | PInf | PNaN => False
  end.

Definition within_safety_margin (t : Q) (c : Client) : Prop :=
  exists s x, token_expires_at c = Some s /\ py_float E s = Some x /\
    seconds_left_below t x 300.

Definition spec_isExpired (t : Q) (c : Client) : Prop :=
  no_expiry_known c \/ expiry_malformed c \/ within_safety_margin t c.

(** The stored expiry is a string that [float] reads as NaN. *)
Definition expiry_is_nan (c : Client) : Prop :=
  exists s, token_expires_at c = Some s /\ s <> "" /\ py_float E s = Some PNaN.

(** Subtracting the margin from the stored expiry is exact, as it is for a
    float that holds a time of our era. *)
Definition margin_exact (c : Client) : Prop :=
  forall s q, token_expires_at c = Some s -> py_float E s = Some (PFin q) ->
    py_round E (q - 300) = PFin (q - 300).

End Expiry.

(** ** The refresh exchange *)

Section RefreshPoints.

Variable E : Env.

(** The form posted to the authorization endpoint. *)
Definition refresh_form (c : Client) : list (string * pyval) :=
  [("grant_type", JStr "refresh_token");
   ("refresh_token", refresh_token c);
   ("client_id", of_getenv (client_id c));
   ("client_secret", of_getenv (client_secret c))].

(** The world in which [refresh_access_token] posts the form: the attempt
    is marked, the clock is read and the line is printed. *)
Definition before_post (w : World) : World :=
  let w0 := log EvRefresh w in
  let t := env_now E (trace w0) in
  log (EvPrint "Refreshing token at " (PTime t)) (log (EvNow t) w0).

(** What the authorization server answers to this refresh. *)
Definition auth_answer (w : World) : net_outcome :=
  env_post E (trace (before_post w)) (token_url (self w)) (refresh_form (self w)).

Definition after_post (w : World) : World :=
  log (EvPost (token_url (self w)) (refresh_form (self w)) (auth_answer w))
    (before_post w).

End RefreshPoints.

(** ** Persisting the tokens *)

Definition is_store_write (ev : event) : bool :=
  match ev with EvIO (OpSetKey _ _ _) _ => true | _ => false end.

Definition failed_store_write (ev : event) : bool :=
  match ev with EvIO (OpSetKey _ _ _) (Some _) => true | _ => false end.

Definition store_writes (env : string) (a r : pyval) (s : string) : list event :=
  [EvIO (OpSetKey env "FRESHBOOKS_ACCESS_TOKEN" a) None;
   EvIO (OpSetKey env "FRESHBOOKS_REFRESH_TOKEN" r) None;
   EvIO (OpSetKey env "FRESHBOOKS_TOKEN_EXPIRES_AT" (JStr s)) None].

Definition rollback_ok (E : Env) (env : string) : Prop :=
  (forall tr, env_fault E tr (OpRead (backup_of env)) = None) /\
  (forall tr c, env_fault E tr (OpWrite env c) = None).

(** The store after the three [set_key] calls. *)
Definition saved_store (E : Env) (a r : pyval) (s : string)
    (old : option string) : option string :=
  dotenv_set_key E
    (dotenv_set_key E
       (dotenv_set_key E old "FRESHBOOKS_ACCESS_TOKEN" a)
       "FRESHBOOKS_REFRESH_TOKEN" r)
    "FRESHBOOKS_TOKEN_EXPIRES_AT" (JStr s).

(** ** The rollback of a failed save *)

(** A write to the file at [path]: a [set_key] on it or a rewrite of it. *)
Definition is_write_to (path : string) (op : fs_op) : bool :=
  match op with
  | OpSetKey p _ _ | OpWrite p _ => String.eqb p path
  | _ => false
  end.

(** The exception of the first write to [path] that failed. *)
Fixpoint first_failed_write (path : string) (evs : list event) : option exn :=
  match evs with
  | [] => None
  | EvIO op (Some e) :: rest =>
      if is_write_to path op then Some e else first_failed_write path rest
  | _ :: rest => first_failed_write path rest
  end.

(** The claim as the specification states it: whenever a write to the
    store fails during [atomic_save_tokens], the call raises that error and
    the store is what it was before the call. *)
Definition rolls_back_every_failure (E : Env) (a r ei : pyval) (w : World) : Prop :=
  let (res, w') := atomic_save_tokens E a r ei w in
  forall e,
    first_failed_write (env_path (self w)) (new_events w w') = Some e ->
    res = Raise e /\ store w' = store w.

(** The second [set_key] fails.  On a store that does not exist yet, the
    first [set_key] has created it and no backup was taken. *)
Definition refresh_write_fails : list event -> fs_op -> option fault :=
  fun _ op =>
    match op with
    | OpSetKey _ "FRESHBOOKS_REFRESH_TOKEN" _ =>
        Some {| fault_exn := OSError "No space left on device";
                fault_damage := fun st => st |}
    | _ => None
    end.

(** A rewrite of a file fails after [open(path, 'w')] has emptied it. *)
Definition rewrite_fails : fault :=
  {| fault_exn := OSError "Input/output error";
     fault_damage := fun _ => Some "" |}.

(** The second [set_key] fails, and so does the rewrite of the store from
    the backup. *)
Definition store_unwritable : list event -> fs_op -> option fault :=
  fun tr op =>
    match op with
    | OpWrite path _ => if String.eqb path ".env" then Some rewrite_fails else None
    | _ => refresh_write_fails tr op
    end.

(** The removal of [.env.backup] is refused; nothing else fails. *)
Definition removal_refused : fault :=
  {| fault_exn := OSError "Permission denied"; fault_damage := fun st => st |}.

Definition backup_removal_refused : list event -> fs_op -> option fault :=
  fun _ op =>
    match op with
    | OpRemove path =>
        if String.eqb path ".env.backup" then Some removal_refused else None
    | _ => None
    end.

(** The removal of [.env.backup] is refused, and the rewrite of the store
    from the backup fails. *)
Definition removal_and_rewrite_fail : list event -> fs_op -> option fault :=
  fun tr op =>
    match op with
    | OpWrite path _ => if String.eqb path ".env" then Some rewrite_fails else None
    | _ => backup_removal_refused tr op
    end.

Definition offline_env (faults : list event -> fs_op -> option fault) : Env :=
  Sample.env faults (fun _ _ _ => NetRaise (ConnectionError "offline"))
    (fun _ _ => NetRaise (ConnectionError "offline")).

(** ** The token response *)

(** The body of a response carries a token under [key]. *)
Definition has_token (body : result pyval) (key : string) : bool :=
  match body with
  | Ok (JObj items) => truthy (default JNull (assoc_get items key))
  | _ => false
  end.

(** The claim as the specification states it: every answer with status 200
    whose body lacks one of the two tokens makes the refresh fail with
    [MalformedTokenResponse], the store unchanged. *)
Definition malformed_on_every_incomplete_answer (E : Env) (w : World) : Prop :=
  forall r,
    truthy (refresh_token (self w)) = true ->
    auth_answer E w = NetResp r ->
    status_code r = 200%Z ->
    has_token (resp_json r) "access_token" = false \/
    has_token (resp_json r) "refresh_token" = false ->
    let (res, w') := refresh_access_token E w in
    res = Raise MalformedTokenResponse /\ store w' = store w.

(** An authorization server that always gives the same answer, a disk that
    works, and no API server. *)
Definition answering_env (r : response) : Env :=
  Sample.env Sample.no_faults (fun _ _ _ => NetResp r)
    (fun _ _ => NetRaise (ConnectionError "")).

(** A body that is not JSON. *)
Definition not_json (status : Z) : response :=
  {| status_code := status;
     resp_json := Raise (JSONDecodeError "Expecting value") |}.

Definition refreshing_world : World :=
  Sample.world (Sample.client (JStr "old-refresh") (Some "1200"))
    {[ ".env" := "FRESHBOOKS_REFRESH_TOKEN='old-refresh'" ]}.

(** ** The request executor *)

Definition any_event (ev : event) : bool := true.

(** The client's credentials after a run that started in [w] and has come
    to [w']: untouched, or replaced after three successful store writes. *)
Definition memory_follows_store (w w' : World) : Prop :=
  self w' = self w \/
  exists a r s pre post,
    self w' = update_credentials a r s (self w) /\
    new_events w w' = pre ++ store_writes (env_path (self w)) a r s ++ post.

(** [raise_for_status] and [response.json()]: what [_make_request] makes of
    the final response. *)
Definition surfaced (r : response) : result pyval :=
  if is_error_status (status_code r) then Raise (HTTPError (status_code r))
  else resp_json r.

(** The line printed by the handler of the 401 branch. *)
Definition refresh_failure_text (e : exn) : string :=
  if is_ValueError e then "Token refresh failed: "
  else "Unexpected error during token refresh: ".

Definition the_request (method url : string) (data params : option pyval)
    (w : World) : request :=
  {| req_method := method; req_url := url; req_headers := headers (self w);
     req_json := data; req_params := params |}.

(** The world in which [_make_request] issues its call: after the check
    of the expiry and, when it says "expired", one refresh whose failure is
    printed. *)
Definition after_proactive_refresh (E : Env) (w : World) : World :=
  match is_token_expired E w with
  | (Ok true, w1) =>
      let w2 := log (EvPrint "Access token expired or expiring soon, refreshing..."
                       PNone) w1 in
      match refresh_access_token E w2 with
      | (Ok _, w3) => w3
      | (Raise e, w3) => log (EvPrint "Token refresh failed: " (PExn e)) w3
      end
  | (_, w1) => w1
  end.

(** An API server that answers 401 until the token has been refreshed. *)
Definition unauthorized_once : list event -> request -> net_outcome :=
  fun tr _ =>
    if existsb is_refresh tr then
      NetResp (Sample.json_response 200 (JObj [("response", JStr "ok")]))
    else NetResp (Sample.json_response 401 (JObj [("error", JStr "unauthorized")])).

Definition granting_env : Env :=
  Sample.env Sample.no_faults
    (fun _ _ _ => NetResp (Sample.json_response 200 Sample.tokens_body))
    unauthorized_once.

Definition fresh_world : World :=
  Sample.world (Sample.client (JStr "old-refresh") (Some "5000"))
    {[ ".env" := "FRESHBOOKS_REFRESH_TOKEN='old-refresh'" ]}.

(** An authorization server that is down: the refresh before the call fails
    and the call is made with the token at hand. *)
Definition auth_down_env : Env :=
  Sample.env Sample.no_faults
    (fun _ _ _ => NetResp (Sample.json_response 503 (JObj [("error", JStr "down")])))
    (fun _ _ => NetResp (Sample.json_response 200 (JObj [("response", JStr "ok")]))).

Definition stale_world : World :=
  Sample.world (Sample.client (JStr "old-refresh") (Some "1200"))
    {[ ".env" := "FRESHBOOKS_REFRESH_TOKEN='old-refresh'" ]}.

(** The authorization server grants new tokens and the API server answers,
    but the backup of the store cannot be removed. *)
Definition cleanup_failing_env : Env :=
  Sample.env backup_removal_refused
    (fun _ _ _ => NetResp (Sample.json_response 200 Sample.tokens_body))
    (fun _ _ => NetResp (Sample.json_response 200 (JObj [("response", JStr "ok")]))).

(** Every request among the events carries the bearer header of [token]. *)
Definition requests_carry (token : pyval) (evs : list event) : Prop :=
  Forall (fun ev => match ev with
                    | EvRequest req _ =>
                        req_headers req !! "Authorization" = Some (Bearer token)
                    | _ => True
                    end) evs.

(** ** Invariants of the client object *)

(** [m] keeps the property [I] of the client object. *)
Definition keeps (I : Client -> Prop) {A} (m : M A) : Prop :=
  forall w, I (self w) -> I (self (m w).2).

(** The [Authorization] header is the bearer header of [access_token]. *)
Definition header_matches_token (c : Client) : Prop :=
  headers c !! "Authorization" = Some (Bearer (access_token c)).

(** What identifies the account and the OAuth application, where the
    servers are and where the store is, and the headers other than
    [Authorization]. *)
Definition same_configuration (c0 c : Client) : Prop :=
  account_id c = account_id c0 /\
  client_id c = client_id c0 /\
  client_secret c = client_secret c0 /\
  token_url c = token_url c0 /\
  env_path c = env_path c0 /\
  base_url c = base_url c0 /\
  forall name, name <> "Authorization" -> headers c !! name = headers c0 !! name.

(** No file operation fails. *)
Definition no_faults (E : Env) : Prop :=
  forall tr op, env_fault E tr op = None.

(** Only the removal of the backup fails. *)
Definition only_backup_removal_fails (E : Env) (env : string) (f : fault) : Prop :=
  (forall tr, env_fault E tr (OpRemove (backup_of env)) = Some f) /\
  (forall tr op, op <> OpRemove (backup_of env) -> env_fault E tr op = None).

(** The request [req] is the call [method url data params], whatever its
    headers. *)
Definition is_call (method url : string) (data params : option pyval)
    (req : request) : Prop :=
  req_method req = method /\ req_url req = url /\
  req_json req = data /\ req_params req = params.

(** Every request among the events is the call [method url data params]. *)
Definition only_calls (method url : string) (data params : option pyval)
    (evs : list event) : Prop :=
  forall req out, In (EvRequest req out) evs -> is_call method url data params req.

(** * The rest of [freshbooks.py] *)

(** ** The constructor *)

Definition NO_ACCESS_TOKEN_MSG : string :=
  "No access token available. Please authenticate first:" +:+ nl +:+
  "1. Visit the FreshBooks OAuth URL" +:+ nl +:+
  "2. Get authorization code" +:+ nl +:+
  "3. Run: python freshbooks.py AUTH_CODE".

(** [a or b], for an optional string [a]. *)
Definition py_or {A} (a : option string) (of_a : string -> A) (b : A) : A :=
  match a with
  | Some s => if truthy (JStr s) then of_a s else b
  | None => b
  end.

(** [FreshBooksClient.__init__], lines 24-60.  [environ] is [os.environ]
    after [load_dotenv(override=True)]; [os.getenv(name)] is [environ name].
    The attribute [redirect_uri], which no method reads, is left out. *)
Definition init (environ : string -> option string)
    (account_id access_token : option string) : result Client :=
  let account :=
    py_or account_id (fun s => s)
      (default "ogqZ2g" (environ "FRESHBOOKS_ACCOUNT_ID")) in
  let token :=
    py_or access_token JStr (of_getenv (environ "FRESHBOOKS_ACCESS_TOKEN")) in
  if negb (truthy token) then Raise (ValueError NO_ACCESS_TOKEN_MSG)
  else
    Ok {| account_id := account;
          access_token := token;
          refresh_token := of_getenv (environ "FRESHBOOKS_REFRESH_TOKEN");
          token_expires_at := environ "FRESHBOOKS_TOKEN_EXPIRES_AT";
          client_id := environ "FRESHBOOKS_CLIENT_ID";
          client_secret := environ "FRESHBOOKS_CLIENT_SECRET";
          token_url := "https://api.freshbooks.com/auth/oauth/token";
          env_path := ".env";
          base_url := "https://api.freshbooks.com";
          headers := {[ "Authorization" := Bearer token;
                        "Content-Type" := HLit "application/json";
                        "Accept" := HLit "application/json" ]} |}.

(** ** Python dictionaries, lists and strings *)

(** [d[key] = value] on the items of a [dict]: an existing key keeps its
    place, a new one goes to the end. *)
Fixpoint dict_set (items : list (string * pyval)) (key : string) (value : pyval)
  : list (string * pyval) :=
  match items with
  | [] => [(key, value)]
  | (k, v) :: rest =>
      if String.eqb k key then (k, value) :: rest
      else (k, v) :: dict_set rest key value
  end.

(** A byte that continues a UTF-8 sequence: [10xxxxxx]. *)
Definition is_continuation (c : Ascii.ascii) : bool :=
  match c with
  | Ascii.Ascii _ _ _ _ _ _ b6 b7 => b7 && negb b6
  end.

Definition starts_with_continuation (s : string) : bool :=
  match s with
  | String c _ => is_continuation c
  | EmptyString => false
  end.

(** The characters of a string, which is held as its UTF-8 bytes. *)
Fixpoint utf8_chars (s : string) : list string :=
  match s with
  | EmptyString => []
  | String c rest =>
      match utf8_chars rest with
      | chunk :: more =>
          if starts_with_continuation chunk then String c chunk :: more
          else String c EmptyString :: chunk :: more
      | [] => [String c EmptyString]
      end
  end.

(** [for x in v]: the elements of a list, the keys of a [dict], the
    characters of a string. *)
Definition py_iter (v : pyval) : result (list pyval) :=
  match v with
  | JArr items => Ok items
  | JObj items => Ok (map (fun kv => JStr kv.1) items)
  | JStr s => Ok (map JStr (utf8_chars s))
  | _ => Raise (TypeError "object is not iterable")
  end.

(** [len(v)] *)
Definition py_len (v : pyval) : result nat :=
  match v with
  | JArr items => Ok (length items)
  | JObj items => Ok (length items)
  | JStr s => Ok (length (utf8_chars s))
  | _ => Raise (TypeError "object has no len()")
  end.

(** The outcome of code that can also raise [KeyError] or [IndexError],
    which [exn] does not have: [RaisedOther cls arg] is the exception of
    class [cls] with argument [arg]. *)
Inductive outcome (A : Type) :=
| Returned (a : A)
| Raised (e : exn)
| RaisedOther (cls : string) (arg : pyval).
Arguments Returned {A} a.
Arguments Raised {A} e.
Arguments RaisedOther {A} cls arg.

Definition of_result {A} (r : result A) : outcome A :=
  match r with
  | Ok a => Returned a
  | Raise e => Raised e
  end.

(** [v[key]] for a string [key]. *)
Definition py_getitem (v : pyval) (key : string) : outcome pyval :=
  match v with
  | JObj items =>
      match assoc_get items key with
      | Some x => Returned x
      | None => RaisedOther "KeyError" (JStr key)
      end
  | JArr _ => Raised (TypeError "list indices must be integers or slices, not str")
  | JStr _ => Raised (TypeError "string indices must be integers, not 'str'")
  | _ => Raised (TypeError "object is not subscriptable")
  end.

(** [v[0]]; the keys of a [dict] that came out of JSON are strings, so
    [0] is never one of them. *)
Definition py_getitem_0 (v : pyval) : outcome pyval :=
  match v with
  | JArr (x :: _) => Returned x
  | JArr [] => RaisedOther "IndexError" (JStr "list index out of range")
  | JStr s =>
      match utf8_chars s with
      | c :: _ => Returned (JStr c)
      | [] => RaisedOther "IndexError" (JStr "string index out of range")
      end
  | JObj _ => RaisedOther "KeyError" (JNum (PFin 0))
  | _ => Raised (TypeError "object is not subscriptable")
  end.

(** ** The state monad with the larger set of exceptions *)

Definition MO (A : Type) : Type := World -> outcome A * World.

Definition bindO {A B} (m : MO A) (k : A -> MO B) : MO B :=
  fun w =>
    match m w with
    | (Returned a, w') => k a w'
    | (Raised e, w') => (Raised e, w')
    | (RaisedOther cls arg, w') => (RaisedOther cls arg, w')
    end.

Definition retO {A} (a : A) : MO A := fun w => (Returned a, w).

Definition liftM {A} (m : M A) : MO A := fun w => ((of_result (m w).1), (m w).2).

Definition liftO {A} (o : outcome A) : MO A := fun w => (o, w).

Notation "x <~ m ;; k" := (bindO m (fun x => k))
  (at level 100, m at next level, right associativity).
Notation "m ;;~ k" := (bindO m (fun _ => k))
  (at level 100, right associativity).

(** ** Invoices and clients *)

Section Resources.

Variable E : Env.

(** The query parameters of [get_invoices], lines 257-261: every status of
    the list is stored under the one key ["status[]"]. *)
Definition invoice_status_params (status : option (list string))
  : list (string * pyval) :=
  match status with
  | None | Some [] => []
  | Some statuses =>
      fold_left (fun params s => dict_set params "status[]" (JStr s)) statuses []
  end.

Definition get_invoices (status : option (list string)) : M pyval :=
  acct <- gets account_id ;;
  let endpoint := "/search/account/" +:+ acct +:+ "/invoices_current" in
  _make_request E "GET" endpoint None (Some (JObj (invoice_status_params status))).

Definition get_invoice (invoice_id : string) : M pyval :=
  acct <- gets account_id ;;
  let endpoint :=
    "/accounting/account/" +:+ acct +:+ "/invoices/invoices/" +:+ invoice_id in
  _make_request E "GET" endpoint None (Some (JObj [("include[]", JStr "lines")])).

Definition delete_invoice (invoice_id : string) : M pyval :=
  acct <- gets account_id ;;
  let endpoint :=
    "/accounting/account/" +:+ acct +:+ "/invoices/invoices/" +:+ invoice_id in
  let data := JObj [("invoice", JObj [("vis_state", JNum (PFin 1))])] in
  _make_request E "PUT" endpoint (Some data) None.

Definition get_clients (per_page : Z) : M pyval :=
  acct <- gets account_id ;;
  let endpoint := "/accounting/account/" +:+ acct +:+ "/users/clients" in
  _make_request E "GET" endpoint None
    (Some (JObj [("per_page", JNum (PFin (inject_Z per_page)))])).

Definition get_client_by_email (email : string) : M pyval :=
  acct <- gets account_id ;;
  let endpoint := "/accounting/account/" +:+ acct +:+ "/users/clients" in
  _make_request E "GET" endpoint None (Some (JObj [("search[email]", JStr email)])).

(** [client.get("organization") == organization] *)
Definition organization_is (organization : option string) (client : pyval)
  : result bool :=
  match py_get client "organization" JNull with
  | Ok v =>
      Ok (match organization with
          | Some org => py_eq_str v org
          | None => match v with JNull => true | _ => false end
          end)
  | Raise e => Raise e
  end.

(** The list comprehension of [get_client], lines 443-446. *)
Fixpoint filter_clients (organization : option string) (clients : list pyval)
  : result (list pyval) :=
  match clients with
  | [] => Ok []
  | client :: rest =>
      match organization_is organization client with
      | Raise e => Raise e
      | Ok keep =>
          match filter_clients organization rest with
          | Raise e => Raise e
          | Ok kept => Ok (if keep then client :: kept else kept)
          end
      end
  end.

Definition clients_response (clients : pyval) : pyval :=
  JObj [("response", JObj [("result", JObj [("clients", clients)])])].

Definition get_client (organization email : option string) : M pyval :=
  if negb (truthy (of_getenv organization)) && negb (truthy (of_getenv email)) then
    raise (ValueError "Either organization or email must be provided")
  else if truthy (of_getenv email) then get_client_by_email (default "" email)
  else
    all_clients <- get_clients 100 ;;
    response <- lift (py_get all_clients "response" (JObj [])) ;;
    result <- lift (py_get response "result" (JObj [])) ;;
    clients <- lift (py_get result "clients" (JArr [])) ;;
    items <- lift (py_iter clients) ;;
    filtered_clients <- lift (filter_clients organization items) ;;
    ret (clients_response (JArr filtered_clients)).

Definition create_client (email first_name last_name organization : string)
  : M pyval :=
  acct <- gets account_id ;;
  let endpoint := "/accounting/account/" +:+ acct +:+ "/users/clients" in
  let client_data :=
    JObj [("client", JObj [("email", JStr email);
                           ("fname", JStr first_name);
                           ("lname", JStr last_name);
                           ("organization", JStr organization)])] in
  _make_request E "POST" endpoint (Some client_data) None.

(** [update_client(client_id, **kwargs)] *)
Definition update_client (client_id : string) (kwargs : list (string * pyval))
  : M pyval :=
  acct <- gets account_id ;;
  let endpoint :=
    "/accounting/account/" +:+ acct +:+ "/users/clients/" +:+ client_id in
  _make_request E "PUT" endpoint (Some (JObj [("client", JObj kwargs)])) None.

(** The body that [create_invoice] posts. *)
Definition invoice_body (client_id : pyval) (create_date : string) (items : pyval)
  : pyval :=
  JObj [("invoice",
         JObj [("customerid", client_id);
               ("create_date", JStr create_date);
               ("due_offset_days", JNum (PFin 30));
               ("currency_code", JStr "USD");
               ("language", JStr "en");
               ("lines", items);
               ("send_now", JBool false)])].

(** [strftime] is [datetime.strftime("%Y-%m-%d")] on the local time of a
    timestamp. *)
Definition create_invoice (strftime : Q -> string) (client_email : string)
    (items : pyval) : MO pyval :=
  client_data <~ liftM (get_client_by_email client_email) ;;
  response <~ liftO (of_result (py_get client_data "response" (JObj []))) ;;
  result <~ liftO (of_result (py_get response "result" (JObj []))) ;;
  found <~ liftO (of_result (py_get result "clients" JNull)) ;;
  if negb (truthy found) then
    liftO (Raised (ValueError ("No client found with email: " +:+ client_email)))
  else
    response' <~ liftO (py_getitem client_data "response") ;;
    result' <~ liftO (py_getitem response' "result") ;;
    clients <~ liftO (py_getitem result' "clients") ;;
    n <~ liftO (of_result (py_len clients)) ;;
    if (1 <? n)%nat then
      liftO (Raised (ValueError ("Multiple clients found with email: "
                                   +:+ client_email)))
    else
      first <~ liftO (py_getitem_0 clients) ;;
      client_id <~ liftO (py_getitem first "id") ;;
      acct <~ liftM (gets account_id) ;;
      let endpoint :=
        "/accounting/account/" +:+ acct +:+ "/invoices/invoices" in
      t <~ liftM (now E) ;;
      liftM (_make_request E "POST" endpoint
               (Some (invoice_body client_id (strftime t) items)) None).

End Resources.
(** ** The first authorization *)

Section Exchange.

Variable E : Env.

(** [os.environ] after [load_dotenv(override=True)]. *)
Variable environ : string -> option string.

(** [v[:n]], and [str(v)] as an f-string interpolates it. *)
Variable py_slice : pyval -> nat -> outcome pyval.
Variable py_format : pyval -> string.

Definition exchange_form (auth_code : string) : list (string * pyval) :=
  [("grant_type", JStr "authorization_code");
   ("code", JStr auth_code);
   ("client_id", of_getenv (environ "FRESHBOOKS_CLIENT_ID"));
   ("client_secret", of_getenv (environ "FRESHBOOKS_CLIENT_SECRET"));
   ("redirect_uri", of_getenv (environ "FRESHBOOKS_REDIRECT_URI"))].

(** [FreshBooksClient.exchange_code_for_tokens], lines 501-544. *)
Definition exchange_code_for_tokens (auth_code : string) : MO pyval :=
  response <~ liftM (requests_post E "https://api.freshbooks.com/auth/oauth/token"
                       (exchange_form auth_code)) ;;
  liftM (raise_for_status response) ;;~
  token_data <~ liftO (of_result (resp_json response)) ;;
  access <~ liftO (of_result (py_get token_data "access_token" JNull)) ;;
  refresh <~ liftO (of_result (py_get token_data "refresh_token" JNull)) ;;
  expires_in <~ liftO (of_result (py_get token_data "expires_in"
                                    (JNum (PFin 43200)))) ;;
  t <~ liftM (now E) ;;
  expires_at <~ liftO (of_result (py_add_float (py_round E) t expires_in)) ;;
  liftM (set_key E ".env" "FRESHBOOKS_ACCESS_TOKEN" access) ;;~
  liftM (set_key E ".env" "FRESHBOOKS_REFRESH_TOKEN" refresh) ;;~
  liftM (set_key E ".env" "FRESHBOOKS_TOKEN_EXPIRES_AT"
           (JStr (py_str_float E expires_at))) ;;~
  liftM (print "✓ Tokens successfully saved!" PNone) ;;~
  access50 <~ liftO (py_slice access 50) ;;
  liftM (print ("  Access token: " +:+ py_format access50 +:+ "...") PNone) ;;~
  refresh20 <~ liftO (py_slice refresh 20) ;;
  liftM (print ("  Refresh token: " +:+ py_format refresh20 +:+ "...") PNone) ;;~
  liftM (print ("  Expires in: " +:+ py_format expires_in +:+ " seconds") PNone) ;;~
  retO token_data.

End Exchange.

(** ** The functions of the module *)

Module Standalone.

Section Standalone.

Variable E : Env.
Variable environ : string -> option string.

(** [create_freshbooks_client(account_id, access_token)] *)
Definition create_freshbooks_client (account_id access_token : option string)
  : result Client :=
  init environ account_id access_token.

(** [client = create_freshbooks_client(...)] followed by a method of the
    new client. *)
Definition with_client {A} (account_id access_token : option string)
    (method : M A) : M A :=
  fun w =>
    match create_freshbooks_client account_id access_token with
    | Raise e => (Raise e, w)
    | Ok client => method (with_self client w)
    end.

Definition with_clientO {A} (account_id access_token : option string)
    (method : MO A) : MO A :=
  fun w =>
    match create_freshbooks_client account_id access_token with
    | Raise e => (Raised e, w)
    | Ok client => method (with_self client w)
    end.

Definition get_invoice (invoice_id : string)
    (account_id access_token : option string) : M pyval :=
  with_client account_id access_token (get_invoice E invoice_id).

Definition get_client (organization email account_id access_token : option string)
  : M pyval :=
  with_client account_id access_token (get_client E organization email).

Definition create_invoice (strftime : Q -> string) (client_email : string)
    (items : pyval) (account_id access_token : option string) : MO pyval :=
  with_clientO account_id access_token
    (create_invoice E strftime client_email items).

Definition create_client (email first_name last_name organization : string)
    (account_id access_token : option string) : M pyval :=
  with_client account_id access_token
    (create_client E email first_name last_name organization).

Definition send_invoice (invoice_id : string) (humanApproved : pyval)
    (account_id access_token : option string) : M pyval :=
  with_client account_id access_token (send_invoice E invoice_id humanApproved).

Definition delete_invoice (invoice_id : string)
    (account_id access_token : option string) : M pyval :=
  with_client account_id access_token (delete_invoice E invoice_id).

End Standalone.

End Standalone.

(** ** More examples *)

(** An environment in which only the access token is set. *)
Definition token_only_environ : string -> option string :=
  fun name =>
    if String.eqb name "FRESHBOOKS_ACCESS_TOKEN" then Some "env-access" else None.

Definition empty_environ : string -> option string := fun _ => None.

(** An API server that knows the given clients. *)
Definition clients_env (clients : pyval) : Env :=
  Sample.env Sample.no_faults
    (fun _ _ _ => NetRaise (ConnectionError "offline"))
    (fun _ _ => NetResp (Sample.json_response 200 (clients_response clients))).

Definition acme : pyval :=
  JObj [("id", JNum (PFin 7)); ("organization", JStr "Acme")].

Definition globex : pyval :=
  JObj [("id", JNum (PFin 8)); ("organization", JStr "Globex")].

(** Stands in for [strftime]. *)
Definition some_date : Q -> string := fun _ => "2025-01-01".

(** Stand in for slicing and [str]: strings only. *)
Definition slice_str (v : pyval) (n : nat) : outcome pyval :=
  match v with
  | JStr s => Returned (JStr (String.substring 0 n s))
  | _ => Raised (TypeError "object is not subscriptable")
  end.

Definition format_str (v : pyval) : string :=
  match v with
  | JStr s => s
  | _ => "?"
  end.

(** The second [set_key] of a run fails and leaves the file as it is. *)
Definition second_write_fails : list event -> fs_op -> option fault :=
  fun _ op =>
    match op with
    | OpSetKey _ key _ =>
        if String.eqb key "FRESHBOOKS_REFRESH_TOKEN" then
          Some {| fault_exn := OSError "No space left on device";
                  fault_damage := fun st => st |}
        else None
    | _ => None
    end.

(** ** What the remaining properties speak about *)

(** An optional string that is there and not empty: truthy in Python. *)
Definition given (o : option string) (s : string) : Prop :=
  o = Some s /\ s <> "".

Definition not_given (o : option string) : Prop :=
  o = None \/ o = Some "".

(** The clients in the answer of the server, as [get_client] reads them. *)
Definition server_clients (all_clients : pyval) : result pyval :=
  match py_get all_clients "response" (JObj []) with
  | Raise e => Raise e
  | Ok response =>
      match py_get response "result" (JObj []) with
      | Raise e => Raise e
      | Ok result => py_get result "clients" (JArr [])
      end
  end.

(** The clients in the answer of the server, as [create_invoice] looks for
    them. *)
Definition found_clients (client_data : pyval) : result pyval :=
  match py_get client_data "response" (JObj []) with
  | Raise e => Raise e
  | Ok response =>
      match py_get response "result" (JObj []) with
      | Raise e => Raise e
      | Ok result => py_get result "clients" JNull
      end
  end.

(** A client record whose [organization] is [org]. *)
Definition has_organization (org : string) (client : pyval) : bool :=
  match client with
  | JObj items => py_eq_str (default JNull (assoc_get items "organization")) org
  | _ => false
  end.

Definition is_dict (v : pyval) : Prop :=
  match v with
  | JObj _ => True
  | _ => False
  end.

(** The endpoints of the clients and of the invoices of the account of a
    client object, and the query of [get_client_by_email]. *)
Definition clients_endpoint (c : Client) : string :=
  "/accounting/account/" +:+ account_id c +:+ "/users/clients".

Definition invoices_endpoint (c : Client) : string :=
  "/accounting/account/" +:+ account_id c +:+ "/invoices/invoices".

Definition email_search (email : string) : option pyval :=
  Some (JObj [("search[email]", JStr email)]).

(** From [w] to [w'] the client object is the same, no file other than
    [path] has changed, and the trace has grown by local events only. *)
Definition only_file_changes (path : string) (w w' : World) : Prop :=
  self w' = self w /\
  (forall p, p <> path -> fs w' !! p = fs w !! p) /\
  exists evs, trace w' = trace w ++ evs /\ Forall (fun ev => is_local ev = true) evs.

(** Every run of [m] is such a step. *)
Definition writes_only (path : string) {A} (m : MO A) : Prop :=
  forall w, only_file_changes path w (m w).2.

Definition TOKEN_URL : string := "https://api.freshbooks.com/auth/oauth/token".

(** The authorization server grants the tokens, and the second write of
    the store fails. *)
Definition half_saving_env : Env :=
  Sample.env second_write_fails
    (fun _ _ _ => NetResp (Sample.json_response 200 Sample.tokens_body))
    (fun _ _ => NetRaise (ConnectionError "offline")).

(** * Proofs *)

(** ** Basic facts *)

Lemma Qltb_lt a b : Qltb a b = true <-> (a < b)%Q.
Proof.
  unfold Qltb. rewrite negb_true_iff. split.
  - intros H. apply Qnot_le_lt. intros Hle.
    apply Qle_bool_iff in Hle. congruence.
  - intros H. destruct (Qle_bool b a) eqn:Hb; [|reflexivity].
    apply Qle_bool_iff in Hb. exfalso. exact (Qlt_not_le _ _ H Hb).
Qed.

Lemma Qltb_shift a b c : Qltb (a + - b) c = Qltb (a + - c) b.
Proof.
  apply eq_true_iff_eq. rewrite !Qltb_lt. split; intros H; lra.
Qed.

(** The test of the code, [now > expires_at - 300], on exact numbers is the
    test of the specification: fewer than 300 seconds remain. *)
Lemma margin_test t x :
  x <> PNaN ->
  pf_gtb (PFin t) (pf_sub x (PFin 300)) = true <-> seconds_left_below t x 300.
Proof.
  destruct x as [q| | |]; simpl; try done.
  intros _. rewrite Qltb_lt. split; intros H; lra.
Qed.

Lemma string_length_app (s1 s2 : string) :
  String.length (s1 +:+ s2) = (String.length s1 + String.length s2)%nat.
Proof. induction s1 as [|a s1 IH]; simpl; [done|]. by rewrite IH. Qed.

Lemma backup_of_ne path : backup_of path ≠ path.
Proof.
  unfold backup_of. intros H.
  apply (f_equal String.length) in H.
  rewrite string_length_app in H. simpl in H. lia.
Qed.

Lemma new_events_app w w' evs :
  trace w' = trace w ++ evs -> new_events w w' = evs.
Proof.
  intros H. unfold new_events. rewrite H. apply drop_app_length.
Qed.

Lemma new_events_refl w : new_events w w = [].
Proof. apply new_events_app. by rewrite app_nil_r. Qed.

Lemma count_app p l1 l2 : count p (l1 ++ l2) = (count p l1 + count p l2)%nat.
Proof. unfold count. by rewrite List.filter_app, length_app. Qed.

Lemma count_none p evs : Forall (fun ev => p ev = false) evs -> count p evs = 0%nat.
Proof.
  unfold count. induction 1 as [|ev evs Hev _ IH]; simpl; [done|].
  by rewrite Hev.
Qed.

(** ** Which events a computation can add *)

Section Adds.

Variable P : event -> bool.

Lemma adds_ret {A} (a : A) : adds P (ret a).
Proof. intros w. exists []. by rewrite app_nil_r. Qed.

Lemma adds_raise {A} e : adds P (@raise A e).
Proof. intros w. exists []. by rewrite app_nil_r. Qed.

Lemma adds_lift {A} (r : result A) : adds P (lift r).
Proof. intros w. exists []. by rewrite app_nil_r. Qed.

Lemma adds_gets {A} (f : Client -> A) : adds P (gets f).
Proof. intros w. exists []. by rewrite app_nil_r. Qed.

Lemma adds_path_exists path : adds P (path_exists path).
Proof. intros w. exists []. by rewrite app_nil_r. Qed.

Lemma adds_set_credentials a r s : adds P (set_credentials a r s).
Proof. intros w. exists []. by rewrite app_nil_r. Qed.

Lemma adds_bind {A B} (m : M A) (k : A -> M B) :
  adds P m -> (forall a, adds P (k a)) -> adds P (bind m k).
Proof.
  intros Hm Hk w. unfold bind.
  destruct (Hm w) as (evs1 & H1 & F1).
  destruct (m w) as [[a|e] w1]; simpl in *.
  - destruct (Hk a w1) as (evs2 & H2 & F2).
    exists (evs1 ++ evs2). split.
    + by rewrite H2, H1, app_assoc.
    + by apply Forall_app.
  - by exists evs1.
Qed.

Lemma adds_try {A} (m : M A) (h : exn -> M A) :
  adds P m -> (forall e, adds P (h e)) -> adds P (try_except m h).
Proof.
  intros Hm Hh w. unfold try_except.
  destruct (Hm w) as (evs1 & H1 & F1).
  destruct (m w) as [[a|e] w1]; simpl in *.
  - by exists evs1.
  - destruct (Hh e w1) as (evs2 & H2 & F2).
    exists (evs1 ++ evs2). split.
    + by rewrite H2, H1, app_assoc.
    + by apply Forall_app.
Qed.

Lemma adds_log {A} (f : World -> result A * event) :
  (forall w, P (f w).2 = true) ->
  adds P (fun w => ((f w).1, log (f w).2 w)).
Proof.
  intros HP w. exists [(f w).2]. split; [done|].
  constructor; [apply HP|constructor].
Qed.

Lemma adds_now E : (forall t, P (EvNow t) = true) -> adds P (now E).
Proof. intros HP w. exists [EvNow (env_now E (trace w))]. split; [done|]. by repeat constructor. Qed.

Lemma adds_print text arg : P (EvPrint text arg) = true -> adds P (print text arg).
Proof. intros HP w. exists [EvPrint text arg]. split; [done|]. by repeat constructor. Qed.

Lemma adds_read_file E path :
  (forall op r, P (EvIO op r) = true) -> adds P (read_file E path).
Proof.
  intros HP w. unfold read_file.
  destruct (env_fault E (trace w) (OpRead path)); [|destruct (fs w !! path)];
    eexists [_]; (split; [reflexivity|by repeat constructor]).
Qed.

Lemma adds_write_file E path content :
  (forall op r, P (EvIO op r) = true) -> adds P (write_file E path content).
Proof.
  intros HP w. unfold write_file.
  destruct (env_fault E (trace w) (OpWrite path content));
    eexists [_]; (split; [reflexivity|by repeat constructor]).
Qed.

Lemma adds_set_key E path key value :
  (forall op r, P (EvIO op r) = true) -> adds P (set_key E path key value).
Proof.
  intros HP w. unfold set_key.
  destruct (env_fault E (trace w) (OpSetKey path key value));
    eexists [_]; (split; [reflexivity|by repeat constructor]).
Qed.

Lemma adds_remove_file E path :
  (forall op r, P (EvIO op r) = true) -> adds P (remove_file E path).
Proof.
  intros HP w. unfold remove_file.
  destruct (env_fault E (trace w) (OpRemove path)); [|destruct (fs w !! path)];
    eexists [_]; (split; [reflexivity|by repeat constructor]).
Qed.

Lemma adds_requests_post E url form :
  (forall u f o, P (EvPost u f o) = true) -> adds P (requests_post E url form).
Proof. intros HP w. eexists [_]. split; [reflexivity|by repeat constructor]. Qed.

Lemma adds_requests_request E req :
  (forall r o, P (EvRequest r o) = true) -> adds P (requests_request E req).
Proof. intros HP w. eexists [_]. split; [reflexivity|by repeat constructor]. Qed.

Lemma adds_raise_for_status r : adds P (raise_for_status r).
Proof.
  unfold raise_for_status.
  destruct (is_error_status _); [apply adds_raise|apply adds_ret].
Qed.

End Adds.

Lemma adds_mono (P Q : event -> bool) {A} (m : M A) :
  (forall ev, P ev = true -> Q ev = true) -> adds P m -> adds Q m.
Proof.
  intros HPQ Hm w. destruct (Hm w) as (evs & H & F).
  exists evs. split; [done|]. eapply Forall_impl; [exact F|]. exact HPQ.
Qed.

(** Walks through a computation built from the primitives. *)
Ltac adds_step :=
  first
    [ apply adds_ret | apply adds_raise | apply adds_lift | apply adds_gets
    | apply adds_path_exists | apply adds_set_credentials
    | apply adds_raise_for_status
    | apply adds_now; intros; reflexivity
    | apply adds_print; reflexivity
    | apply adds_read_file; intros; reflexivity
    | apply adds_write_file; intros; reflexivity
    | apply adds_set_key; intros; reflexivity
    | apply adds_remove_file; intros; reflexivity
    | apply adds_requests_post; intros; reflexivity
    | apply adds_requests_request; intros; reflexivity
    | apply adds_bind; [|intros ?]
    | apply adds_try; [|intros ?]
    | match goal with
      | |- adds _ (if ?b then _ else _) => destruct b
      | |- adds _ (match ?x with _ => _ end) => destruct x
      end ].

Lemma atomic_save_tokens_adds E a r ei :
  adds is_local (atomic_save_tokens E a r ei).
Proof.
  unfold atomic_save_tokens, make_backup, write_tokens, restore_backup.
  repeat adds_step.
Qed.

Lemma is_token_expired_adds E : adds is_local (is_token_expired E).
Proof. unfold is_token_expired. repeat adds_step. Qed.

(** [is_token_expired] always returns and leaves the client alone. *)
Lemma is_token_expired_returns (E : Env) (w : World) :
  exists b w', is_token_expired E w = (Ok b, w') /\ self w' = self w.
Proof.
  unfold is_token_expired, bind, gets.
  destruct (token_expires_at (self w)) as [s|]; simpl; [|by eauto].
  destruct (negb (String.eqb s "")); simpl; [|by eauto].
  destruct (py_float E s) as [x|]; simpl; by eauto.
Qed.

(** ** C4: [is_token_expired] *)

(** What [is_token_expired] does in each case. *)
Lemma is_token_expired_unfold (E : Env) (w : World) :
  is_token_expired E w =
  match token_expires_at (self w) with
  | None => (Ok true, w)
  | Some s =>
      if String.eqb s "" then (Ok true, w)
      else
        match py_float E s with
        | None => (Ok true, w)
        | Some x =>
            let t := env_now E (trace w) in
            (Ok (pf_gtb (PFin t) (fl_sub (py_round E) x (PFin 300))),
             log (EvNow t) w)
        end
  end.
Proof.
  unfold is_token_expired, bind, gets.
  destruct (token_expires_at (self w)) as [s|]; simpl; [|done].
  destruct (String.eqb s ""); simpl; [done|].
  by destruct (py_float E s).
Qed.

(** X28. Apart from an expiry that reads as NaN, and where subtracting the
    margin is exact, the answer of [is_token_expired] is the one of the
    specification: [true] exactly when the stored expiry is absent, is
    rejected by [float], or fewer than 300 seconds remain.  The client and
    the files are unchanged. *)
Lemma is_token_expired_otherwise (E : Env) (w : World) :
  ~ expiry_is_nan E (self w) ->
  margin_exact E (self w) ->
  exists b w',
    is_token_expired E w = (Ok b, w') /\
    self w' = self w /\ fs w' = fs w /\
    (b = true <-> spec_isExpired E (env_now E (trace w)) (self w)).
Proof.
  intros Hnan Hexact. rewrite is_token_expired_unfold.
  unfold spec_isExpired, no_expiry_known, expiry_malformed, within_safety_margin.
  destruct (token_expires_at (self w)) as [s|] eqn:Hexp.
  2:{ exists true, w. repeat split; auto. }
  destruct (String.eqb_spec s "") as [->|Hne].
  { exists true, w. repeat split; auto. }
  destruct (py_float E s) as [x|] eqn:Hf.
  2:{ exists true, w. repeat split; eauto 6. }
  assert (Hx : x <> PNaN).
  { intros ->. apply Hnan. by exists s. }
  assert (Hsub : fl_sub (py_round E) x (PFin 300) = pf_sub x (PFin 300)).
  { destruct x as [q| | |]; try done.
    unfold fl_sub, pf_sub. simpl. by apply (Hexact s q). }
  simpl. eexists _, _. split; [reflexivity|]. rewrite Hsub.
  split; [done|]. split; [done|]. rewrite (margin_test _ _ Hx). split.
  - intros H. right. right. by exists s, x.
  - intros [[[=]|[=]]|[(s' & [=] & Hn)|(s' & x' & [=] & Hx' & Hlt)]];
      subst; congruence.
Qed.

Lemma is_token_expired_otherwise_witness :
  let E := Sample.env Sample.no_faults (fun _ _ _ => NetRaise (ConnectionError ""))
             (fun _ _ => NetRaise (ConnectionError "")) in
  let w := Sample.world (Sample.client JNull (Some "1200")) ∅ in
  ~ expiry_is_nan E (self w) /\
  margin_exact E (self w) /\
  (is_token_expired E w).1 = Ok true.
Proof.
  intros E w.
  assert (Hnan : ~ expiry_is_nan E (self w)).
  { intros (s & [= <-] & _ & Hf). compute in Hf. discriminate. }
  assert (Hexact : margin_exact E (self w)).
  { intros s q [= <-] Hf. reflexivity. }
  split; [exact Hnan|]. split; [exact Hexact|].
  destruct (is_token_expired_otherwise E w Hnan Hexact)
    as (b & w' & Hrun & _ & _ & Hb).
  rewrite Hrun. simpl. f_equal. apply Hb. right. right.
  exists "1200", (PFin 1200). split; [reflexivity|]. split; [reflexivity|].
  simpl. unfold Qlt. simpl. lia.
Defined.

(** C4 fails on the code for an expiry that [float] reads as NaN, such as
    the string ["nan"]: it is not a number, yet no [ValueError] is raised
    for it, and since every comparison with NaN is false the test
    [now > expires_at - 300] answers [False].  [is_token_expired] then
    reports "not expired" at every time, where the claim says "expired". *)
Theorem is_token_expired_nan (E : Env) (w : World) (s : string) :
  token_expires_at (self w) = Some s ->
  s <> "" ->
  py_float E s = Some PNaN ->
  is_token_expired E w = (Ok false, log (EvNow (env_now E (trace w))) w).
Proof.
  intros Hs Hne Hf. rewrite is_token_expired_unfold, Hs.
  apply String.eqb_neq in Hne. by rewrite Hne, Hf.
Qed.

Lemma is_token_expired_nan_witness :
  let E := Sample.env Sample.no_faults (fun _ _ _ => NetRaise (ConnectionError ""))
             (fun _ _ => NetRaise (ConnectionError "")) in
  let w := Sample.world (Sample.client JNull (Some "nan")) ∅ in
  py_float E "nan" = Some PNaN /\
  (is_token_expired E w).1 = Ok false.
Proof.
  intros E w. split; [reflexivity|].
  by rewrite (is_token_expired_nan E w "nan" eq_refl ltac:(discriminate) eq_refl).
Defined.

(** The code itself can store such an expiry: a token response whose
    [expires_in] is NaN, which [json()] accepts, is saved with the expiry
    [str(now + nan)], and the token then never counts as expired. *)
Example nan_lifetime_never_expires :
  let body := JObj [("access_token", JStr "new-access");
                    ("refresh_token", JStr "new-refresh");
                    ("expires_in", JNum PNaN)] in
  let E := answering_env (Sample.json_response 200 body) in
  let w' := (refresh_access_token E refreshing_world).2 in
  token_expires_at (self w') = Some "nan" /\
  (is_token_expired E w').1 = Ok false.
Proof. vm_compute. split; reflexivity. Qed.

Example is_token_expired_soon :
  (is_token_expired (Sample.env Sample.no_faults (fun _ _ _ => NetRaise (ConnectionError ""))
                       (fun _ _ => NetRaise (ConnectionError "")))
     (Sample.world (Sample.client JNull (Some "1200")) ∅)).1 = Ok true.
Proof. reflexivity. Qed.

Example is_token_expired_later :
  (is_token_expired (Sample.env Sample.no_faults (fun _ _ _ => NetRaise (ConnectionError ""))
                       (fun _ _ => NetRaise (ConnectionError "")))
     (Sample.world (Sample.client JNull (Some "1300")) ∅)).1 = Ok false.
Proof. reflexivity. Qed.

(** ** The refresh exchange *)

Section Refresh.

Variable E : Env.

Lemma after_post_fs w : fs (after_post E w) = fs w.
Proof. reflexivity. Qed.

Lemma after_post_self w : self (after_post E w) = self w.
Proof. reflexivity. Qed.

(** With a refresh token held, the method posts the form and goes on with
    the answer. *)
Lemma refresh_access_token_unfold w :
  truthy (refresh_token (self w)) = true ->
  refresh_access_token E w =
    (resp <- lift (of_outcome (auth_answer E w)) ;;
     (if negb (status_code resp =? 200)%Z then
        error_data <- lift (resp_json resp) ;;
        err <- lift (py_get error_data "error" JNull) ;;
        if py_eq_str err "invalid_grant" then raise (ValueError INVALID_GRANT_MSG)
        else raise_for_status resp
      else ret tt) ;;;
     token_data <- lift (resp_json resp) ;;
     new_access <- lift (py_get token_data "access_token" JNull) ;;
     new_refresh <- lift (py_get token_data "refresh_token" JNull) ;;
     expires_in <- lift (py_get token_data "expires_in" (JNum (PFin 43200))) ;;
     if negb (truthy new_access) || negb (truthy new_refresh) then
       raise (ValueError MALFORMED_TOKEN_MSG)
     else
       atomic_save_tokens E new_access new_refresh expires_in ;;;
       ret token_data) (after_post E w).
Proof.
  intros Hrt. unfold refresh_access_token, bind at 1. simpl.
  unfold bind at 1. simpl. rewrite Hrt. reflexivity.
Qed.

End Refresh.

(** ** C7: no refresh token *)

(** C7. Called while no refresh token is held, [refresh_access_token]
    raises [NoRefreshToken], whose message asks for manual
    re-authentication; the only event of the call is the mark of the
    attempt, so nothing was sent to the authorization endpoint or anywhere
    else, and client and files are as before. *)
Theorem refresh_without_refresh_token (E : Env) (w : World) :
  truthy (refresh_token (self w)) = false ->
  let (res, w') := refresh_access_token E w in
  res = Raise NoRefreshToken /\
  contains "manual re-authentication required" NO_REFRESH_TOKEN_MSG = true /\
  new_events w w' = [EvRefresh] /\
  count is_network (new_events w w') = 0%nat /\
  self w' = self w /\ fs w' = fs w.
Proof.
  intros Hrt. unfold refresh_access_token, bind at 1. simpl.
  unfold bind at 1. simpl. rewrite Hrt. simpl.
  assert (Hev : new_events w (log EvRefresh w) = [EvRefresh])
    by (by apply new_events_app).
  rewrite Hev. repeat split; reflexivity.
Qed.

(** A client whose refresh token is [None]. *)
Lemma refresh_without_refresh_token_witness :
  let w := Sample.world (Sample.client JNull (Some "1200")) ∅ in
  let E := Sample.env Sample.no_faults
             (fun _ _ _ => NetResp (Sample.json_response 200 Sample.tokens_body))
             (fun _ _ => NetRaise (ConnectionError "")) in
  truthy (refresh_token (self w)) = false /\
  (refresh_access_token E w).1 = Raise NoRefreshToken.
Proof.
  intros w E. split; [reflexivity|].
  pose proof (refresh_without_refresh_token E w eq_refl) as H.
  destruct (refresh_access_token E w) as [res w']. apply H.
Defined.

(** ** C5: [invalid_grant] *)

(** C5. When the authorization server answers the refresh with a status
    other than 200 and a JSON object whose [error] is ["invalid_grant"],
    [refresh_access_token] raises [RefreshTokenInvalid], whose message says
    that manual re-authentication is required; files (so the persisted
    store) and client are unchanged. *)
Theorem refresh_invalid_grant (E : Env) (w : World) (r : response)
    (items : list (string * pyval)) :
  truthy (refresh_token (self w)) = true ->
  auth_answer E w = NetResp r ->
  status_code r <> 200%Z ->
  resp_json r = Ok (JObj items) ->
  assoc_get items "error" = Some (JStr "invalid_grant") ->
  let (res, w') := refresh_access_token E w in
  res = Raise RefreshTokenInvalid /\
  contains "Manual re-authentication required" INVALID_GRANT_MSG = true /\
  fs w' = fs w /\ store w' = store w /\ self w' = self w.
Proof.
  intros Hrt Hans Hst Hjs Herr.
  rewrite refresh_access_token_unfold by done.
  unfold bind at 1. rewrite Hans. simpl.
  apply Z.eqb_neq in Hst. unfold bind at 1. rewrite Hst. simpl.
  unfold bind at 1. rewrite Hjs. simpl.
  unfold bind at 1. simpl. rewrite Herr. simpl.
  repeat split; reflexivity.
Qed.

(** A 400 answer carrying [invalid_grant]. *)
Lemma refresh_invalid_grant_witness :
  let w := Sample.world (Sample.client (JStr "old-refresh") (Some "1200"))
             {[ ".env" := "FRESHBOOKS_REFRESH_TOKEN='old-refresh'" ]} in
  let body := [("error", JStr "invalid_grant")] in
  let r := Sample.json_response 400 (JObj body) in
  let E := Sample.env Sample.no_faults (fun _ _ _ => NetResp r)
             (fun _ _ => NetRaise (ConnectionError "")) in
  (refresh_access_token E w).1 = Raise RefreshTokenInvalid /\
  store (refresh_access_token E w).2 = store w.
Proof.
  intros w body r E.
  pose proof (refresh_invalid_grant E w r body eq_refl eq_refl
                ltac:(discriminate) eq_refl eq_refl) as H.
  destruct (refresh_access_token E w) as [res w'].
  split; apply H.
Defined.

(** ** Persisting the tokens *)

Lemma first_failure_app evs1 evs2 :
  first_failure (evs1 ++ evs2) =
    match first_failure evs1 with
    | Some e => Some e
    | None => first_failure evs2
    end.
Proof.
  induction evs1 as [|ev evs1 IH]; simpl; [done|].
  destruct ev as [| |op [e|]| | |]; auto.
Qed.

Lemma lookup_fs_put_eq path st m : fs_put path st m !! path = st.
Proof. unfold fs_put. apply lookup_partial_alter_eq. Qed.

Lemma lookup_fs_put_ne path path' st m :
  path <> path' -> fs_put path st m !! path' = m !! path'.
Proof. unfold fs_put. apply lookup_partial_alter_ne. Qed.

Section Persist.

Variable E : Env.

(** Rewrites lookups in the file system after writes to the store or to
    its backup, which are different paths. *)
Ltac fs_simpl :=
  repeat first
    [ rewrite lookup_fs_put_eq
    | rewrite lookup_fs_put_ne by (first [apply backup_of_ne | apply not_eq_sym, backup_of_ne])
    | rewrite lookup_insert_eq
    | rewrite lookup_insert_ne by (first [apply backup_of_ne | apply not_eq_sym, backup_of_ne])
    | rewrite lookup_delete_eq
    | rewrite lookup_delete_ne by (first [apply backup_of_ne | apply not_eq_sym, backup_of_ne]) ].

(** Closes a branch of a run: names the events that were appended, then
    settles the facts about the files, the client and the trace. *)
Ltac branch :=
  simpl; rewrite <- ?app_assoc; eexists; split; [simpl; reflexivity|];
  simpl; fs_simpl;
  repeat match goal with
         | |- _ /\ _ => split
         | |- Forall _ _ => repeat constructor
         end;
  auto.

Lemma make_backup_cases env w :
  let (res, w1) := make_backup E env (backup_of env) w in
  exists evs,
    trace w1 = trace w ++ evs /\ self w1 = self w /\
    fs w1 !! env = fs w !! env /\
    Forall (fun ev => is_store_write ev = false) evs /\
    match res with
    | Ok _ =>
        first_failure evs = None /\
        fs w1 !! backup_of env =
          match fs w !! env with
          | Some c => Some c
          | None => fs w !! backup_of env
          end
    | Raise e => first_failure evs = Some e
    end.
Proof.
  unfold make_backup, bind, path_exists, read_file, write_file.
  destruct (fs w !! env) as [c0|] eqn:Hc0.
  2:{ exists []. rewrite app_nil_r, Hc0. by repeat split. }
  destruct (env_fault E (trace w) (OpRead env)) as [f|] eqn:Hf.
  { branch. }
  rewrite Hc0. simpl.
  destruct (env_fault E _ (OpWrite _ _)) as [f|] eqn:Hf2; simpl; rewrite ?Hc0; branch.
Qed.

Lemma restore_backup_cases env e w :
  let (res, w1) := restore_backup E env (backup_of env) e w in
  exists evs,
    trace w1 = trace w ++ evs /\ self w1 = self w /\
    Forall (fun ev => is_store_write ev = false) evs /\
    fs w1 !! backup_of env = fs w !! backup_of env /\
    (fs w !! backup_of env = None ->
       res = Raise e /\ fs w1 = fs w /\ first_failure evs = None) /\
    (rollback_ok E env -> forall c,
       fs w !! backup_of env = Some c ->
       res = Raise e /\ fs w1 !! env = Some c /\ first_failure evs = None).
Proof.
  unfold restore_backup, bind, print, path_exists, read_file, write_file, raise.
  simpl.
  destruct (fs w !! backup_of env) as [c0|] eqn:Hc0.
  2:{ branch; intros; try done. }
  simpl.
  destruct (env_fault E _ (OpRead _)) as [f|] eqn:Hf.
  { branch; try done. intros [Hr _]. by rewrite Hr in Hf. }
  rewrite Hc0. simpl.
  destruct (env_fault E _ (OpWrite _ _)) as [f|] eqn:Hf2; simpl.
  { branch; try done. intros [_ Hw]. by rewrite Hw in Hf2. }
  branch; done.
Qed.

Lemma write_tokens_cases env a r x w :
  let s := py_str_float E x in
  let (res, w1) := write_tokens E env (backup_of env) a r x w in
  exists evs,
    trace w1 = trace w ++ evs /\
    match res with
    | Ok _ =>
        self w1 = update_credentials a r s (self w) /\
        first_failure evs = None /\
        fs w1 !! backup_of env = None /\
        fs w1 !! env = saved_store E a r s (fs w !! env) /\
        exists post,
          evs = store_writes env a r s ++ post /\
          Forall (fun ev => is_store_write ev = false) post
    | Raise e =>
        first_failure evs = Some e /\
        fs w1 !! backup_of env = fs w !! backup_of env /\
        (self w1 = self w \/
         self w1 = update_credentials a r s (self w) /\
         exists post,
           evs = store_writes env a r s ++ post /\
           Forall (fun ev => is_store_write ev = false) post)
    end.
Proof.
  intros s. unfold write_tokens.
  unfold bind at 1, set_key at 1.
  destruct (env_fault E _ (OpSetKey _ "FRESHBOOKS_ACCESS_TOKEN" _)) as [f|] eqn:Hf1.
  { branch. }
  simpl. unfold bind at 1, set_key at 1.
  destruct (env_fault E _ (OpSetKey _ "FRESHBOOKS_REFRESH_TOKEN" _)) as [f|] eqn:Hf2.
  { branch. }
  simpl. unfold bind at 1, set_key at 1.
  destruct (env_fault E _ (OpSetKey _ "FRESHBOOKS_TOKEN_EXPIRES_AT" _)) as [f|] eqn:Hf3.
  { branch. }
  simpl. unfold bind, set_credentials, path_exists, remove_file, now, print. simpl.
  fs_simpl.
  destruct (fs w !! backup_of env) as [c|] eqn:Hb; simpl.
  2:{ branch. eexists. split; [reflexivity|repeat constructor]. }
  destruct (env_fault E _ (OpRemove _)) as [f|] eqn:Hf4; simpl.
  - branch. right. split; [done|].
    eexists. split; [reflexivity|repeat constructor].
  - fs_simpl. rewrite Hb. branch. eexists. split; [reflexivity|repeat constructor].
Qed.

Lemma restore_backup_raises env backup_path e w :
  exists e' w', restore_backup E env backup_path e w = (Raise e', w').
Proof.
  unfold restore_backup, bind, print, path_exists, read_file, write_file, raise.
  simpl. destruct (fs w !! backup_path) as [c|]; simpl; [|by eauto].
  destruct (env_fault E _ (OpRead _)) as [f|]; [by eauto|].
  destruct (fs w !! backup_path) as [c'|]; simpl; [|by eauto].
  destruct (env_fault E _ (OpWrite _ _)) as [f|]; simpl; by eauto.
Qed.

(** The first steps of [atomic_save_tokens]: the clock is read and the
    expiry computed, then the backup is made and the [try] is entered. *)
Lemma atomic_save_tokens_unfold a r ei w :
  atomic_save_tokens E a r ei w =
    let w0 := log (EvNow (env_now E (trace w))) w in
    let env := env_path (self w) in
    match py_add_float (py_round E) (env_now E (trace w)) ei with
    | Raise e => (Raise e, w0)
    | Ok x =>
        match make_backup E env (backup_of env) w0 with
        | (Raise e, w1) => (Raise e, w1)
        | (Ok _, w1) =>
            match write_tokens E env (backup_of env) a r x w1 with
            | (Ok u, w2) => (Ok u, w2)
            | (Raise e, w2) => restore_backup E env (backup_of env) e w2
            end
        end
    end.
Proof.
  unfold atomic_save_tokens, bind at 1, now. simpl.
  unfold bind at 1, lift. destruct (py_add_float _ _ ei) as [x|e]; [|done].
  unfold bind at 1. simpl. unfold bind at 1.
  destruct (make_backup _ _ _ _) as [[[]|e] w1]; done.
Qed.

End Persist.

(** ** C1: rollback of a failed save *)

(** C1, as amended.  When the store exists before the call, so that a backup
    is taken, and the handler's own read of the backup and rewrite of the
    store do not fail: if a file operation of [atomic_save_tokens] fails (a
    write to the store in particular), the call raises the error of that
    operation and the store holds what it held before the call; whenever
    the call raises, the store holds what it held before; and when the call
    returns, the backup file is gone. *)
Theorem atomic_save_tokens_rollback (E : Env) (a r ei : pyval) (w : World)
    (c0 : string) :
  store w = Some c0 ->
  rollback_ok E (env_path (self w)) ->
  let (res, w') := atomic_save_tokens E a r ei w in
  (forall e, first_failure (new_events w w') = Some e ->
     res = Raise e /\ store w' = Some c0) /\
  (forall e, res = Raise e -> store w' = Some c0) /\
  (res = Ok tt -> backup w' = None).
Proof.
  unfold store, backup. intros Hc0 Hrb.
  rewrite atomic_save_tokens_unfold. simpl.
  set (w0 := log (EvNow (env_now E (trace w))) w).
  set (env := env_path (self w)) in *.
  destruct (py_add_float _ _ ei) as [x|e0].
  2:{ rewrite (new_events_app w w0 [EvNow (env_now E (trace w))]) by done.
      simpl. repeat split; try done. }
  pose proof (make_backup_cases E env w0) as Hb.
  destruct (make_backup E env (backup_of env) w0) as [[[]|e1] w1];
    destruct Hb as (evs1 & Ht1 & Hs1 & Hfs1 & _ & Hres1).
  2:{ rewrite (new_events_app w w1 (EvNow (env_now E (trace w)) :: evs1))
        by (rewrite Ht1; simpl; by rewrite <- app_assoc).
      simpl. rewrite Hs1. simpl. fold env. rewrite Hfs1. simpl.
      repeat split; try done. all: intros; try done; congruence. }
  destruct Hres1 as [Hff1 Hbk1]. simpl in Hbk1, Hfs1. fold env in Hbk1.
  rewrite Hc0 in Hbk1.
  pose proof (write_tokens_cases E env a r x w1) as Hw. simpl in Hw.
  destruct (write_tokens E env (backup_of env) a r x w1) as [[[]|e2] w2];
    destruct Hw as (evs2 & Ht2 & Hres2).
  { destruct Hres2 as (Hs2 & Hff2 & Hbk2 & _).
    rewrite (new_events_app w w2 ((EvNow (env_now E (trace w)) :: evs1) ++ evs2))
      by (rewrite Ht2, Ht1; simpl; by rewrite <- !app_assoc).
    rewrite first_failure_app. simpl. rewrite Hff1, Hff2, Hs2, Hs1. simpl.
    fold env. repeat split; done. }
  destruct Hres2 as (Hff2 & Hbk2 & Hself2).
  pose proof (restore_backup_cases E env e2 w2) as Hr.
  destruct (restore_backup E env (backup_of env) e2 w2) as [res w3].
  destruct Hr as (evs3 & Ht3 & Hs3 & _ & _ & _ & Hok).
  destruct (Hok Hrb c0) as (-> & Hst & Hff3); [congruence|].
  rewrite (new_events_app w w3
             (((EvNow (env_now E (trace w)) :: evs1) ++ evs2) ++ evs3))
    by (rewrite Ht3, Ht2, Ht1; simpl; by rewrite <- !app_assoc).
  rewrite !first_failure_app. simpl. rewrite Hff1, Hff2.
  assert (Henv : env_path (self w3) = env).
  { rewrite Hs3. destruct Hself2 as [->|[-> _]]; by rewrite Hs1. }
  rewrite Henv. repeat split; try done. congruence.
Qed.

(** C1 as stated fails in two ways.  When there is no store yet, the first
    [set_key] creates it, the second fails, no backup exists to restore
    from, and the half-written store stays.  When the store exists and the
    handler's rewrite of it fails too, the store is left as that failure
    leaves it and the error of the rewrite is raised, not the original
    one. *)
Lemma rolls_back_every_failure_counterexample :
  ~ rolls_back_every_failure (offline_env refresh_write_fails)
      (JStr "new-access") (JStr "new-refresh") (JNum (PFin 43200))
      (Sample.world (Sample.client (JStr "old-refresh") (Some "1200")) ∅) /\
  ~ rolls_back_every_failure (offline_env store_unwritable)
      (JStr "new-access") (JStr "new-refresh") (JNum (PFin 43200))
      (Sample.world (Sample.client (JStr "old-refresh") (Some "1200"))
         {[ ".env" := "FRESHBOOKS_REFRESH_TOKEN='old-refresh'" ]}).
Proof.
  unfold rolls_back_every_failure. split.
  - set (E := offline_env refresh_write_fails).
    set (w := Sample.world _ _).
    intros H.
    assert (Hff : first_failed_write (env_path (self w))
                    (new_events w
                       (atomic_save_tokens E (JStr "new-access")
                          (JStr "new-refresh") (JNum (PFin 43200)) w).2)
                  = Some (OSError "No space left on device"))
      by (vm_compute; reflexivity).
    assert (Hst : store (atomic_save_tokens E (JStr "new-access")
                           (JStr "new-refresh") (JNum (PFin 43200)) w).2
                  <> store w)
      by (vm_compute; discriminate).
    destruct (atomic_save_tokens E _ _ _ w) as [res w'].
    destruct (H _ Hff) as [_ Hstore]. exact (Hst Hstore).
  - set (E := offline_env store_unwritable).
    set (w := Sample.world _ _).
    intros H.
    assert (Hff : first_failed_write (env_path (self w))
                    (new_events w
                       (atomic_save_tokens E (JStr "new-access")
                          (JStr "new-refresh") (JNum (PFin 43200)) w).2)
                  = Some (OSError "No space left on device"))
      by (vm_compute; reflexivity).
    assert (Hres : (atomic_save_tokens E (JStr "new-access")
                      (JStr "new-refresh") (JNum (PFin 43200)) w).1
                   = Raise (OSError "Input/output error"))
      by (vm_compute; reflexivity).
    destruct (atomic_save_tokens E _ _ _ w) as [res w'].
    destruct (H _ Hff) as [Hraise _]. simpl in Hres. congruence.
Qed.

(** The store after the failed rewrite: emptied. *)
Example store_left_damaged :
  store (atomic_save_tokens (offline_env store_unwritable)
           (JStr "new-access") (JStr "new-refresh") (JNum (PFin 43200))
           (Sample.world (Sample.client (JStr "old-refresh") (Some "1200"))
              {[ ".env" := "FRESHBOOKS_REFRESH_TOKEN='old-refresh'" ]})).2
  = Some "".
Proof. vm_compute. reflexivity. Qed.

Example store_left_half_written :
  store (atomic_save_tokens (offline_env refresh_write_fails)
           (JStr "new-access") (JStr "new-refresh") (JNum (PFin 43200))
           (Sample.world (Sample.client (JStr "old-refresh") (Some "1200")) ∅)).2
  = Some ("FRESHBOOKS_ACCESS_TOKEN='new-access'" +:+ nl).
Proof. vm_compute. reflexivity. Qed.

(** An existing store survives the failure of the second [set_key]. *)
Lemma atomic_save_tokens_rollback_witness :
  let E := offline_env refresh_write_fails in
  let w := Sample.world (Sample.client (JStr "old-refresh") (Some "1200"))
             {[ ".env" := "FRESHBOOKS_REFRESH_TOKEN='old-refresh'" ]} in
  (atomic_save_tokens E (JStr "new-access") (JStr "new-refresh")
     (JNum (PFin 43200)) w).1 = Raise (OSError "No space left on device") /\
  store (atomic_save_tokens E (JStr "new-access") (JStr "new-refresh")
           (JNum (PFin 43200)) w).2
    = Some "FRESHBOOKS_REFRESH_TOKEN='old-refresh'".
Proof.
  intros E w.
  assert (Hrb : rollback_ok E (env_path (self w))) by (by split).
  pose proof (atomic_save_tokens_rollback E (JStr "new-access")
                (JStr "new-refresh") (JNum (PFin 43200)) w _ eq_refl Hrb) as H.
  assert (Hff : first_failure
                  (new_events w
                     (atomic_save_tokens E (JStr "new-access") (JStr "new-refresh")
                        (JNum (PFin 43200)) w).2)
                = Some (OSError "No space left on device"))
    by (vm_compute; reflexivity).
  destruct (atomic_save_tokens E _ _ _ w) as [r w'].
  destruct H as (H1 & _ & _).
  exact (H1 _ Hff).
Defined.

(** ** C2: memory is updated after the store *)

(** Either the client object is untouched, or it holds the new credentials
    and the trace of the call shows the three successful [set_key]s. *)
Lemma atomic_save_tokens_memory (E : Env) (a r ei : pyval) (w : World) :
  let (res, w') := atomic_save_tokens E a r ei w in
  self w' = self w \/
  exists x pre post,
    py_add_float (py_round E) (env_now E (trace w)) ei = Ok x /\
    self w' = update_credentials a r (py_str_float E x) (self w) /\
    new_events w w' =
      pre ++ store_writes (env_path (self w)) a r (py_str_float E x) ++ post /\
    Forall (fun ev => is_store_write ev = false) pre /\
    Forall (fun ev => is_store_write ev = false) post.
Proof.
  rewrite atomic_save_tokens_unfold. simpl.
  set (w0 := log (EvNow (env_now E (trace w))) w).
  set (env := env_path (self w)) in *.
  destruct (py_add_float _ _ ei) as [x|e0]; [|by left].
  pose proof (make_backup_cases E env w0) as Hb.
  destruct (make_backup E env (backup_of env) w0) as [[[]|e1] w1];
    destruct Hb as (evs1 & Ht1 & Hs1 & _ & Hnw1 & _); [|by left].
  pose proof (write_tokens_cases E env a r x w1) as Hw. simpl in Hw.
  destruct (write_tokens E env (backup_of env) a r x w1) as [[[]|e2] w2];
    destruct Hw as (evs2 & Ht2 & Hres2).
  { destruct Hres2 as (Hs2 & _ & _ & _ & post & Hevs & Hpost).
    right. exists x, (EvNow (env_now E (trace w)) :: evs1), post.
    repeat split; try done.
    - by rewrite Hs2, Hs1.
    - apply new_events_app. rewrite Ht2, Ht1, Hevs. simpl.
      by rewrite <- !app_assoc.
    - by constructor. }
  destruct Hres2 as (_ & _ & Hself2).
  pose proof (restore_backup_cases E env e2 w2) as Hr.
  destruct (restore_backup E env (backup_of env) e2 w2) as [res w3].
  destruct Hr as (evs3 & Ht3 & Hs3 & Hnw3 & _).
  destruct Hself2 as [Hs2|(Hs2 & post & Hevs & Hpost)].
  { left. by rewrite Hs3, Hs2, Hs1. }
  right. exists x, (EvNow (env_now E (trace w)) :: evs1), (post ++ evs3).
  repeat split; try done.
  - by rewrite Hs3, Hs2, Hs1.
  - apply new_events_app. rewrite Ht3, Ht2, Ht1, Hevs. simpl.
    by rewrite <- !app_assoc.
  - by constructor.
  - by apply Forall_app.
Qed.

Lemma store_write_not_failed ev :
  is_store_write ev = false -> failed_store_write ev = false.
Proof. by destruct ev as [| |[] []| | |]. Qed.

(** X25. In every run of [atomic_save_tokens], the client's credentials
    ([access_token], [refresh_token], [token_expires_at] and the
    [Authorization] header) are either untouched or updated after the three
    [set_key] calls on the store have succeeded: the trace of the call then
    contains the three successful writes.  In particular, if a [set_key] on
    the store failed, the client object is unchanged. *)
Theorem atomic_save_tokens_memory_after_store (E : Env) (a r ei : pyval)
    (w : World) :
  let (res, w') := atomic_save_tokens E a r ei w in
  (self w' = self w \/
   exists x pre post,
     py_add_float (py_round E) (env_now E (trace w)) ei = Ok x /\
     self w' = update_credentials a r (py_str_float E x) (self w) /\
     new_events w w' =
       pre ++ store_writes (env_path (self w)) a r (py_str_float E x) ++ post /\
     Forall (fun ev => is_store_write ev = false) pre /\
     Forall (fun ev => is_store_write ev = false) post) /\
  (forall ev, In ev (new_events w w') -> failed_store_write ev = true ->
     self w' = self w).
Proof.
  pose proof (atomic_save_tokens_memory E a r ei w) as H.
  destruct (atomic_save_tokens E a r ei w) as [res w'].
  split; [exact H|].
  intros ev Hin Hfail.
  destruct H as [H|(x & pre & post & _ & _ & Hevs & Hpre & Hpost)]; [done|].
  exfalso. rewrite Hevs in Hin.
  apply in_app_or in Hin as [Hin|Hin].
  { rewrite Forall_forall in Hpre. apply list_elem_of_In, Hpre in Hin.
    apply store_write_not_failed in Hin. congruence. }
  apply in_app_or in Hin as [Hin|Hin].
  { simpl in Hin. destruct Hin as [<-|[<-|[<-|[]]]]; discriminate. }
  rewrite Forall_forall in Hpost. apply list_elem_of_In, Hpost in Hin.
  apply store_write_not_failed in Hin. congruence.
Qed.

Example memory_untouched_when_write_fails :
  self (atomic_save_tokens (offline_env refresh_write_fails)
          (JStr "new-access") (JStr "new-refresh") (JNum (PFin 43200))
          (Sample.world (Sample.client (JStr "old-refresh") (Some "1200")) ∅)).2
  = Sample.client (JStr "old-refresh") (Some "1200").
Proof. vm_compute. reflexivity. Qed.

(** C2 fails on the code when something fails after the three [set_key]
    calls.  The client object is updated inside the [try], before the
    backup is removed.  When that removal is refused, the handler rewrites
    the store from the backup and the call raises: the client holds the new
    credentials and the store the old ones.  When the handler's rewrite
    fails too, a write to the store has failed and the client is changed
    all the same. *)
Theorem atomic_save_tokens_memory_ahead_of_store :
  let save E :=
    atomic_save_tokens (offline_env E) (JStr "new-access") (JStr "new-refresh")
      (JNum (PFin 43200)) fresh_world in
  ((save backup_removal_refused).1 = Raise (OSError "Permission denied") /\
   store (save backup_removal_refused).2 = store fresh_world /\
   access_token (self (save backup_removal_refused).2) = JStr "new-access" /\
   refresh_token (self (save backup_removal_refused).2) = JStr "new-refresh" /\
   headers (self (save backup_removal_refused).2) !! "Authorization"
     = Some (Bearer (JStr "new-access"))) /\
  (first_failed_write ".env"
     (new_events fresh_world (save removal_and_rewrite_fail).2)
     = Some (OSError "Input/output error") /\
   (save removal_and_rewrite_fail).1 = Raise (OSError "Input/output error") /\
   access_token (self (save removal_and_rewrite_fail).2) = JStr "new-access" /\
   refresh_token (self (save removal_and_rewrite_fail).2) = JStr "new-refresh").
Proof. vm_compute. repeat split; reflexivity. Qed.

(** What a successful [atomic_save_tokens] leaves behind. *)
Lemma atomic_save_tokens_ok (E : Env) (a r ei : pyval) (w w' : World) (u : unit) :
  atomic_save_tokens E a r ei w = (Ok u, w') ->
  exists x,
    py_add_float (py_round E) (env_now E (trace w)) ei = Ok x /\
    self w' = update_credentials a r (py_str_float E x) (self w) /\
    store w' = saved_store E a r (py_str_float E x) (store w) /\
    backup w' = None.
Proof.
  rewrite atomic_save_tokens_unfold. simpl. unfold store, backup.
  set (w0 := log (EvNow (env_now E (trace w))) w).
  set (env := env_path (self w)) in *.
  destruct (py_add_float _ _ ei) as [x|e0]; [|done].
  pose proof (make_backup_cases E env w0) as Hb.
  destruct (make_backup E env (backup_of env) w0) as [[[]|e1] w1];
    destruct Hb as (evs1 & Ht1 & Hs1 & Hfs1 & _ & _); [|done].
  pose proof (write_tokens_cases E env a r x w1) as Hw. simpl in Hw.
  destruct (write_tokens E env (backup_of env) a r x w1) as [[[]|e2] w2];
    destruct Hw as (evs2 & Ht2 & Hres2).
  - destruct Hres2 as (Hs2 & _ & Hbk2 & Hst2 & _).
    intros [= <- <-]. exists x. rewrite Hs2, Hs1. simpl. fold env.
    by rewrite Hst2, Hfs1, Hbk2.
  - destruct (restore_backup_raises E env (backup_of env) e2 w2)
      as (e' & w3 & ->).
    done.
Qed.

(** ** C6: the token response *)

(** C6. When the authorization server answers the refresh with status 200
    and a JSON object: if [access_token] or [refresh_token] is missing from
    it (or falsy), [refresh_access_token] raises [MalformedTokenResponse]
    and files (so the persisted store) and client are unchanged; if both are
    present, the pair and [expires_in] (43200 when absent) go to
    [atomic_save_tokens], and when that returns, client and store hold the
    new pair and the expiry [now + expires_in]. *)
Theorem refresh_token_response (E : Env) (w : World) (r : response)
    (items : list (string * pyval)) :
  truthy (refresh_token (self w)) = true ->
  auth_answer E w = NetResp r ->
  status_code r = 200%Z ->
  resp_json r = Ok (JObj items) ->
  let new_access := default JNull (assoc_get items "access_token") in
  let new_refresh := default JNull (assoc_get items "refresh_token") in
  let expires_in := default (JNum (PFin 43200)) (assoc_get items "expires_in") in
  (truthy new_access = false \/ truthy new_refresh = false ->
     let (res, w') := refresh_access_token E w in
     res = Raise MalformedTokenResponse /\
     fs w' = fs w /\ store w' = store w /\ self w' = self w) /\
  (truthy new_access = true -> truthy new_refresh = true ->
     refresh_access_token E w =
       (atomic_save_tokens E new_access new_refresh expires_in ;;;
        ret (JObj items)) (after_post E w) /\
     forall res w', refresh_access_token E w = (Ok res, w') ->
       res = JObj items /\
       exists expires_at,
         py_add_float (py_round E) (env_now E (trace (after_post E w))) expires_in
           = Ok expires_at /\
         self w' = update_credentials new_access new_refresh
                     (py_str_float E expires_at) (self w) /\
         store w' = saved_store E new_access new_refresh
                      (py_str_float E expires_at) (store w)).
Proof.
  intros Hrt Hans Hst Hjs new_access new_refresh expires_in.
  assert (Hrun : refresh_access_token E w =
            (if negb (truthy new_access) || negb (truthy new_refresh) then
               raise (ValueError MALFORMED_TOKEN_MSG)
             else
               atomic_save_tokens E new_access new_refresh expires_in ;;;
               ret (JObj items)) (after_post E w)).
  { rewrite refresh_access_token_unfold by done.
    unfold bind at 1. rewrite Hans. simpl.
    unfold bind at 1. rewrite Hst. simpl.
    unfold bind at 1. rewrite Hjs. simpl. reflexivity. }
  rewrite Hrun. clear Hrun. split.
  - intros [Ha|Hr]; rewrite ?Ha, ?Hr, ?orb_true_r; simpl; by repeat split.
  - intros Ha Hr. rewrite Ha, Hr. simpl. split; [reflexivity|].
    intros res w'. unfold bind.
    destruct (atomic_save_tokens E new_access new_refresh expires_in
                (after_post E w)) as [[u|e] w1] eqn:Hsave; [|done].
    intros [= <- <-]. split; [done|].
    apply atomic_save_tokens_ok in Hsave as (x & Hx & Hs & Hstore & _).
    exists x. by repeat split.
Qed.

(** A 200 answer without [refresh_token]. *)
Lemma refresh_token_response_witness :
  let w := Sample.world (Sample.client (JStr "old-refresh") (Some "1200"))
             {[ ".env" := "FRESHBOOKS_REFRESH_TOKEN='old-refresh'" ]} in
  let body := [("access_token", JStr "new-access")] in
  let r := Sample.json_response 200 (JObj body) in
  let E := Sample.env Sample.no_faults (fun _ _ _ => NetResp r)
             (fun _ _ => NetRaise (ConnectionError "")) in
  (refresh_access_token E w).1 = Raise MalformedTokenResponse /\
  store (refresh_access_token E w).2 = store w.
Proof.
  intros w body r E.
  destruct (refresh_token_response E w r body eq_refl eq_refl eq_refl eq_refl)
    as [H _].
  specialize (H (or_intror eq_refl)).
  destruct (refresh_access_token E w) as [res w'].
  split; apply H.
Defined.

(** C6 as stated fails for a 200 answer whose body is not a JSON object:
    for the body [null] the call [token_data.get] raises [AttributeError],
    and for a body that is not JSON [response.json()] raises its own
    error; neither is [MalformedTokenResponse]. *)
Lemma malformed_on_every_incomplete_answer_counterexample :
  ~ malformed_on_every_incomplete_answer
      (answering_env (Sample.json_response 200 JNull)) refreshing_world /\
  ~ malformed_on_every_incomplete_answer
      (answering_env (not_json 200)) refreshing_world.
Proof.
  split; intros H.
  - specialize (H (Sample.json_response 200 JNull) eq_refl eq_refl eq_refl
                  (or_introl eq_refl)).
    assert (Hrun : (refresh_access_token
                      (answering_env (Sample.json_response 200 JNull))
                      refreshing_world).1
                   = Raise (AttributeError "object has no attribute 'get'"))
      by (vm_compute; reflexivity).
    destruct (refresh_access_token _ refreshing_world) as [res w'].
    destruct H as [H _]. simpl in Hrun. rewrite H in Hrun. discriminate.
  - specialize (H (not_json 200) eq_refl eq_refl eq_refl (or_introl eq_refl)).
    assert (Hrun : (refresh_access_token (answering_env (not_json 200))
                      refreshing_world).1
                   = Raise (JSONDecodeError "Expecting value"))
      by (vm_compute; reflexivity).
    destruct (refresh_access_token _ refreshing_world) as [res w'].
    destruct H as [H _]. simpl in Hrun. rewrite H in Hrun. discriminate.
Qed.

(** ** C8: other answers of the authorization server *)

(** X26. When the authorization server answers the refresh with an HTTP
    error status (400 to 599) and a JSON object whose [error] is not
    ["invalid_grant"], [refresh_access_token] raises [AuthServerError] (the
    [HTTPError] of [raise_for_status], carrying the status) to its caller;
    files (so the persisted store) and client are unchanged. *)
Theorem refresh_auth_server_error (E : Env) (w : World) (r : response)
    (items : list (string * pyval)) :
  truthy (refresh_token (self w)) = true ->
  auth_answer E w = NetResp r ->
  is_error_status (status_code r) = true ->
  resp_json r = Ok (JObj items) ->
  py_eq_str (default JNull (assoc_get items "error")) "invalid_grant" = false ->
  let (res, w') := refresh_access_token E w in
  res = Raise (AuthServerError (status_code r)) /\
  fs w' = fs w /\ store w' = store w /\ self w' = self w.
Proof.
  intros Hrt Hans Hst Hjs Herr.
  rewrite refresh_access_token_unfold by done.
  unfold bind at 1. rewrite Hans. simpl.
  assert (Hne : (status_code r =? 200)%Z = false).
  { unfold is_error_status in Hst. apply Z.eqb_neq. intros Heq.
    rewrite Heq in Hst. discriminate. }
  unfold bind at 1. rewrite Hne. simpl.
  unfold bind at 1. rewrite Hjs. simpl.
  unfold bind at 1. simpl. rewrite Herr.
  unfold raise_for_status. rewrite Hst. simpl.
  by repeat split.
Qed.

(** A 503 answer. *)
Lemma refresh_auth_server_error_witness :
  let w := Sample.world (Sample.client (JStr "old-refresh") (Some "1200"))
             {[ ".env" := "FRESHBOOKS_REFRESH_TOKEN='old-refresh'" ]} in
  let body := [("error", JStr "server_error")] in
  let r := Sample.json_response 503 (JObj body) in
  let E := Sample.env Sample.no_faults (fun _ _ _ => NetResp r)
             (fun _ _ => NetRaise (ConnectionError "")) in
  (refresh_access_token E w).1 = Raise (AuthServerError 503) /\
  store (refresh_access_token E w).2 = store w.
Proof.
  intros w body r E.
  pose proof (refresh_auth_server_error E w r body eq_refl eq_refl eq_refl
                eq_refl eq_refl) as H.
  destruct (refresh_access_token E w) as [res w'].
  split; apply H.
Defined.

(** C8 fails on the code for answers that the branch [status_code != 200]
    lets through.  [raise_for_status] raises for 4xx and 5xx only, so an
    answer with another status falls through to the lines for a 200: a 201
    with tokens is saved as a success, and a 302 with an [error] other than
    ["invalid_grant"] ends in [MalformedTokenResponse].  And since the body
    is parsed before the status is looked at, a 502 whose body is not JSON
    raises the error of [json()].  None of the three is
    [AuthServerError]. *)
Theorem refresh_non_success_is_let_through :
  let refresh r := refresh_access_token (answering_env r) refreshing_world in
  ((refresh (Sample.json_response 201 Sample.tokens_body)).1
     = Ok Sample.tokens_body /\
   access_token (self (refresh (Sample.json_response 201 Sample.tokens_body)).2)
     = JStr "new-access" /\
   store (refresh (Sample.json_response 201 Sample.tokens_body)).2
     <> store refreshing_world) /\
  (refresh (Sample.json_response 302 (JObj [("error", JStr "server_error")]))).1
    = Raise MalformedTokenResponse /\
  (refresh (not_json 502)).1 = Raise (JSONDecodeError "Expecting value").
Proof.
  intros refresh.
  assert (H1 : (refresh (Sample.json_response 201 Sample.tokens_body)).1
               = Ok Sample.tokens_body) by (vm_compute; reflexivity).
  assert (H2 : access_token
                 (self (refresh (Sample.json_response 201 Sample.tokens_body)).2)
               = JStr "new-access") by (vm_compute; reflexivity).
  assert (H3 : store (refresh (Sample.json_response 201 Sample.tokens_body)).2
               <> store refreshing_world) by (vm_compute; discriminate).
  assert (H4 : (refresh (Sample.json_response 302
                           (JObj [("error", JStr "server_error")]))).1
               = Raise MalformedTokenResponse) by (vm_compute; reflexivity).
  assert (H5 : (refresh (not_json 502)).1
               = Raise (JSONDecodeError "Expecting value"))
    by (vm_compute; reflexivity).
  split; [split; [exact H1|split; [exact H2|exact H3]]|].
  split; [exact H4|exact H5].
Qed.

(** ** The request executor *)

(** A run of [refresh_access_token] adds its mark and then neither another
    mark nor a request to the API. *)
Lemma refresh_access_token_trace (E : Env) (w : World) :
  exists evs,
    trace (refresh_access_token E w).2 = trace w ++ EvRefresh :: evs /\
    Forall (fun ev => is_quiet ev = true) evs.
Proof.
  unfold refresh_access_token, bind at 1. simpl.
  match goal with
  | |- context [trace (?m (log EvRefresh w)).2] =>
      assert (Hm : adds is_quiet m)
  end.
  { repeat adds_step. }
  destruct (Hm (log EvRefresh w)) as (evs & Ht & Hq).
  exists evs. split; [|done].
  rewrite Ht. simpl. by rewrite <- app_assoc.
Qed.

Lemma refresh_access_token_counts (E : Env) (w : World) :
  count is_refresh (new_events w (refresh_access_token E w).2) = 1%nat /\
  count is_request (new_events w (refresh_access_token E w).2) = 0%nat.
Proof.
  destruct (refresh_access_token_trace E w) as (evs & Ht & Hq).
  rewrite (new_events_app _ _ _ Ht).
  change (EvRefresh :: evs) with ([EvRefresh] ++ evs).
  rewrite !count_app. split.
  - rewrite (count_none is_refresh evs); [done|].
    eapply Forall_impl; [exact Hq|]. by intros [| | | | |].
  - rewrite (count_none is_request evs); [done|].
    eapply Forall_impl; [exact Hq|]. by intros [| | | | |].
Qed.

Lemma memory_follows_store_save (E : Env) (a r ei : pyval) (w w0 : World)
    (evs0 : list event) :
  self w0 = self w ->
  trace w0 = trace w ++ evs0 ->
  memory_follows_store w (atomic_save_tokens E a r ei w0).2.
Proof.
  intros Hs Ht.
  pose proof (atomic_save_tokens_memory E a r ei w0) as H.
  destruct (atomic_save_tokens_adds E a r ei w0) as (evs & Hevs & _).
  destruct (atomic_save_tokens E a r ei w0) as [res w']. simpl in *.
  destruct H as [H|(x & pre & post & _ & Hself & Hnew & _)].
  { left. congruence. }
  right. exists a, r, (py_str_float E x), (evs0 ++ pre), post.
  split; [congruence|].
  rewrite (new_events_app _ _ _ Hevs) in Hnew.
  apply new_events_app. rewrite Hevs, Ht, Hnew, Hs.
  by rewrite <- !app_assoc.
Qed.

Lemma memory_follows_store_log (w w0 : World) (ev : event) :
  memory_follows_store w w0 -> memory_follows_store w (log ev w0).
Proof.
  intros [H|(a & r & s & pre & post & Hs & Hn)]; [by left|].
  right. exists a, r, s, pre, (post ++ [ev]). split; [done|].
  unfold new_events in *. simpl.
  rewrite drop_app_le.
  - rewrite Hn. by rewrite <- !app_assoc.
  - apply (f_equal length) in Hn. rewrite length_drop, !length_app in Hn.
    simpl in Hn. lia.
Qed.

Lemma refresh_access_token_memory (E : Env) (w : World) :
  memory_follows_store w (refresh_access_token E w).2.
Proof.
  destruct (truthy (refresh_token (self w))) eqn:Hrt.
  2:{ unfold refresh_access_token, bind at 1. simpl.
      unfold bind at 1. simpl. rewrite Hrt. by left. }
  rewrite refresh_access_token_unfold by done.
  assert (Htail : forall r,
    memory_follows_store w
      ((token_data <- lift (resp_json r) ;;
        new_access <- lift (py_get token_data "access_token" JNull) ;;
        new_refresh <- lift (py_get token_data "refresh_token" JNull) ;;
        expires_in <- lift (py_get token_data "expires_in" (JNum (PFin 43200))) ;;
        if negb (truthy new_access) || negb (truthy new_refresh) then
          raise (ValueError MALFORMED_TOKEN_MSG)
        else
          atomic_save_tokens E new_access new_refresh expires_in ;;;
          ret token_data) (after_post E w)).2).
  { intros r. unfold bind at 1.
    destruct (resp_json r) as [j|e]; simpl; [|by left].
    unfold bind at 1. destruct (py_get j "access_token" JNull) as [a|e];
      simpl; [|by left].
    unfold bind at 1. destruct (py_get j "refresh_token" JNull) as [rf|e];
      simpl; [|by left].
    unfold bind at 1. destruct (py_get j "expires_in" _) as [ei|e];
      simpl; [|by left].
    destruct (negb (truthy a) || negb (truthy rf)); simpl; [by left|].
    unfold bind.
    pose proof (memory_follows_store_save E a rf ei w (after_post E w)
                  _ eq_refl ltac:(simpl; rewrite <- !app_assoc; reflexivity))
      as H.
    by destruct (atomic_save_tokens E a rf ei (after_post E w)) as [[u|e] w']. }
  unfold bind at 1. destruct (auth_answer E w) as [e|r]; simpl; [by left|].
  specialize (Htail r).
  unfold bind at 1.
  destruct (negb (status_code r =? 200)%Z); simpl; [|exact Htail].
  unfold bind at 1. destruct (resp_json r) as [j|e] eqn:Hj; simpl; [|by left].
  unfold bind at 1. destruct (py_get j "error" JNull) as [err|e]; simpl;
    [|by left].
  destruct (py_eq_str err "invalid_grant"); simpl; [by left|].
  unfold raise_for_status.
  destruct (is_error_status (status_code r)); simpl; [by left|].
  exact Htail.
Qed.

Lemma memory_follows_store_from (w w0 w' : World) (evs0 : list event) :
  self w0 = self w ->
  trace w0 = trace w ++ evs0 ->
  (exists evs, trace w' = trace w0 ++ evs) ->
  memory_follows_store w0 w' -> memory_follows_store w w'.
Proof.
  intros Hs Ht (evs & Hevs) [H|(a & r & s & pre & post & Hself & Hn)].
  { left. congruence. }
  right. exists a, r, s, (evs0 ++ pre), post. split; [congruence|].
  rewrite (new_events_app _ _ _ Hevs) in Hn.
  apply new_events_app. rewrite Hevs, Ht, Hn, Hs. by rewrite <- !app_assoc.
Qed.

Lemma surfaced_200 r : status_code r = 200%Z -> surfaced r = resp_json r.
Proof. unfold surfaced. by intros ->. Qed.

Lemma finish_surfaced r w :
  (raise_for_status r ;;; lift (resp_json r)) w = (surfaced r, w).
Proof.
  unfold bind, raise_for_status, surfaced, lift.
  by destruct (is_error_status (status_code r)).
Qed.

(** The refresh before the call never raises. *)
Lemma proactive_refresh_returns (E : Env) (w : World) :
  proactive_refresh E w = (Ok tt, after_proactive_refresh E w).
Proof.
  unfold proactive_refresh, after_proactive_refresh, bind at 1.
  destruct (is_token_expired_returns E w) as (b & w1 & -> & _).
  destruct b; [|done].
  unfold bind at 1, print. simpl. unfold try_except, bind.
  by destruct (refresh_access_token E _) as [[j|e] w3].
Qed.

Lemma _make_request_unfold (E : Env) method endpoint data params w :
  _make_request E method endpoint data params w =
    request_with_retry E method (base_url (self w) +:+ endpoint) data params
      (after_proactive_refresh E w).
Proof.
  unfold _make_request, bind at 1. simpl.
  unfold bind at 1. by rewrite proactive_refresh_returns.
Qed.

(** [request_with_retry], case by case. *)
Lemma request_with_retry_unfold (E : Env) method url data params w :
  request_with_retry E method url data params w =
    let req0 := the_request method url data params w in
    let out0 := env_request E (trace w) req0 in
    let w1 := log (EvRequest req0 out0) w in
    match out0 with
    | NetRaise e => (Raise e, w1)
    | NetResp r0 =>
        if (status_code r0 =? 401)%Z then
          let w2 := log (EvPrint "Got 401 Unauthorized, attempting token refresh..."
                           PNone) w1 in
          match refresh_access_token E w2 with
          | (Raise e, w3) =>
              (Raise e, log (EvPrint (refresh_failure_text e) (PExn e)) w3)
          | (Ok _, w3) =>
              let req1 := the_request method url data params w3 in
              let out1 := env_request E (trace w3) req1 in
              let w4 := log (EvRequest req1 out1) w3 in
              match out1 with
              | NetRaise e =>
                  (Raise e, log (EvPrint (refresh_failure_text e) (PExn e)) w4)
              | NetResp r1 => (surfaced r1, w4)
              end
          end
        else (surfaced r0, w1)
    end.
Proof.
  assert (Hfin : forall r w',
            (let (r1, w1) := raise_for_status r w' in
             match r1 with
             | Ok _ => lift (resp_json r) w1
             | Raise e => (Raise e, w1)
             end) = (surfaced r, w')).
  { intros r w'. unfold raise_for_status, surfaced, lift, raise, ret.
    by destruct (is_error_status (status_code r)). }
  unfold request_with_retry, build_request, requests_request, try_except,
    bind, print, gets, ret, raise. simpl.
  fold (the_request method url data params w).
  destruct (env_request E (trace w) _) as [e|r0]; simpl; [done|].
  destruct (status_code r0 =? 401)%Z; simpl; [|apply Hfin].
  destruct (refresh_access_token E _) as [[j|e] w3]; simpl.
  2:{ unfold refresh_failure_text. by destruct (is_ValueError e). }
  fold (the_request method url data params w3).
  destruct (env_request E (trace w3) _) as [e|r1]; simpl; [|apply Hfin].
  unfold refresh_failure_text. by destruct (is_ValueError e).
Qed.

Lemma count_quiet evs :
  Forall (fun ev => is_quiet ev = true) evs ->
  count is_refresh evs = 0%nat /\ count is_request evs = 0%nat.
Proof.
  intros Hq. split; apply count_none; (eapply Forall_impl; [exact Hq|]);
    by intros [| | | | |].
Qed.

Lemma count_cons p ev evs :
  count p (ev :: evs) = ((if p ev then 1 else 0) + count p evs)%nat.
Proof. unfold count. simpl. by destruct (p ev). Qed.

Lemma is_token_expired_trace (E : Env) (w : World) :
  exists evs,
    trace (is_token_expired E w).2 = trace w ++ evs /\
    Forall (fun ev => is_local ev = true) evs.
Proof. apply is_token_expired_adds. Qed.

Lemma count_local evs :
  Forall (fun ev => is_local ev = true) evs ->
  count is_refresh evs = 0%nat /\ count is_request evs = 0%nat.
Proof.
  intros Hq. split; apply count_none; (eapply Forall_impl; [exact Hq|]);
    by intros [| | | | |].
Qed.

(** The first thing [request_with_retry] does is to issue the request. *)
Lemma request_with_retry_first (E : Env) method url data params w :
  let req := the_request method url data params w in
  exists rest,
    trace (request_with_retry E method url data params w).2 =
      trace w ++ EvRequest req (env_request E (trace w) req) :: rest.
Proof.
  intros req. rewrite request_with_retry_unfold. simpl. fold req.
  destruct (env_request E (trace w) req) as [e|r0]; simpl.
  { by exists []. }
  destruct (status_code r0 =? 401)%Z; simpl; [|by exists []].
  set (w4 := log (EvPrint _ PNone) _).
  destruct (refresh_access_token_trace E w4) as (evs' & Ht' & _).
  destruct (refresh_access_token E w4) as [[j|e] w5]; simpl in Ht'.
  - destruct (env_request E (trace w5) _) as [e|r1]; simpl;
      rewrite Ht'; simpl; rewrite <- !app_assoc; simpl; by eexists.
  - simpl. rewrite Ht'. simpl. rewrite <- !app_assoc. simpl. by eexists.
Qed.

Lemma after_proactive_refresh_trace (E : Env) (w : World) :
  exists pre, trace (after_proactive_refresh E w) = trace w ++ pre.
Proof.
  assert (Hadds : adds any_event (proactive_refresh E)).
  { unfold proactive_refresh, is_token_expired, refresh_access_token.
    repeat adds_step. apply (adds_log any_event (fun _ => (Ok tt, EvRefresh))).
    done. }
  destruct (Hadds w) as (pre & Ht & _).
  rewrite proactive_refresh_returns in Ht. by exists pre.
Qed.

(** What the refresh before the call adds to the trace: never a request,
    and no refresh attempt when the token is not expired. *)
Lemma after_proactive_refresh_events (E : Env) (w : World) :
  exists pre,
    trace (after_proactive_refresh E w) = trace w ++ pre /\
    count is_request pre = 0%nat /\
    ((is_token_expired E w).1 = Ok false -> count is_refresh pre = 0%nat).
Proof.
  unfold after_proactive_refresh.
  destruct (is_token_expired_trace E w) as (evs1 & Ht1 & Hl1).
  destruct (count_local evs1 Hl1) as [Hc1 Hc2].
  destruct (is_token_expired E w) as [[[|]|e] w1]; simpl in *;
    try (exists evs1; by repeat split).
  set (w2 := log (EvPrint _ PNone) w1).
  destruct (refresh_access_token_trace E w2) as (evs & Ht & Hq).
  destruct (count_quiet evs Hq) as [Hq1 Hq2].
  destruct (refresh_access_token E w2) as [[j|e] w3]; simpl in Ht.
  - exists (evs1 ++ EvPrint "Access token expired or expiring soon, refreshing..."
                      PNone :: EvRefresh :: evs).
    rewrite Ht. simpl. rewrite Ht1, <- !app_assoc.
    rewrite !count_app, !count_cons, Hc2, Hq2. by repeat split.
  - exists (evs1 ++ EvPrint "Access token expired or expiring soon, refreshing..."
                      PNone :: EvRefresh :: evs ++
                    [EvPrint "Token refresh failed: " (PExn e)]).
    simpl. rewrite Ht. simpl. rewrite Ht1, <- !app_assoc.
    rewrite !count_app, !count_cons, !count_app, Hc2, Hq2. by repeat split.
Qed.

(** The events of a run, split at the first request. *)
Lemma new_events_split (w wp w' : World) (ev : event) (pre evs : list event) :
  trace wp = trace w ++ pre ->
  trace w' = trace (log ev wp) ++ evs ->
  new_events w w' = new_events w wp ++ ev :: new_events (log ev wp) w'.
Proof.
  intros Hp Hw.
  rewrite (new_events_app _ _ _ Hp), (new_events_app _ _ _ Hw).
  apply new_events_app. rewrite Hw. simpl. rewrite Hp.
  by rewrite <- !app_assoc.
Qed.

(** ** C3: one refresh and one retry after a 401 *)

(** C3. Let [wp] be the world in which [_make_request] issues its call
    and let that call get a response [r0].  The run consists of what came
    before the call (no request, and no refresh attempt unless the token
    was expired), the call, and what follows.  If the status of [r0] is
    401, there is exactly one refresh attempt after it; when the refresh
    raises, [_make_request] raises the same error and issues no further
    request; when it returns, the same request is issued once more, with
    the headers the client has then, and the result is that of the retry:
    its [json()] when the status is 200 (or any status that is no error),
    an [HTTPError] with the status of the retry when that is an error
    status, 401 included, with no further retry.  If the status of [r0] is
    not 401, nothing follows the call and an error status is raised as the
    [HTTPError] of that status. *)
Theorem retry_once_on_401 (E : Env) (method endpoint : string)
    (data params : option pyval) (w : World) (r0 : response) :
  let url := base_url (self w) +:+ endpoint in
  let wp := after_proactive_refresh E w in
  let req0 := the_request method url data params wp in
  env_request E (trace wp) req0 = NetResp r0 ->
  let w1 := log (EvRequest req0 (NetResp r0)) wp in
  let (res, w') := _make_request E method endpoint data params w in
  new_events w w' =
    new_events w wp ++ EvRequest req0 (NetResp r0) :: new_events w1 w' /\
  count is_request (new_events w wp) = 0%nat /\
  ((is_token_expired E w).1 = Ok false ->
     count is_refresh (new_events w wp) = 0%nat) /\
  if (status_code r0 =? 401)%Z then
    let w2 := log (EvPrint "Got 401 Unauthorized, attempting token refresh..."
                     PNone) w1 in
    let (rr, w3) := refresh_access_token E w2 in
    count is_refresh (new_events w1 w') = 1%nat /\
    match rr with
    | Raise e =>
        res = Raise e /\ count is_request (new_events w1 w') = 0%nat
    | Ok _ =>
        let req1 := the_request method url data params w3 in
        let out1 := env_request E (trace w3) req1 in
        count is_request (new_events w1 w') = 1%nat /\
        In (EvRequest req1 out1) (new_events w1 w') /\
        res = match out1 with
              | NetResp r1 => surfaced r1
              | NetRaise e => Raise e
              end /\
        (forall r1, out1 = NetResp r1 -> status_code r1 = 200%Z ->
           res = resp_json r1) /\
        (forall r1, out1 = NetResp r1 ->
           is_error_status (status_code r1) = true ->
           res = Raise (HTTPError (status_code r1)))
    end
  else
    new_events w1 w' = [] /\ res = surfaced r0 /\
    (is_error_status (status_code r0) = true ->
       res = Raise (HTTPError (status_code r0))).
Proof.
  intros url wp req0 Hresp w1.
  destruct (after_proactive_refresh_events E w) as (pre & Hpre & Hpq & Hpr).
  fold wp in Hpre.
  rewrite <- (new_events_app w wp pre Hpre) in Hpq, Hpr.
  rewrite _make_request_unfold, request_with_retry_unfold. simpl.
  fold url wp req0. rewrite Hresp. fold w1.
  destruct (status_code r0 =? 401)%Z.
  2:{ split; [|split; [exact Hpq|split; [exact Hpr|]]].
      - eapply new_events_split; [exact Hpre|]. by rewrite app_nil_r.
      - rewrite new_events_refl. repeat split; try done.
        unfold surfaced. by intros ->. }
  set (w2 := log (EvPrint _ PNone) w1).
  destruct (refresh_access_token_trace E w2) as (evs & Ht & Hq).
  destruct (count_quiet evs Hq) as [Hc1 Hc2].
  destruct (refresh_access_token E w2) as [[j|e] w3]; simpl in Ht.
  2:{ assert (Htr : trace (log (EvPrint (refresh_failure_text e) (PExn e)) w3)
                    = trace w1 ++
                      EvPrint "Got 401 Unauthorized, attempting token refresh..."
                        PNone
                      :: EvRefresh :: evs ++
                      [EvPrint (refresh_failure_text e) (PExn e)])
        by (simpl; rewrite Ht; simpl; by rewrite <- !app_assoc).
      split; [|split; [exact Hpq|split; [exact Hpr|]]].
      - eapply new_events_split; [exact Hpre|exact Htr].
      - rewrite (new_events_app _ _ _ Htr).
        rewrite !count_cons, !count_app, Hc1, Hc2. by repeat split. }
  set (req1 := the_request method url data params w3).
  destruct (env_request E (trace w3) req1) as [e|r1] eqn:Hout.
  - assert (Htr : trace (log (EvPrint (refresh_failure_text e) (PExn e))
                           (log (EvRequest req1 (NetRaise e)) w3))
                  = trace w1 ++
                    EvPrint "Got 401 Unauthorized, attempting token refresh..."
                      PNone
                    :: EvRefresh :: evs ++
                    [EvRequest req1 (NetRaise e);
                     EvPrint (refresh_failure_text e) (PExn e)])
      by (simpl; rewrite Ht; simpl; by rewrite <- !app_assoc).
    split; [|split; [exact Hpq|split; [exact Hpr|]]].
    + eapply new_events_split; [exact Hpre|exact Htr].
    + rewrite (new_events_app _ _ _ Htr).
      rewrite !count_cons, !count_app, Hc1, Hc2. repeat split; try done.
      right. right. apply in_or_app. right. by left.
  - assert (Htr : trace (log (EvRequest req1 (NetResp r1)) w3)
                  = trace w1 ++
                    EvPrint "Got 401 Unauthorized, attempting token refresh..."
                      PNone
                    :: EvRefresh :: evs ++ [EvRequest req1 (NetResp r1)])
      by (simpl; rewrite Ht; simpl; by rewrite <- !app_assoc).
    split; [|split; [exact Hpq|split; [exact Hpr|]]].
    + eapply new_events_split; [exact Hpre|exact Htr].
    + rewrite (new_events_app _ _ _ Htr).
      rewrite !count_cons, !count_app, Hc1, Hc2. repeat split; try done.
      * right. right. apply in_or_app. right. by left.
      * intros r [= <-]. apply surfaced_200.
      * intros r [= <-] Herr. unfold surfaced. by rewrite Herr.
Qed.

Example unauthorized_then_ok :
  (_make_request granting_env "GET" "/x" None None fresh_world).1
  = Ok (JObj [("response", JStr "ok")]).
Proof. vm_compute. reflexivity. Qed.

Example unauthorized_then_ok_counts :
  let w' := (_make_request granting_env "GET" "/x" None None fresh_world).2 in
  count is_refresh (trace w') = 1%nat /\ count is_request (trace w') = 2%nat /\
  headers (self w') !! "Authorization" = Some (Bearer (JStr "new-access")).
Proof. vm_compute. repeat split; reflexivity. Qed.

(** A 401, a successful refresh, a 200. *)
Lemma retry_once_on_401_witness :
  let E := granting_env in
  let w := fresh_world in
  let r0 := Sample.json_response 401 (JObj [("error", JStr "unauthorized")]) in
  let wp := after_proactive_refresh E w in
  let req0 := the_request "GET" (base_url (self w) +:+ "/x") None None wp in
  let w' := (_make_request E "GET" "/x" None None w).2 in
  env_request E (trace wp) req0 = NetResp r0 /\
  count is_refresh (new_events (log (EvRequest req0 (NetResp r0)) wp) w') = 1%nat.
Proof.
  intros E w r0 wp req0 w'.
  assert (Hresp : env_request E (trace wp) req0 = NetResp r0)
    by (vm_compute; reflexivity).
  split; [exact Hresp|].
  pose proof (retry_once_on_401 E "GET" "/x" None None w r0 Hresp) as H.
  subst w'. destruct (_make_request E "GET" "/x" None None w) as [res w'].
  destruct H as (_ & _ & _ & H). simpl in H.
  destruct (refresh_access_token E _) as [rr w3]. apply H.
Defined.

(** ** C9: the refresh before the call *)

(** X27. When [is_token_expired] answers [true], [_make_request] makes
    exactly one refresh attempt and no request before it issues its call.
    The refresh before the call never raises: if [refresh_access_token]
    raises [e], the line "Token refresh failed: e" is printed and the call
    is issued all the same, with the headers of the client object as they
    are; these hold the credentials from before the call, unless the three
    writes of the store had already succeeded when the refresh failed. *)
Theorem proactive_refresh_failure_is_swallowed (E : Env)
    (method endpoint : string) (data params : option pyval) (w w1 : World) :
  is_token_expired E w = (Ok true, w1) ->
  let w2 := log (EvPrint "Access token expired or expiring soon, refreshing..."
                   PNone) w1 in
  let wp := after_proactive_refresh E w in
  let url := base_url (self w) +:+ endpoint in
  let req := the_request method url data params wp in
  proactive_refresh E w = (Ok tt, wp) /\
  count is_refresh (new_events w wp) = 1%nat /\
  count is_request (new_events w wp) = 0%nat /\
  _make_request E method endpoint data params w =
    request_with_retry E method url data params wp /\
  (exists rest,
     trace (_make_request E method endpoint data params w).2 =
       trace wp ++ EvRequest req (env_request E (trace wp) req) :: rest) /\
  (forall e w3, refresh_access_token E w2 = (Raise e, w3) ->
     wp = log (EvPrint "Token refresh failed: " (PExn e)) w3 /\
     memory_follows_store w wp).
Proof.
  intros Hexp w2 wp url req.
  destruct (is_token_expired_trace E w) as (evs1 & Ht1 & Hl1).
  destruct (is_token_expired_returns E w) as (b & w1' & Hrun & Hself1).
  rewrite Hexp in Ht1, Hrun. simpl in Ht1. injection Hrun as <- <-.
  destruct (count_local evs1 Hl1) as [Hc1 Hc2].
  destruct (refresh_access_token_trace E w2) as (evs & Ht & Hq).
  destruct (count_quiet evs Hq) as [Hq1 Hq2].
  pose proof (refresh_access_token_memory E w2) as Hmem.
  assert (Hwp : wp = match refresh_access_token E w2 with
                     | (Ok _, w3) => w3
                     | (Raise e, w3) =>
                         log (EvPrint "Token refresh failed: " (PExn e)) w3
                     end).
  { unfold wp, after_proactive_refresh. by rewrite Hexp. }
  split; [apply proactive_refresh_returns|].
  assert (Hpre : exists tail,
            trace wp = trace w ++ evs1 ++
              EvPrint "Access token expired or expiring soon, refreshing..." PNone
              :: EvRefresh :: evs ++ tail /\
            count is_refresh tail = 0%nat /\ count is_request tail = 0%nat).
  { rewrite Hwp. destruct (refresh_access_token E w2) as [[j|e] w3];
      simpl in Ht.
    - exists []. rewrite Ht. simpl. rewrite Ht1, app_nil_r.
      by rewrite <- !app_assoc.
    - exists [EvPrint "Token refresh failed: " (PExn e)].
      simpl. rewrite Ht. simpl. rewrite Ht1. by rewrite <- !app_assoc. }
  destruct Hpre as (tail & Htr & Ht1' & Ht2').
  rewrite (new_events_app _ _ _ Htr).
  rewrite !count_app, !count_cons, !count_app, Hc1, Hc2, Hq1, Hq2, Ht1', Ht2'.
  repeat split; try done.
  - apply _make_request_unfold.
  - rewrite _make_request_unfold. apply request_with_retry_first.
  - rewrite Hwp. by rewrite H.
  - rewrite Hwp, H. apply memory_follows_store_log.
    rewrite H in Hmem, Ht. simpl in Hmem, Ht.
    eapply (memory_follows_store_from w w2 w3 (evs1 ++ [_])).
    + done.
    + simpl. rewrite Ht1. by rewrite <- app_assoc.
    + by eexists.
    + exact Hmem.
Qed.

Example stale_token_call_proceeds :
  let run := _make_request auth_down_env "GET" "/x" None None stale_world in
  run.1 = Ok (JObj [("response", JStr "ok")]) /\
  count is_refresh (trace run.2) = 1%nat /\
  count is_request (trace run.2) = 1%nat /\
  self run.2 = self stale_world.
Proof. vm_compute. repeat split; reflexivity. Qed.

(** An expired token and an authorization server that is down. *)
Lemma proactive_refresh_failure_is_swallowed_witness :
  let E := auth_down_env in
  let w := stale_world in
  let w1 := (is_token_expired E w).2 in
  let wp := after_proactive_refresh E w in
  is_token_expired E w = (Ok true, w1) /\
  proactive_refresh E w = (Ok tt, wp) /\
  count is_refresh (new_events w wp) = 1%nat /\
  count is_request (new_events w wp) = 0%nat.
Proof.
  intros E w w1 wp.
  assert (Hexp : is_token_expired E w = (Ok true, w1))
    by (vm_compute; reflexivity).
  split; [exact Hexp|].
  destruct (proactive_refresh_failure_is_swallowed E "GET" "/x" None None
              w w1 Hexp) as (H1 & H2 & H3 & _).
  by repeat split.
Defined.

(** C9 fails on the code when the refresh before the call fails only
    after it has saved the tokens.  With an expired token, an authorization
    server that grants new tokens and a backup that cannot be removed,
    [atomic_save_tokens] has updated the client object when the removal
    fails; the refresh raises, "Token refresh failed" is printed, and the
    call goes out once, with the new access token in its header and not the
    one from before the call, while the store holds the old tokens. *)
Theorem proactive_refresh_failure_changes_the_token :
  let run := _make_request cleanup_failing_env "GET" "/x" None None stale_world in
  (is_token_expired cleanup_failing_env stale_world).1 = Ok true /\
  In (EvPrint "Token refresh failed: " (PExn (OSError "Permission denied")))
    (trace run.2) /\
  run.1 = Ok (JObj [("response", JStr "ok")]) /\
  count is_refresh (trace run.2) = 1%nat /\
  count is_request (trace run.2) = 1%nat /\
  requests_carry (JStr "new-access") (trace run.2) /\
  access_token (self stale_world) = JStr "old-access" /\
  store run.2 = store stale_world.
Proof.
  intros run.
  assert (Htr : exists evs, trace run.2 = evs /\
                 In (EvPrint "Token refresh failed: "
                       (PExn (OSError "Permission denied"))) evs /\
                 count is_refresh evs = 1%nat /\
                 count is_request evs = 1%nat /\
                 requests_carry (JStr "new-access") evs).
  { eexists. split; [vm_compute; reflexivity|]. split.
    { repeat (first [left; reflexivity | right]). }
    split; [reflexivity|]. split; [reflexivity|].
    unfold requests_carry. repeat constructor. }
  destruct Htr as (evs & -> & Hin & Hc1 & Hc2 & Hreq).
  split; [reflexivity|]. split; [exact Hin|].
  split; [vm_compute; reflexivity|]. split; [exact Hc1|]. split; [exact Hc2|].
  split; [exact Hreq|]. split; [reflexivity|]. vm_compute. reflexivity.
Qed.

(** ** C10: sending an invoice needs approval *)

(** C10. For every [invoice_id]: with a falsy [humanApproved], and so with
    the default [False], [send_invoice] raises the [ValueError] that asks
    for explicit human approval and does nothing else, so no request is
    sent; with a truthy [humanApproved] it is the [PUT] of
    [{"invoice": {"action_email": true}}] to the invoice's endpoint through
    [_make_request], and that request is issued.  Hence a run of
    [send_invoice] that touched the network had a truthy [humanApproved]. *)
Theorem send_invoice_requires_approval (E : Env) (invoice_id : string)
    (humanApproved : pyval) (w : World) :
  let endpoint := "/accounting/account/" +:+ account_id (self w) +:+
                  "/invoices/invoices/" +:+ invoice_id in
  let data := JObj [("invoice", JObj [("action_email", JBool true)])] in
  (truthy humanApproved = false ->
     send_invoice E invoice_id humanApproved w
       = (Raise (ValueError SAFETY_CHECK_MSG), w)) /\
  send_invoice_default E invoice_id w = (Raise (ValueError SAFETY_CHECK_MSG), w) /\
  contains "explicit human approval" SAFETY_CHECK_MSG = true /\
  (truthy humanApproved = true ->
     send_invoice E invoice_id humanApproved w
       = _make_request E "PUT" endpoint (Some data) None w /\
     exists req out,
       In (EvRequest req out)
          (new_events w (send_invoice E invoice_id humanApproved w).2) /\
       req_method req = "PUT" /\
       req_url req = base_url (self w) +:+ endpoint /\
       req_json req = Some data) /\
  (count is_network
     (new_events w (send_invoice E invoice_id humanApproved w).2) <> 0%nat ->
   truthy humanApproved = true).
Proof.
  intros endpoint data.
  assert (Hno : truthy humanApproved = false ->
                send_invoice E invoice_id humanApproved w
                  = (Raise (ValueError SAFETY_CHECK_MSG), w)).
  { intros Hf. unfold send_invoice. by rewrite Hf. }
  assert (Hyes : truthy humanApproved = true ->
                 send_invoice E invoice_id humanApproved w
                   = _make_request E "PUT" endpoint (Some data) None w).
  { intros Ht. unfold send_invoice. by rewrite Ht. }
  split; [exact Hno|]. split; [reflexivity|]. split; [by vm_compute|].
  split.
  - intros Ht. split; [by apply Hyes|]. rewrite (Hyes Ht).
    rewrite _make_request_unfold.
    destruct (after_proactive_refresh_trace E w) as (pre & Hpre).
    destruct (request_with_retry_first E "PUT"
                (base_url (self w) +:+ endpoint) (Some data) None
                (after_proactive_refresh E w)) as (rest & Hrest).
    set (req := the_request "PUT" _ _ _ _) in Hrest.
    exists req, (env_request E (trace (after_proactive_refresh E w)) req).
    split; [|by repeat split].
    set (out := env_request E _ req) in *.
    rewrite (new_events_app w _ (pre ++ EvRequest req out :: rest))
      by (rewrite Hrest, Hpre; by rewrite <- app_assoc).
    apply in_or_app. right. by left.
  - intros Hnet. destruct (truthy humanApproved) eqn:Ht; [done|].
    rewrite (Hno eq_refl) in Hnet. simpl in Hnet.
    by rewrite new_events_refl in Hnet.
Qed.

Example send_invoice_unapproved :
  send_invoice granting_env "00000835" (JBool false) fresh_world
  = (Raise (ValueError SAFETY_CHECK_MSG), fresh_world).
Proof. reflexivity. Qed.

(** * More of the client *)

(** ** What the methods keep *)

Section Keeps.

Variable I : Client -> Prop.

Lemma keeps_same_self {A} (m : M A) :
  (forall w, self (m w).2 = self w) -> keeps I m.
Proof. intros H w Hw. by rewrite H. Qed.

Lemma keeps_ret {A} (a : A) : keeps I (ret a).
Proof. by apply keeps_same_self. Qed.

Lemma keeps_raise {A} e : keeps I (@raise A e).
Proof. by apply keeps_same_self. Qed.

Lemma keeps_lift {A} (r : result A) : keeps I (lift r).
Proof. by apply keeps_same_self. Qed.

Lemma keeps_gets {A} (f : Client -> A) : keeps I (gets f).
Proof. by apply keeps_same_self. Qed.

Lemma keeps_path_exists path : keeps I (path_exists path).
Proof. by apply keeps_same_self. Qed.

Lemma keeps_print text arg : keeps I (print text arg).
Proof. by apply keeps_same_self. Qed.

Lemma keeps_now E : keeps I (now E).
Proof. by apply keeps_same_self. Qed.

Lemma keeps_read_file E path : keeps I (read_file E path).
Proof.
  apply keeps_same_self. intros w. unfold read_file.
  destruct (env_fault E _ _); [done|]. by destruct (fs w !! path).
Qed.

Lemma keeps_write_file E path content : keeps I (write_file E path content).
Proof.
  apply keeps_same_self. intros w. unfold write_file.
  by destruct (env_fault E _ _).
Qed.

Lemma keeps_set_key E path key value : keeps I (set_key E path key value).
Proof.
  apply keeps_same_self. intros w. unfold set_key.
  by destruct (env_fault E _ _).
Qed.

Lemma keeps_remove_file E path : keeps I (remove_file E path).
Proof.
  apply keeps_same_self. intros w. unfold remove_file.
  destruct (env_fault E _ _); [done|]. by destruct (fs w !! path).
Qed.

Lemma keeps_requests_post E url form : keeps I (requests_post E url form).
Proof. by apply keeps_same_self. Qed.

Lemma keeps_requests_request E req : keeps I (requests_request E req).
Proof. by apply keeps_same_self. Qed.

Lemma keeps_raise_for_status r : keeps I (raise_for_status r).
Proof.
  apply keeps_same_self. intros w. unfold raise_for_status.
  by destruct (is_error_status _).
Qed.

Lemma keeps_mark : keeps I (fun w => (Ok tt, log EvRefresh w)).
Proof. by apply keeps_same_self. Qed.

Lemma keeps_set_credentials a r s :
  (forall c, I c -> I (update_credentials a r s c)) ->
  keeps I (set_credentials a r s).
Proof. intros I_update w Hw. simpl. by apply I_update. Qed.

Lemma keeps_bind {A B} (m : M A) (k : A -> M B) :
  keeps I m -> (forall a, keeps I (k a)) -> keeps I (bind m k).
Proof.
  intros Hm Hk w Hw. unfold bind. specialize (Hm w Hw).
  destruct (m w) as [[a|e] w1]; simpl in *; [|done].
  by apply Hk.
Qed.

Lemma keeps_try {A} (m : M A) (h : exn -> M A) :
  keeps I m -> (forall e, keeps I (h e)) -> keeps I (try_except m h).
Proof.
  intros Hm Hh w Hw. unfold try_except. specialize (Hm w Hw).
  destruct (m w) as [[a|e] w1]; simpl in *; [done|].
  by apply Hh.
Qed.

End Keeps.

Ltac keeps_step :=
  first
    [ apply keeps_ret | apply keeps_raise | apply keeps_lift | apply keeps_gets
    | apply keeps_path_exists | apply keeps_print | apply keeps_now
    | apply keeps_read_file | apply keeps_write_file | apply keeps_set_key
    | apply keeps_remove_file | apply keeps_requests_post
    | apply keeps_requests_request | apply keeps_raise_for_status
    | apply keeps_mark
    | apply keeps_set_credentials; solve [auto]
    | apply keeps_bind; [|intros ?]
    | apply keeps_try; [|intros ?]
    | match goal with
      | |- keeps _ (if ?b then _ else _) => destruct b
      | |- keeps _ (match ?x with _ => _ end) => destruct x
      end ].

Section KeepsMethods.

Variable E : Env.
Variable I : Client -> Prop.
Hypothesis I_update : forall a r s c, I c -> I (update_credentials a r s c).

Lemma keeps_atomic_save_tokens a r ei : keeps I (atomic_save_tokens E a r ei).
Proof.
  unfold atomic_save_tokens, make_backup, write_tokens, restore_backup.
  repeat keeps_step.
Qed.

Lemma keeps_is_token_expired : keeps I (is_token_expired E).
Proof. unfold is_token_expired. repeat keeps_step. Qed.

Lemma keeps_refresh_access_token : keeps I (refresh_access_token E).
Proof.
  unfold refresh_access_token. repeat keeps_step.
Qed.

Lemma keeps__make_request method endpoint data params :
  keeps I (_make_request E method endpoint data params).
Proof.
  unfold _make_request, proactive_refresh, request_with_retry, build_request.
  repeat keeps_step.
Qed.

Lemma keeps_send_invoice invoice_id humanApproved :
  keeps I (send_invoice E invoice_id humanApproved).
Proof.
  unfold send_invoice. repeat keeps_step.
Qed.

End KeepsMethods.

Lemma header_matches_token_update a r s c :
  header_matches_token (update_credentials a r s c).
Proof. unfold header_matches_token. simpl. apply lookup_insert_eq. Qed.

Lemma same_configuration_update c0 a r s c :
  same_configuration c0 c -> same_configuration c0 (update_credentials a r s c).
Proof.
  intros (H1 & H2 & H3 & H4 & H5 & H6 & H7). repeat split; try done.
  intros name Hname. simpl. rewrite lookup_insert_ne by done. by apply H7.
Qed.

Lemma same_configuration_refl c : same_configuration c c.
Proof. by repeat split. Qed.

(** X1. A client whose [Authorization] header is the bearer header of its
    [access_token] stays so through [atomic_save_tokens],
    [refresh_access_token], [_make_request] and [send_invoice], whatever
    they do and however they end. *)
Theorem header_matches_token_kept (E : Env) (w : World) :
  header_matches_token (self w) ->
  (forall a r ei,
     header_matches_token (self (atomic_save_tokens E a r ei w).2)) /\
  header_matches_token (self (refresh_access_token E w).2) /\
  (forall method endpoint data params,
     header_matches_token
       (self (_make_request E method endpoint data params w).2)) /\
  (forall invoice_id humanApproved,
     header_matches_token (self (send_invoice E invoice_id humanApproved w).2)).
Proof.
  intros Hw.
  assert (Hu : forall a r s c,
            header_matches_token c ->
            header_matches_token (update_credentials a r s c))
    by (intros; apply header_matches_token_update).
  split; [|split; [|split]]; intros.
  - by apply (keeps_atomic_save_tokens E _ Hu).
  - by apply (keeps_refresh_access_token E _ Hu).
  - by apply (keeps__make_request E _ Hu).
  - by apply (keeps_send_invoice E _ Hu).
Qed.

Lemma header_matches_token_kept_witness :
  header_matches_token (self fresh_world) /\
  header_matches_token
    (self (_make_request granting_env "GET" "/x" None None fresh_world).2).
Proof.
  assert (H : header_matches_token (self fresh_world)) by reflexivity.
  split; [exact H|].
  destruct (header_matches_token_kept granting_env fresh_world H)
    as (_ & _ & Hreq & _).
  apply Hreq.
Defined.

(** X2. No method changes the account id, the OAuth client id and secret,
    the token URL, the path of the store, the base URL or any header other
    than [Authorization]. *)
Theorem configuration_never_changes (E : Env) (w : World) :
  (forall a r ei,
     same_configuration (self w) (self (atomic_save_tokens E a r ei w).2)) /\
  same_configuration (self w) (self (refresh_access_token E w).2) /\
  (forall method endpoint data params,
     same_configuration (self w)
       (self (_make_request E method endpoint data params w).2)) /\
  (forall invoice_id humanApproved,
     same_configuration (self w)
       (self (send_invoice E invoice_id humanApproved w).2)).
Proof.
  assert (Hu : forall a r s c,
            same_configuration (self w) c ->
            same_configuration (self w) (update_credentials a r s c))
    by (intros; by apply same_configuration_update).
  pose proof (same_configuration_refl (self w)) as Hw.
  split; [|split; [|split]]; intros.
  - by apply (keeps_atomic_save_tokens E _ Hu).
  - by apply (keeps_refresh_access_token E _ Hu).
  - by apply (keeps__make_request E _ Hu).
  - by apply (keeps_send_invoice E _ Hu).
Qed.

(** ** More on the refresh *)

(** When [refresh_access_token] returns, it returns the body of the answer,
    whose tokens it has saved. *)
Lemma refresh_access_token_ok_inv (E : Env) (w w' : World) (j : pyval) :
  refresh_access_token E w = (Ok j, w') ->
  exists a rf ei,
    py_get j "access_token" JNull = Ok a /\ truthy a = true /\
    py_get j "refresh_token" JNull = Ok rf /\ truthy rf = true /\
    py_get j "expires_in" (JNum (PFin 43200)) = Ok ei /\
    atomic_save_tokens E a rf ei (after_post E w) = (Ok tt, w').
Proof.
  destruct (truthy (refresh_token (self w))) eqn:Hrt.
  2:{ unfold refresh_access_token, bind at 1. simpl.
      unfold bind at 1. simpl. by rewrite Hrt. }
  rewrite refresh_access_token_unfold by done.
  assert (Htail : forall r,
    (token_data <- lift (resp_json r) ;;
     new_access <- lift (py_get token_data "access_token" JNull) ;;
     new_refresh <- lift (py_get token_data "refresh_token" JNull) ;;
     expires_in <- lift (py_get token_data "expires_in" (JNum (PFin 43200))) ;;
     if negb (truthy new_access) || negb (truthy new_refresh) then
       raise (ValueError MALFORMED_TOKEN_MSG)
     else
       atomic_save_tokens E new_access new_refresh expires_in ;;;
       ret token_data) (after_post E w) = (Ok j, w') ->
    exists a rf ei,
      py_get j "access_token" JNull = Ok a /\ truthy a = true /\
      py_get j "refresh_token" JNull = Ok rf /\ truthy rf = true /\
      py_get j "expires_in" (JNum (PFin 43200)) = Ok ei /\
      atomic_save_tokens E a rf ei (after_post E w) = (Ok tt, w')).
  { intros r. unfold bind at 1.
    destruct (resp_json r) as [j'|e]; simpl; [|done].
    unfold bind at 1. destruct (py_get j' "access_token" JNull) as [a|e] eqn:Ha;
      simpl; [|done].
    unfold bind at 1. destruct (py_get j' "refresh_token" JNull) as [rf|e] eqn:Hr;
      simpl; [|done].
    unfold bind at 1. destruct (py_get j' "expires_in" _) as [ei|e] eqn:He;
      simpl; [|done].
    destruct (truthy a) eqn:Hta; simpl; [|done].
    destruct (truthy rf) eqn:Htr; simpl; [|done].
    unfold bind.
    destruct (atomic_save_tokens E a rf ei (after_post E w)) as [[[]|e] w1]
      eqn:Hsave; [|done].
    intros [= <- <-]. by exists a, rf, ei. }
  unfold bind at 1. destruct (auth_answer E w) as [e|r]; simpl; [done|].
  specialize (Htail r).
  unfold bind at 1.
  destruct (negb (status_code r =? 200)%Z); simpl; [|exact Htail].
  unfold bind at 1. destruct (resp_json r) as [j'|e] eqn:Hj; simpl; [|done].
  unfold bind at 1. destruct (py_get j' "error" JNull) as [err|e]; simpl;
    [|done].
  destruct (py_eq_str err "invalid_grant"); simpl; [done|].
  unfold raise_for_status.
  destruct (is_error_status (status_code r)); simpl; [done|].
  exact Htail.
Qed.

(** X3. When [refresh_access_token] returns, the client holds the access
    token of the answer, its [Authorization] header is the bearer header of
    that token, the store holds the new pair, and a following
    [_make_request] that finds the token not expired issues its call with
    that header. *)
Theorem refreshed_token_is_used (E : Env) (w w' : World) (j : pyval)
    (method endpoint : string) (data params : option pyval) :
  refresh_access_token E w = (Ok j, w') ->
  (is_token_expired E w').1 = Ok false ->
  exists a rf s,
    py_get j "access_token" JNull = Ok a /\ truthy a = true /\
    py_get j "refresh_token" JNull = Ok rf /\ truthy rf = true /\
    access_token (self w') = a /\ refresh_token (self w') = rf /\
    headers (self w') !! "Authorization" = Some (Bearer a) /\
    store w' = saved_store E a rf s (store w) /\
    exists pre req out rest,
      trace (_make_request E method endpoint data params w').2 =
        trace w' ++ pre ++ EvRequest req out :: rest /\
      count is_request pre = 0%nat /\
      req_headers req !! "Authorization" = Some (Bearer a).
Proof.
  intros Hrun Hexp.
  apply refresh_access_token_ok_inv in Hrun
    as (a & rf & ei & Ha & Hta & Hr & Htr & _ & Hsave).
  apply atomic_save_tokens_ok in Hsave as (x & _ & Hself & Hstore & _).
  exists a, rf, (py_str_float E x).
  assert (Hhdr : headers (self w') !! "Authorization" = Some (Bearer a)).
  { rewrite Hself. simpl. apply lookup_insert_eq. }
  repeat split; try done; try by rewrite Hself.
  rewrite _make_request_unfold.
  destruct (after_proactive_refresh_events E w') as (pre & Hpre & Hpq & _).
  destruct (request_with_retry_first E method (base_url (self w') +:+ endpoint)
              data params (after_proactive_refresh E w')) as (rest & Hrest).
  assert (Hsame : self (after_proactive_refresh E w') = self w').
  { unfold after_proactive_refresh.
    destruct (is_token_expired_returns E w') as (b & w1 & Hb & Hs).
    rewrite Hb in Hexp |- *. simpl in Hexp. injection Hexp as ->. done. }
  eexists pre, _, _, rest. split; [|split; [exact Hpq|]].
  - rewrite Hrest, Hpre. by rewrite <- app_assoc.
  - simpl. by rewrite Hsame.
Qed.

Lemma refreshed_token_is_used_witness :
  let r := refresh_access_token granting_env fresh_world in
  refresh_access_token granting_env fresh_world = (Ok Sample.tokens_body, r.2) /\
  (is_token_expired granting_env r.2).1 = Ok false /\
  headers (self r.2) !! "Authorization" = Some (Bearer (JStr "new-access")).
Proof.
  intros r.
  assert (H1 : refresh_access_token granting_env fresh_world
               = (Ok Sample.tokens_body, r.2)) by (vm_compute; reflexivity).
  assert (H2 : (is_token_expired granting_env r.2).1 = Ok false)
    by (vm_compute; reflexivity).
  split; [exact H1|]. split; [exact H2|].
  destruct (refreshed_token_is_used granting_env fresh_world r.2
              Sample.tokens_body "GET" "/x" None None H1 H2)
    as (a & rf & s & Ha & _ & _ & _ & _ & _ & Hh & _).
  injection Ha as <-. exact Hh.
Defined.

(** ** More on saving the tokens *)

Ltac files :=
  repeat first
    [ rewrite lookup_fs_put_eq
    | rewrite lookup_fs_put_ne by (first [apply backup_of_ne | apply not_eq_sym, backup_of_ne])
    | rewrite lookup_insert_eq
    | rewrite lookup_insert_ne by (first [apply backup_of_ne | apply not_eq_sym, backup_of_ne])
    | rewrite lookup_delete_eq
    | rewrite lookup_delete_ne by (first [apply backup_of_ne | apply not_eq_sym, backup_of_ne]) ].

(** X4. When no file operation fails and [expires_in] is a number,
    [atomic_save_tokens] returns: the store holds the result of the three
    [set_key] calls on what it held (or on no file), no backup file is left,
    also not one from an earlier run, and the client holds the new
    credentials with the expiry [now + expires_in]. *)
Theorem atomic_save_tokens_succeeds (E : Env) (a r ei : pyval) (w : World)
    (x : pyfloat) :
  no_faults E ->
  py_add_float (py_round E) (env_now E (trace w)) ei = Ok x ->
  let (res, w') := atomic_save_tokens E a r ei w in
  res = Ok tt /\
  store w' = saved_store E a r (py_str_float E x) (store w) /\
  backup w' = None /\
  self w' = update_credentials a r (py_str_float E x) (self w).
Proof.
  intros Hnf Hx. unfold store, backup.
  rewrite atomic_save_tokens_unfold. simpl. rewrite Hx.
  set (env := env_path (self w)).
  unfold make_backup, bind, path_exists, read_file, write_file. simpl.
  destruct (fs w !! env) as [c0|] eqn:Hc0; simpl.
  - rewrite Hnf, Hc0. simpl. rewrite Hnf. simpl.
    unfold write_tokens, bind, set_key, set_credentials, path_exists,
      remove_file, now, print. simpl.
    repeat (rewrite Hnf; simpl). files. simpl. rewrite Hnf. files. simpl.
    fold env. files. unfold saved_store. by rewrite Hc0.
  - unfold write_tokens, bind, set_key, set_credentials, path_exists,
      remove_file, now, print. simpl.
    repeat (rewrite Hnf; simpl). files.
    destruct (fs w !! backup_of env) as [b|] eqn:Hb; simpl.
    + rewrite Hnf. files. rewrite Hb. simpl. fold env. files.
      unfold saved_store. by rewrite Hc0.
    + fold env. files. unfold saved_store. by rewrite Hc0, Hb.
Qed.

Lemma atomic_save_tokens_succeeds_witness :
  let E := granting_env in
  let w := fresh_world in
  (atomic_save_tokens E (JStr "a") (JStr "r") (JNum (PFin 60)) w).1 = Ok tt /\
  backup (atomic_save_tokens E (JStr "a") (JStr "r") (JNum (PFin 60)) w).2 = None.
Proof.
  intros E w.
  assert (Hnf : no_faults E) by (intros tr op; reflexivity).
  pose proof (atomic_save_tokens_succeeds E (JStr "a") (JStr "r")
                (JNum (PFin 60)) w _ Hnf eq_refl) as H.
  destruct (atomic_save_tokens E _ _ _ w) as [res w'].
  split; apply H.
Defined.

(** X5. When the store exists and everything succeeds except the removal of
    the backup at the end, [atomic_save_tokens] raises the error of the
    removal and restores the store from the backup, although the client
    object already holds the new credentials: memory and store then
    differ, the store holding the old tokens. *)
Theorem backup_removal_failure_rolls_store_back (E : Env) (a r ei : pyval)
    (w : World) (c0 : string) (x : pyfloat) (f : fault) :
  store w = Some c0 ->
  only_backup_removal_fails E (env_path (self w)) f ->
  py_add_float (py_round E) (env_now E (trace w)) ei = Ok x ->
  let (res, w') := atomic_save_tokens E a r ei w in
  res = Raise (fault_exn f) /\
  store w' = Some c0 /\
  backup w' = Some c0 /\
  self w' = update_credentials a r (py_str_float E x) (self w).
Proof.
  unfold store, backup. intros Hc0 [Hrm Hok] Hx.
  set (env := env_path (self w)) in *.
  assert (Hrd : forall tr p, env_fault E tr (OpRead p) = None)
    by (intros; by apply Hok).
  assert (Hwr : forall tr p c, env_fault E tr (OpWrite p c) = None)
    by (intros; by apply Hok).
  assert (Hsk : forall tr p k v, env_fault E tr (OpSetKey p k v) = None)
    by (intros; by apply Hok).
  rewrite atomic_save_tokens_unfold. simpl. rewrite Hx. fold env.
  unfold make_backup, bind, path_exists, read_file, write_file. simpl.
  rewrite Hc0. simpl. rewrite Hrd, Hc0. simpl. rewrite Hwr. simpl.
  unfold write_tokens, bind, set_key, set_credentials, path_exists,
    remove_file, now, print. simpl.
  repeat (rewrite Hsk; simpl). files. simpl. rewrite Hrm. simpl.
  unfold restore_backup, bind, print, path_exists, read_file, write_file,
    raise. simpl.
  files. simpl. rewrite Hrd. files. simpl. rewrite Hwr. simpl.
  fold env. files. by repeat split.
Qed.

(** The removal of [.env.backup] is refused. *)
Lemma backup_removal_failure_rolls_store_back_witness :
  let E := offline_env backup_removal_refused in
  let w := fresh_world in
  let run := atomic_save_tokens E (JStr "new-access") (JStr "new-refresh")
               (JNum (PFin 43200)) w in
  run.1 = Raise (OSError "Permission denied") /\
  store run.2 = Some "FRESHBOOKS_REFRESH_TOKEN='old-refresh'" /\
  access_token (self run.2) = JStr "new-access".
Proof.
  intros E w run.
  assert (Hf : only_backup_removal_fails E (env_path (self w)) removal_refused).
  { split; [reflexivity|]. intros tr [p|p c|p k v|p] Hne; try reflexivity.
    simpl. destruct (String.eqb_spec p ".env.backup") as [->|Hp]; [|done].
    by destruct Hne. }
  pose proof (backup_removal_failure_rolls_store_back E (JStr "new-access")
                (JStr "new-refresh") (JNum (PFin 43200)) w _ _ _ eq_refl Hf
                eq_refl) as H.
  subst run. destruct (atomic_save_tokens E _ _ _ w) as [res w'].
  destruct H as (H1 & H2 & _ & H4). simpl. rewrite H4. by repeat split.
Defined.

(** X6. A token response with status 200 and both tokens whose [expires_in]
    cannot be added to the clock (a string, say, or an integer beyond the
    range of floats) makes [refresh_access_token] raise the error of
    [now + expires_in], a [TypeError] or an [OverflowError]: the refresh
    token has been posted, but no file operation is attempted and store and
    client keep the old pair. *)
Theorem refresh_with_bad_expires_in (E : Env) (w : World) (r : response)
    (items : list (string * pyval)) (e : exn) :
  truthy (refresh_token (self w)) = true ->
  auth_answer E w = NetResp r ->
  status_code r = 200%Z ->
  resp_json r = Ok (JObj items) ->
  truthy (default JNull (assoc_get items "access_token")) = true ->
  truthy (default JNull (assoc_get items "refresh_token")) = true ->
  py_add_float (py_round E) (env_now E (trace (after_post E w)))
    (default (JNum (PFin 43200)) (assoc_get items "expires_in")) = Raise e ->
  let (res, w') := refresh_access_token E w in
  res = Raise e /\
  fs w' = fs w /\ self w' = self w /\
  count is_post (new_events w w') = 1%nat /\
  first_failure (new_events w w') = None /\
  Forall (fun ev => match ev with EvIO _ _ => False | _ => True end)
    (new_events w w').
Proof.
  intros Hrt Hans Hst Hjs Ha Hr Hx.
  rewrite refresh_access_token_unfold by done.
  unfold bind at 1. rewrite Hans. simpl.
  unfold bind at 1. rewrite Hst. simpl.
  unfold bind at 1. rewrite Hjs. simpl.
  unfold bind at 1. simpl. unfold bind at 1. simpl. unfold bind at 1. simpl.
  rewrite Ha, Hr. simpl. unfold bind at 1.
  rewrite atomic_save_tokens_unfold. simpl in Hx |- *. rewrite Hx.
  rewrite (new_events_app w _
             [EvRefresh; EvNow (env_now E (trace w ++ [EvRefresh]));
              EvPrint "Refreshing token at "
                (PTime (env_now E (trace w ++ [EvRefresh])));
              EvPost (token_url (self w)) (refresh_form (self w)) (NetResp r);
              EvNow (env_now E (trace (after_post E w)))])
    by (simpl; rewrite Hans; by rewrite <- !app_assoc).
  repeat split; try done. by repeat constructor.
Qed.

Lemma refresh_with_bad_expires_in_witness :
  let body := [("access_token", JStr "new-access");
               ("refresh_token", JStr "new-refresh");
               ("expires_in", JStr "43200")] in
  let r := Sample.json_response 200 (JObj body) in
  let E := Sample.env Sample.no_faults (fun _ _ _ => NetResp r)
             (fun _ _ => NetRaise (ConnectionError "")) in
  (refresh_access_token E fresh_world).1
    = Raise (TypeError "unsupported operand type(s) for +") /\
  store (refresh_access_token E fresh_world).2 = store fresh_world.
Proof.
  intros body r E.
  pose proof (refresh_with_bad_expires_in E fresh_world r body _ eq_refl
                eq_refl eq_refl eq_refl eq_refl eq_refl eq_refl) as H.
  destruct (refresh_access_token E fresh_world) as [res w'].
  destruct H as (H1 & H2 & H3 & _). split; [exact H1|].
  unfold store. simpl. by rewrite H2, H3.
Defined.

(** X7. With a refresh token held, a failure of the POST itself and an
    answer whose body is not JSON both come out of [refresh_access_token]
    as they are, whatever the status of the answer: an error status with an
    unparseable body raises the error of [json()], not an [HTTPError].
    Files and client are unchanged. *)
Theorem refresh_transport_and_body_errors (E : Env) (w : World) (e : exn) :
  truthy (refresh_token (self w)) = true ->
  auth_answer E w = NetRaise e \/
  (exists r, auth_answer E w = NetResp r /\ resp_json r = Raise e) ->
  refresh_access_token E w = (Raise e, after_post E w) /\
  fs (after_post E w) = fs w /\ self (after_post E w) = self w.
Proof.
  intros Hrt H. split; [|done].
  rewrite refresh_access_token_unfold by done.
  destruct H as [Hans|(r & Hans & Hjs)]; unfold bind at 1; rewrite Hans; simpl.
  { done. }
  unfold bind at 1.
  destruct (negb (status_code r =? 200)%Z); simpl.
  - unfold bind at 1. by rewrite Hjs.
  - unfold bind at 1. by rewrite Hjs.
Qed.

Lemma refresh_transport_and_body_errors_witness :
  let r := {| status_code := 502; resp_json := Raise (JSONDecodeError "Expecting value") |} in
  let E := Sample.env Sample.no_faults (fun _ _ _ => NetResp r)
             (fun _ _ => NetRaise (ConnectionError "")) in
  (refresh_access_token E fresh_world).1
    = Raise (JSONDecodeError "Expecting value").
Proof.
  intros r E.
  destruct (refresh_transport_and_body_errors E fresh_world
              (JSONDecodeError "Expecting value") eq_refl
              (or_intror (ex_intro _ r (conj eq_refl eq_refl)))) as [H _].
  by rewrite H.
Defined.

(** What follows the POST in [refresh_access_token] stays on the machine. *)
Lemma refresh_access_token_after_post (E : Env) (w : World) :
  truthy (refresh_token (self w)) = true ->
  exists evs,
    trace (refresh_access_token E w).2 = trace (after_post E w) ++ evs /\
    Forall (fun ev => is_local ev = true) evs.
Proof.
  intros Hrt. rewrite refresh_access_token_unfold by done.
  match goal with
  | |- context [trace (?m (after_post E w)).2] =>
      assert (Hm : adds is_local m)
  end.
  { repeat adds_step. }
  apply Hm.
Qed.

Lemma count_local_network evs :
  Forall (fun ev => is_local ev = true) evs ->
  count is_post evs = 0%nat /\ count is_network evs = 0%nat.
Proof.
  intros Hq. split; apply count_none; (eapply Forall_impl; [exact Hq|]);
    by intros [| | | | |].
Qed.

(** The events of a refresh: at most one POST, no request to the API. *)
Lemma refresh_access_token_network (E : Env) (w : World) :
  (count is_post (new_events w (refresh_access_token E w).2) <= 1)%nat /\
  count is_request (new_events w (refresh_access_token E w).2) = 0%nat /\
  count is_refresh (new_events w (refresh_access_token E w).2) = 1%nat.
Proof.
  destruct (refresh_access_token_counts E w) as [Hc1 Hc2].
  split; [|by split].
  destruct (truthy (refresh_token (self w))) eqn:Hrt.
  - destruct (refresh_access_token_after_post E w Hrt) as (evs & Ht & Hl).
    destruct (count_local_network evs Hl) as [Hp _].
    rewrite (new_events_app w _
               (EvRefresh :: EvNow (env_now E (trace w ++ [EvRefresh]))
                :: EvPrint "Refreshing token at "
                     (PTime (env_now E (trace w ++ [EvRefresh])))
                :: EvPost (token_url (self w)) (refresh_form (self w))
                     (auth_answer E w) :: evs))
      by (rewrite Ht; simpl; by rewrite <- !app_assoc).
    rewrite !count_cons, Hp. simpl. lia.
  - unfold refresh_access_token, bind at 1. simpl.
    unfold bind at 1. simpl. rewrite Hrt. simpl.
    rewrite (new_events_app w _ [EvRefresh]) by done. simpl.
    unfold count. simpl. lia.
Qed.

(** X8. A run of [refresh_access_token] never sends a request to the API
    and posts to the authorization server at most once.  With a refresh
    token held it posts exactly once, to [token_url], the form with
    [grant_type=refresh_token], the held refresh token and the client id and
    secret; without one it posts nothing. *)
Theorem refresh_posts_once (E : Env) (w : World) :
  let evs := new_events w (refresh_access_token E w).2 in
  count is_request evs = 0%nat /\
  (count is_post evs <= 1)%nat /\
  (truthy (refresh_token (self w)) = true ->
     count is_post evs = 1%nat /\
     In (EvPost (token_url (self w))
           [("grant_type", JStr "refresh_token");
            ("refresh_token", refresh_token (self w));
            ("client_id", of_getenv (client_id (self w)));
            ("client_secret", of_getenv (client_secret (self w)))]
           (auth_answer E w)) evs) /\
  (truthy (refresh_token (self w)) = false -> count is_post evs = 0%nat).
Proof.
  intros evs. subst evs.
  destruct (refresh_access_token_network E w) as (Hp & Hq & _).
  split; [exact Hq|]. split; [exact Hp|]. split.
  - intros Hrt.
    destruct (refresh_access_token_after_post E w Hrt) as (evs & Ht & Hl).
    destruct (count_local_network evs Hl) as [Hpl _].
    rewrite (new_events_app w _
               (EvRefresh :: EvNow (env_now E (trace w ++ [EvRefresh]))
                :: EvPrint "Refreshing token at "
                     (PTime (env_now E (trace w ++ [EvRefresh])))
                :: EvPost (token_url (self w)) (refresh_form (self w))
                     (auth_answer E w) :: evs))
      by (rewrite Ht; simpl; by rewrite <- !app_assoc).
    split.
    + rewrite !count_cons, Hpl. reflexivity.
    + right. right. right. by left.
  - intros Hrt. unfold refresh_access_token, bind at 1. simpl.
    unfold bind at 1. simpl. rewrite Hrt. simpl.
    rewrite (new_events_app w _ [EvRefresh]) by done. reflexivity.
Qed.

(** ** More on the request executor *)

Lemma count_zero_not_in p evs ev :
  count p evs = 0%nat -> In ev evs -> p ev = false.
Proof.
  unfold count. induction evs as [|ev' evs IH]; simpl; [done|].
  destruct (p ev') eqn:Hp; simpl; [done|].
  intros H [<-|Hin]; [done|]. by apply IH.
Qed.

Lemma count_nil p : count p [] = 0%nat.
Proof. reflexivity. Qed.

Ltac counts :=
  repeat first [rewrite count_app | rewrite count_cons | rewrite count_nil].

Lemma only_calls_app method url data params evs1 evs2 :
  only_calls method url data params evs1 ->
  only_calls method url data params evs2 ->
  only_calls method url data params (evs1 ++ evs2).
Proof.
  intros H1 H2 req out Hin. apply in_app_or in Hin as [Hin|Hin]; eauto.
Qed.

Lemma only_calls_no_request method url data params evs :
  count is_request evs = 0%nat -> only_calls method url data params evs.
Proof.
  intros Hc req out Hin. by apply (count_zero_not_in _ _ _ Hc) in Hin.
Qed.

Lemma only_calls_cons method url data params ev evs :
  match ev with
  | EvRequest req _ => is_call method url data params req
  | _ => True
  end ->
  only_calls method url data params evs ->
  only_calls method url data params (ev :: evs).
Proof.
  intros Hev Hevs req out [->|Hin]; [done|]. by eapply Hevs.
Qed.

(** The events of one refresh: its mark, at most one POST, no request. *)
Lemma refresh_access_token_events (E : Env) (w : World) :
  exists evs,
    trace (refresh_access_token E w).2 = trace w ++ evs /\
    count is_refresh evs = 1%nat /\
    count is_request evs = 0%nat /\
    (count is_post evs <= 1)%nat.
Proof.
  destruct (refresh_access_token_trace E w) as (evs & Ht & _).
  destruct (refresh_access_token_network E w) as (Hp & Hq & Hr).
  rewrite (new_events_app _ _ _ Ht) in Hp, Hq, Hr.
  by exists (EvRefresh :: evs).
Qed.

Lemma count_local_post evs :
  Forall (fun ev => is_local ev = true) evs -> count is_post evs = 0%nat.
Proof. intros H. by destruct (count_local_network evs H). Qed.

(** What precedes the call in [_make_request]. *)
Lemma after_proactive_refresh_counts (E : Env) (w : World) :
  exists pre,
    trace (after_proactive_refresh E w) = trace w ++ pre /\
    count is_request pre = 0%nat /\
    (count is_refresh pre <= 1)%nat /\
    (count is_post pre <= 1)%nat.
Proof.
  unfold after_proactive_refresh.
  destruct (is_token_expired_trace E w) as (evs1 & Ht1 & Hl1).
  destruct (count_local evs1 Hl1) as [Hc1 Hc2].
  pose proof (count_local_post evs1 Hl1) as Hc3.
  destruct (is_token_expired E w) as [[[|]|e] w1]; simpl in *;
    try (exists evs1; split; [done|]; split; [done|]; split; lia).
  set (w2 := log (EvPrint _ PNone) w1).
  destruct (refresh_access_token_events E w2) as (evs & Ht & Hr & Hq & Hp).
  destruct (refresh_access_token E w2) as [[j|e] w3]; simpl in Ht.
  - exists (evs1 ++ EvPrint "Access token expired or expiring soon, refreshing..."
                      PNone :: evs).
    rewrite Ht. simpl. rewrite Ht1, <- !app_assoc.
    counts. rewrite Hc1, Hc2, Hc3, Hq, Hr. simpl.
    split; [done|]. split; [lia|]. split; lia.
  - exists (evs1 ++ EvPrint "Access token expired or expiring soon, refreshing..."
                      PNone :: evs ++
                    [EvPrint "Token refresh failed: " (PExn e)]).
    simpl. rewrite Ht. simpl. rewrite Ht1, <- !app_assoc.
    counts. rewrite Hc1, Hc2, Hc3, Hq, Hr. simpl.
    split; [done|]. split; [lia|]. split; lia.
Qed.

(** The events of the call, the refresh after a 401 and the retry. *)
Lemma request_with_retry_events (E : Env) method url data params w :
  exists evs,
    trace (request_with_retry E method url data params w).2 = trace w ++ evs /\
    (1 <= count is_request evs <= 2)%nat /\
    (count is_refresh evs <= 1)%nat /\
    (count is_post evs <= 1)%nat /\
    only_calls method url data params evs.
Proof.
  rewrite request_with_retry_unfold. simpl.
  set (req0 := the_request method url data params w).
  assert (Hcall : forall w0, is_call method url data params
                               (the_request method url data params w0))
    by (by intros w0).
  destruct (env_request E (trace w) req0) as [e|r0] eqn:Hout0; simpl.
  { exists [EvRequest req0 (NetRaise e)].
    split; [done|]. counts. simpl.
    split; [lia|]. split; [lia|]. split; [lia|].
    apply only_calls_cons; [apply Hcall|done]. }
  destruct (status_code r0 =? 401)%Z; simpl.
  2:{ exists [EvRequest req0 (NetResp r0)].
      split; [done|]. counts. simpl.
      split; [lia|]. split; [lia|]. split; [lia|].
      apply only_calls_cons; [apply Hcall|done]. }
  set (w2 := log (EvPrint _ PNone) _).
  destruct (refresh_access_token_events E w2) as (evs & Ht & Hr & Hq & Hp).
  destruct (refresh_access_token E w2) as [[j|e] w3]; simpl in Ht.
  2:{ exists (EvRequest req0 (NetResp r0)
              :: EvPrint "Got 401 Unauthorized, attempting token refresh..." PNone
              :: evs ++ [EvPrint (refresh_failure_text e) (PExn e)]).
      split; [simpl; rewrite Ht; simpl; by rewrite <- !app_assoc|].
      counts. rewrite Hq, Hr. simpl.
      split; [lia|]. split; [lia|]. split; [lia|].
      apply only_calls_cons; [apply Hcall|].
      apply only_calls_cons; [done|].
      apply only_calls_app; [by apply only_calls_no_request|].
      by apply only_calls_cons. }
  set (req1 := the_request method url data params w3).
  destruct (env_request E (trace w3) req1) as [e|r1].
  - exists (EvRequest req0 (NetResp r0)
            :: EvPrint "Got 401 Unauthorized, attempting token refresh..." PNone
            :: evs ++ [EvRequest req1 (NetRaise e);
                       EvPrint (refresh_failure_text e) (PExn e)]).
    split; [simpl; rewrite Ht; simpl; by rewrite <- !app_assoc|].
    counts. rewrite Hq, Hr. simpl.
    split; [lia|]. split; [lia|]. split; [lia|].
    apply only_calls_cons; [apply Hcall|].
    apply only_calls_cons; [done|].
    apply only_calls_app; [by apply only_calls_no_request|].
    apply only_calls_cons; [apply Hcall|]. by apply only_calls_cons.
  - exists (EvRequest req0 (NetResp r0)
            :: EvPrint "Got 401 Unauthorized, attempting token refresh..." PNone
            :: evs ++ [EvRequest req1 (NetResp r1)]).
    split; [simpl; rewrite Ht; simpl; by rewrite <- !app_assoc|].
    counts. rewrite Hq, Hr. simpl.
    split; [lia|]. split; [lia|]. split; [lia|].
    apply only_calls_cons; [apply Hcall|].
    apply only_calls_cons; [done|].
    apply only_calls_app; [by apply only_calls_no_request|].
    by apply only_calls_cons; [apply Hcall|].
Qed.

(** The events of a whole [_make_request]. *)
Lemma _make_request_events (E : Env) method endpoint data params w :
  exists evs,
    trace (_make_request E method endpoint data params w).2 = trace w ++ evs /\
    (1 <= count is_request evs <= 2)%nat /\
    (count is_refresh evs <= 2)%nat /\
    (count is_post evs <= 2)%nat /\
    only_calls method (base_url (self w) +:+ endpoint) data params evs.
Proof.
  rewrite _make_request_unfold.
  destruct (after_proactive_refresh_counts E w) as (pre & Hpre & Hq & Hr & Hp).
  destruct (request_with_retry_events E method (base_url (self w) +:+ endpoint)
              data params (after_proactive_refresh E w))
    as (evs & Ht & Hq' & Hr' & Hp' & Hc).
  exists (pre ++ evs). rewrite Ht, Hpre, <- app_assoc, !count_app.
  split; [done|]. split; [lia|]. split; [lia|]. split; [lia|].
  apply only_calls_app; [by apply only_calls_no_request|done].
Qed.

(** X9. Every run of [_make_request] sends the API one or two requests,
    never more, makes at most two refresh attempts and posts to the
    authorization server at most twice. *)
Theorem _make_request_bounds (E : Env) (method endpoint : string)
    (data params : option pyval) (w : World) :
  let evs := new_events w (_make_request E method endpoint data params w).2 in
  (1 <= count is_request evs <= 2)%nat /\
  (count is_refresh evs <= 2)%nat /\
  (count is_post evs <= 2)%nat.
Proof.
  destruct (_make_request_events E method endpoint data params w)
    as (evs & Ht & Hq & Hr & Hp & _).
  simpl. by rewrite (new_events_app _ _ _ Ht).
Qed.

(** X10. Every request that a run of [_make_request] sends has the method,
    the URL [base_url + endpoint], the body and the query parameters of the
    call: the retry repeats the call, only the headers may differ. *)
Theorem _make_request_repeats_the_call (E : Env) (method endpoint : string)
    (data params : option pyval) (w : World) :
  only_calls method (base_url (self w) +:+ endpoint) data params
    (new_events w (_make_request E method endpoint data params w).2).
Proof.
  destruct (_make_request_events E method endpoint data params w)
    as (evs & Ht & _ & _ & _ & Hc).
  by rewrite (new_events_app _ _ _ Ht).
Qed.

(** X11. When the call itself raises (the connection fails, say),
    [_make_request] raises that error: the failed call is the last event of
    the run, no refresh is triggered by it and nothing is retried. *)
Theorem _make_request_transport_error (E : Env) (method endpoint : string)
    (data params : option pyval) (w : World) (e : exn) :
  let wp := after_proactive_refresh E w in
  let req := the_request method (base_url (self w) +:+ endpoint) data params wp in
  env_request E (trace wp) req = NetRaise e ->
  _make_request E method endpoint data params w
    = (Raise e, log (EvRequest req (NetRaise e)) wp) /\
  count is_request (new_events w (log (EvRequest req (NetRaise e)) wp)) = 1%nat.
Proof.
  intros wp req Hout.
  rewrite _make_request_unfold, request_with_retry_unfold. simpl.
  fold wp req. rewrite Hout. split; [done|].
  destruct (after_proactive_refresh_counts E w) as (pre & Hpre & Hq & _).
  fold wp in Hpre.
  rewrite (new_events_app w _ (pre ++ [EvRequest req (NetRaise e)]))
    by (simpl; by rewrite Hpre, <- app_assoc).
  counts. by rewrite Hq.
Qed.

Lemma _make_request_transport_error_witness :
  let E := offline_env Sample.no_faults in
  (_make_request E "GET" "/x" None None fresh_world).1
    = Raise (ConnectionError "offline").
Proof.
  intros E.
  destruct (_make_request_transport_error E "GET" "/x" None None fresh_world
              (ConnectionError "offline") eq_refl) as [H _].
  by rewrite H.
Defined.

(** ** More on the expiry *)

Lemma pf_gtb_mono (t t' : Q) (y : pyfloat) :
  (t <= t')%Q ->
  pf_gtb (PFin t) y = true ->
  pf_gtb (PFin t') y = true.
Proof.
  intros Hle. destruct y as [q| | |]; simpl; try done.
  rewrite !Qltb_lt. intros H. lra.
Qed.

(** X12. Expiry is monotone in time: for one and the same client, if
    [is_token_expired] says "expired" at some time, it says so at every
    later time. *)
Theorem is_token_expired_monotone (E : Env) (w w' : World) :
  self w' = self w ->
  (env_now E (trace w) <= env_now E (trace w'))%Q ->
  (is_token_expired E w).1 = Ok true ->
  (is_token_expired E w').1 = Ok true.
Proof.
  intros Hs Hle. unfold is_token_expired, bind, gets. rewrite Hs.
  destruct (token_expires_at (self w)) as [s|]; simpl; [|done].
  destruct (negb (String.eqb s "")); simpl; [|done].
  destruct (py_float E s) as [x|]; simpl; [|done].
  intros [= H]. f_equal. by apply (pf_gtb_mono _ _ _ Hle).
Qed.

Lemma is_token_expired_monotone_witness :
  let E := granting_env in
  let w := stale_world in
  let w' := log EvRefresh stale_world in
  (is_token_expired E w).1 = Ok true /\ (is_token_expired E w').1 = Ok true.
Proof.
  intros E w w'.
  assert (H : (is_token_expired E w).1 = Ok true) by reflexivity.
  split; [exact H|].
  apply (is_token_expired_monotone E w w' eq_refl); [|exact H].
  vm_compute. discriminate.
Defined.

(** X13. The expiry that [atomic_save_tokens] stores is the one that
    [is_token_expired] reads afterwards, provided [float] reads back what
    [str] wrote: after a save that returned, having computed the float
    [expires_at = now0 + expires_in], the token counts as expired at time
    [now1] exactly when [now1 > expires_at - 300], the difference being
    the float that the machine computes. *)
Theorem saved_expiry_is_read_back (E : Env) (a r ei : pyval) (w w' w1 : World)
    (x : pyfloat) :
  atomic_save_tokens E a r ei w = (Ok tt, w') ->
  py_add_float (py_round E) (env_now E (trace w)) ei = Ok x ->
  py_float E (py_str_float E x) = Some x ->
  py_str_float E x <> "" ->
  self w1 = self w' ->
  (is_token_expired E w1).1 =
    Ok (pf_gtb (PFin (env_now E (trace w1)))
          (fl_sub (py_round E) x (PFin 300))).
Proof.
  intros Hsave Hx Hfloat Hne Hs.
  apply atomic_save_tokens_ok in Hsave as (x' & Hx' & Hself & _).
  rewrite Hx in Hx'. injection Hx' as <-.
  unfold is_token_expired, bind, gets. rewrite Hs, Hself. simpl.
  apply String.eqb_neq in Hne. rewrite Hne. simpl. by rewrite Hfloat.
Qed.

Lemma saved_expiry_is_read_back_witness :
  let E := granting_env in
  let w := fresh_world in
  let w' := (atomic_save_tokens E (JStr "a") (JStr "r") (JNum (PFin 60)) w).2 in
  atomic_save_tokens E (JStr "a") (JStr "r") (JNum (PFin 60)) w = (Ok tt, w') /\
  (is_token_expired E w').1 = Ok true.
Proof.
  intros E w w'.
  assert (H : atomic_save_tokens E (JStr "a") (JStr "r") (JNum (PFin 60)) w
              = (Ok tt, w')) by (vm_compute; reflexivity).
  split; [exact H|].
  rewrite (saved_expiry_is_read_back E _ _ _ w w' w' _ H eq_refl
             ltac:(vm_compute; reflexivity) ltac:(vm_compute; discriminate)
             eq_refl).
  vm_compute. reflexivity.
Defined.

(** ** The constructor *)

Lemma truthy_given o s : given o s -> truthy (of_getenv o) = true.
Proof.
  intros [-> Hne]. simpl. apply negb_true_iff. by apply String.eqb_neq.
Qed.

Lemma truthy_not_given o : not_given o -> truthy (of_getenv o) = false.
Proof. by intros [->| ->]. Qed.

Lemma given_or_not o : (exists s, given o s) \/ not_given o.
Proof.
  destruct o as [s|]; [|right; by left].
  destruct (String.eqb_spec s "") as [->|Hne]; [right; by right|].
  left. by exists s.
Qed.

Lemma py_or_given {A} o s (f : string -> A) b : given o s -> py_or o f b = f s.
Proof.
  intros [-> Hne]. unfold py_or. simpl.
  by apply String.eqb_neq in Hne as ->.
Qed.

Lemma py_or_not_given {A} o (f : string -> A) b : not_given o -> py_or o f b = b.
Proof. by intros [->| ->]. Qed.

(** X14. The constructor raises its [ValueError] exactly when neither the
    argument nor the environment gives a non-empty access token, and raises
    nothing else.  The client it builds holds the argument if one is given,
    else the token of the environment; its [Authorization] header is the
    bearer header of that token, its store is [.env], and its account id is
    the argument if given, else that of the environment, else ["ogqZ2g"]. *)
Theorem init_spec (environ : string -> option string)
    (account token : option string) :
  let env_token := environ "FRESHBOOKS_ACCESS_TOKEN" in
  (init environ account token = Raise (ValueError NO_ACCESS_TOKEN_MSG)
   <-> not_given token /\ not_given env_token) /\
  (forall e, init environ account token = Raise e ->
     e = ValueError NO_ACCESS_TOKEN_MSG) /\
  (forall c, init environ account token = Ok c ->
     header_matches_token c /\
     truthy (access_token c) = true /\
     env_path c = ".env" /\
     (forall s, given token s -> access_token c = JStr s) /\
     (not_given token -> access_token c = of_getenv env_token) /\
     (forall s, given account s -> account_id c = s) /\
     (not_given account ->
      account_id c = default "ogqZ2g" (environ "FRESHBOOKS_ACCOUNT_ID"))).
Proof.
  intros env_token. unfold init.
  set (tok := py_or token JStr (of_getenv (environ "FRESHBOOKS_ACCESS_TOKEN"))).
  assert (Htok : (exists s, given token s /\ tok = JStr s /\ truthy tok = true) \/
                 (not_given token /\ tok = of_getenv env_token)).
  { destruct (given_or_not token) as [[s Hs]|Hn].
    - left. exists s. unfold tok. rewrite (py_or_given _ _ _ _ Hs).
      split; [done|]. split; [done|]. pose proof (truthy_given _ _ Hs) as Ht. destruct Hs as [-> _]. exact Ht.
    - right. split; [done|]. unfold tok. by rewrite (py_or_not_given _ _ _ Hn). }
  split; [|split].
  - split.
    + destruct (truthy tok) eqn:Ht; [done|]. intros _.
      destruct Htok as [(s & _ & _ & Hs)|[Hn Heq]]; [congruence|].
      split; [done|].
      destruct (given_or_not env_token) as [[s Hs]|Hn']; [|done].
      apply truthy_given in Hs. congruence.
    + intros [Hn Hn']. destruct Htok as [(s & [Hs Hne] & _)|[_ Heq]].
      * destruct Hn as [Hn|Hn]; rewrite Hn in Hs; [done|]. congruence.
      * rewrite Heq. by rewrite (truthy_not_given _ Hn').
  - intros e. destruct (truthy tok); [done|]. simpl. congruence.
  - intros c. destruct (truthy tok) eqn:Ht; [|done]. simpl.
    intros [= <-]. simpl.
    split; [by unfold header_matches_token|].
    split; [done|]. split; [done|].
    split.
    { intros s Hs. unfold tok. by rewrite (py_or_given _ _ _ _ Hs). }
    split.
    { intros Hn. unfold tok. by rewrite (py_or_not_given _ _ _ Hn). }
    split.
    { intros s Hs. by rewrite (py_or_given _ _ _ _ Hs). }
    intros Hn. by rewrite (py_or_not_given _ _ _ Hn).
Qed.

(** ** Invoices *)

Lemma dict_set_single key v v' : dict_set [(key, v)] key v' = [(key, v')].
Proof. simpl. by rewrite String.eqb_refl. Qed.

Lemma status_loop_last statuses s acc :
  acc = [] \/ (exists v, acc = [("status[]", v)]) ->
  fold_left (fun params s => dict_set params "status[]" (JStr s))
    (statuses ++ [s]) acc = [("status[]", JStr s)].
Proof.
  revert acc. induction statuses as [|s0 statuses IH]; intros acc Hacc.
  - destruct Hacc as [->|[v ->]]; reflexivity.
  - simpl. apply IH. right. exists (JStr s0).
    destruct Hacc as [->|[v ->]]; reflexivity.
Qed.

Lemma invoice_status_params_last statuses s :
  invoice_status_params (Some (statuses ++ [s])) = [("status[]", JStr s)].
Proof.
  destruct statuses as [|s0 l]; [reflexivity|].
  apply (status_loop_last l s). right. by exists (JStr s0).
Qed.

(** X15. Of a list of statuses [get_invoices] sends only the last one: the
    loop stores each status under the same key ["status[]"], so asking for
    [statuses ++ [s]] is the same request, with the same result, as asking
    for [[s]] alone.  An empty list is the same as no filter. *)
Theorem get_invoices_sends_last_status (E : Env) (statuses : list string)
    (s : string) (w : World) :
  invoice_status_params (Some (statuses ++ [s])) = [("status[]", JStr s)] /\
  get_invoices E (Some (statuses ++ [s])) w = get_invoices E (Some [s]) w /\
  get_invoices E (Some []) w = get_invoices E None w.
Proof.
  split; [apply invoice_status_params_last|]. split; [|reflexivity].
  unfold get_invoices. by rewrite invoice_status_params_last.
Qed.

(** ** Looking up clients *)

Lemma filter_clients_dicts (o : string) (cs : list pyval) :
  Forall is_dict cs ->
  filter_clients (Some o) cs = Ok (List.filter (has_organization o) cs).
Proof.
  induction 1 as [|c cs Hc _ IH]; [reflexivity|].
  simpl. destruct c as [| | | | |items]; try done.
  simpl. rewrite IH. by destruct (py_eq_str _ o).
Qed.

Lemma filter_clients_not_dict (o : option string) (cs : list pyval) :
  Exists (fun c => ~ is_dict c) cs ->
  filter_clients o cs = Raise (AttributeError "object has no attribute 'get'").
Proof.
  induction 1 as [c cs Hc|c cs _ IH].
  - simpl. destruct c; try reflexivity. by destruct Hc.
  - simpl. destruct (organization_is o c) as [keep|e] eqn:Hk.
    + by rewrite IH.
    + destruct c; unfold organization_is in Hk; simpl in Hk; congruence.
Qed.

(** X16. [get_client] with neither an organization nor an email raises its
    [ValueError] and does nothing else: the world is unchanged.  With an
    email it is [get_client_by_email] on that email, whatever the
    organization: the organization is then ignored. *)
Theorem get_client_dispatch (E : Env) (organization email : option string)
    (w : World) :
  (not_given organization /\ not_given email ->
   get_client E organization email w =
   (Raise (ValueError "Either organization or email must be provided"), w)) /\
  (forall e, given email e ->
   get_client E organization email w = get_client_by_email E e w).
Proof.
  split.
  - intros [Ho He]. unfold get_client.
    by rewrite (truthy_not_given _ Ho), (truthy_not_given _ He).
  - intros e He. unfold get_client.
    rewrite (truthy_given _ _ He). rewrite andb_false_r.
    by destruct He as [-> _].
Qed.

(** X17. [get_client] by organization alone asks for the clients once, with
    [get_clients], and answers with the clients of the server's list whose
    organization is the one asked for, in the server's order, wrapped like
    an answer of the server.  If an entry of that list is not a dictionary
    the call raises [AttributeError]. *)
Theorem get_client_by_organization (E : Env) (organization email : option string)
    (o : string) (w w' : World) (all_clients : pyval) (cs : list pyval) :
  given organization o ->
  not_given email ->
  get_clients E 100 w = (Ok all_clients, w') ->
  server_clients all_clients = Ok (JArr cs) ->
  (Forall is_dict cs ->
   get_client E organization email w =
   (Ok (clients_response (JArr (List.filter (has_organization o) cs))), w')) /\
  (Exists (fun c => ~ is_dict c) cs ->
   get_client E organization email w =
   (Raise (AttributeError "object has no attribute 'get'"), w')).
Proof.
  intros Ho He Hall Hcs.
  assert (Hrun : get_client E organization email w =
                 (match filter_clients organization cs with
                  | Ok l => Ok (clients_response (JArr l))
                  | Raise e => Raise e
                  end, w')).
  { unfold get_client.
    rewrite (truthy_given _ _ Ho), (truthy_not_given _ He). cbn [negb andb].
    unfold server_clients in Hcs.
    destruct (py_get all_clients "response" (JObj [])) as [r|] eqn:H1; [|done].
    destruct (py_get r "result" (JObj [])) as [r'|] eqn:H2; [|done].
    unfold bind, lift. rewrite Hall, H1, H2, Hcs. cbn [py_iter].
    by destruct (filter_clients organization cs). }
  destruct Ho as [-> _].
  split; intros H; rewrite Hrun.
  - by rewrite (filter_clients_dicts _ _ H).
  - by rewrite (filter_clients_not_dict _ _ H).
Qed.

Lemma get_client_by_organization_witness :
  let E := clients_env (JArr [acme; globex; acme]) in
  let r := get_clients E 100 fresh_world in
  given (Some "Acme") "Acme" /\
  not_given None /\
  get_clients E 100 fresh_world
    = (Ok (clients_response (JArr [acme; globex; acme])), r.2) /\
  get_client E (Some "Acme") None fresh_world
    = (Ok (clients_response (JArr [acme; acme])), r.2).
Proof.
  intros E r.
  assert (Ho : given (Some "Acme") "Acme") by (split; [reflexivity|discriminate]).
  assert (He : not_given None) by (by left).
  assert (Hall : get_clients E 100 fresh_world
                 = (Ok (clients_response (JArr [acme; globex; acme])), r.2))
    by (vm_compute; reflexivity).
  split; [exact Ho|]. split; [exact He|]. split; [exact Hall|].
  destruct (get_client_by_organization E (Some "Acme") None "Acme" fresh_world r.2
              _ [acme; globex; acme] Ho He Hall eq_refl) as [H _].
  apply H. repeat constructor.
Defined.

(** ** Creating an invoice *)

(** Once [.get] has found clients that are truthy, the keys are there and
    subscripting finds the same clients. *)
Lemma found_clients_getitem (data found : pyval) :
  found_clients data = Ok found ->
  truthy found = true ->
  exists response result,
    py_getitem data "response" = Returned response /\
    py_getitem response "result" = Returned result /\
    py_getitem result "clients" = Returned found.
Proof.
  unfold found_clients. intros H Ht.
  destruct data as [| | | | |items]; try done. simpl in H.
  destruct (assoc_get items "response") as [response|] eqn:H1; simpl in H;
    [|injection H as <-; done].
  destruct response as [| | | | |items1]; try done. simpl in H.
  destruct (assoc_get items1 "result") as [result|] eqn:H2; simpl in H;
    [|injection H as <-; done].
  destruct result as [| | | | |items2]; try done. simpl in H.
  destruct (assoc_get items2 "clients") as [clients|] eqn:H3; simpl in H;
    [|injection H as <-; done].
  injection H as ->.
  exists (JObj items1), (JObj items2). simpl. by rewrite H1, H2, H3.
Qed.

Section CreateInvoice.

Variable E : Env.
Variable strftime : Q -> string.
Variable client_email : string.
Variable items : pyval.

(** [create_invoice] up to its decision: the outcome and the world of the
    lookup, or the id of the one client. *)
Lemma create_invoice_run (w w1 : World) (r1 : result pyval) :
  get_client_by_email E client_email w = (r1, w1) ->
  (create_invoice E strftime client_email items w).2 = w1 \/
  exists data clients first cid,
    r1 = Ok data /\
    found_clients data = Ok clients /\
    py_getitem_0 clients = Returned first /\
    py_getitem first "id" = Returned cid /\
    let t := env_now E (trace w1) in
    create_invoice E strftime client_email items w =
    liftM (_make_request E "POST" (invoices_endpoint (self w1))
             (Some (invoice_body cid (strftime t) items)) None)
      (log (EvNow t) w1).
Proof.
  intros Hr.
  remember (create_invoice E strftime client_email items w) as res eqn:Hres.
  unfold create_invoice, bindO at 1, liftM at 1 in Hres. rewrite Hr in Hres.
  cbn [fst snd] in Hres.
  destruct r1 as [data|e]; cbn [of_result] in Hres; [|left; by subst res].
  unfold bindO, liftO in Hres.
  destruct (py_get data "response" (JObj [])) as [x|e] eqn:H1;
    cbn [of_result] in Hres; [|left; by subst res].
  destruct (py_get x "result" (JObj [])) as [y|e] eqn:H2;
    cbn [of_result] in Hres; [|left; by subst res].
  destruct (py_get y "clients" JNull) as [found|e] eqn:H3;
    cbn [of_result] in Hres; [|left; by subst res].
  assert (Hf : found_clients data = Ok found).
  { unfold found_clients. by rewrite H1, H2. }
  destruct (truthy found) eqn:Ht; cbn [negb] in Hres; [|left; by subst res].
  destruct (found_clients_getitem data found Hf Ht) as (r1 & r2 & G1 & G2 & G3).
  rewrite G1, G2, G3 in Hres.
  destruct (py_len found) as [n|e] eqn:Hn; cbn [of_result] in Hres;
    [|left; by subst res].
  destruct (1 <? n)%nat; [left; by subst res|].
  destruct (py_getitem_0 found) as [first| |] eqn:H0; try (left; by subst res).
  destruct (py_getitem first "id") as [cid| |] eqn:Hid; try (left; by subst res).
  right. exists data, found, first, cid.
  split; [done|]. split; [done|]. split; [done|]. split; [done|].
  exact Hres.
Qed.

Lemma get_client_by_email_events (w : World) :
  exists evs,
    trace (get_client_by_email E client_email w).2 = trace w ++ evs /\
    only_calls "GET" (base_url (self w) +:+ clients_endpoint (self w))
      None (email_search client_email) evs.
Proof.
  destruct (_make_request_events E "GET" (clients_endpoint (self w)) None
              (email_search client_email) w) as (evs & Ht & _ & _ & _ & Hc).
  by exists evs.
Qed.

(** X18. [create_invoice] posts nothing unless the lookup by email finds
    exactly one client: when the clients found are missing or empty it
    raises [ValueError] "No client found ...", when there are several it
    raises [ValueError] "Multiple clients found ...", and in both cases the
    run ends where the lookup ended, whose requests are all the [GET] of
    the lookup. *)
Theorem create_invoice_needs_one_client (w w1 : World) (data found : pyval) :
  get_client_by_email E client_email w = (Ok data, w1) ->
  found_clients data = Ok found ->
  (truthy found = false ->
   create_invoice E strftime client_email items w =
   (Raised (ValueError ("No client found with email: " +:+ client_email)), w1)) /\
  (forall n, truthy found = true -> py_len found = Ok n -> (1 < n)%nat ->
   create_invoice E strftime client_email items w =
   (Raised (ValueError ("Multiple clients found with email: " +:+ client_email)),
    w1)) /\
  only_calls "GET" (base_url (self w) +:+ clients_endpoint (self w))
    None (email_search client_email) (new_events w w1).
Proof.
  intros Hr Hf.
  assert (Hf' := Hf). unfold found_clients in Hf'.
  destruct (py_get data "response" (JObj [])) as [x|e] eqn:H1; [|done].
  destruct (py_get x "result" (JObj [])) as [y|e] eqn:H2; [|done].
  split; [|split].
  - intros Ht.
    unfold create_invoice, bindO, liftM, liftO. rewrite Hr. cbn [fst snd of_result].
    rewrite H1. cbn [of_result]. rewrite H2. cbn [of_result].
    rewrite Hf'. cbn [of_result]. by rewrite Ht.
  - intros n Ht Hn Hlt.
    destruct (found_clients_getitem data found Hf Ht) as (r1 & r2 & G1 & G2 & G3).
    unfold create_invoice, bindO, liftM, liftO. rewrite Hr. cbn [fst snd of_result].
    rewrite H1. cbn [of_result]. rewrite H2. cbn [of_result].
    rewrite Hf'. cbn [of_result]. rewrite Ht. cbn [negb].
    rewrite G1, G2, G3, Hn. cbn [of_result].
    apply Nat.ltb_lt in Hlt. by rewrite Hlt.
  - destruct (get_client_by_email_events w) as (evs & Ht & Hc).
    rewrite Hr in Ht. simpl in Ht. by rewrite (new_events_app _ _ _ Ht).
Qed.

(** X19. When the lookup by email finds exactly one client, and that
    client has an [id], [create_invoice] reads the clock and then makes one
    call: the [POST] to the invoices of the account, whose body is the
    invoice for that client id with the date of the clock and the items
    given.  Its result is the result of that call. *)
Theorem create_invoice_posts_for_the_client (w w1 : World)
    (data client cid : pyval) :
  get_client_by_email E client_email w = (Ok data, w1) ->
  found_clients data = Ok (JArr [client]) ->
  py_getitem client "id" = Returned cid ->
  let t := env_now E (trace w1) in
  create_invoice E strftime client_email items w =
  liftM (_make_request E "POST" (invoices_endpoint (self w1))
           (Some (invoice_body cid (strftime t) items)) None)
    (log (EvNow t) w1).
Proof.
  intros Hr Hf Hid t.
  assert (Hf' := Hf). unfold found_clients in Hf'.
  destruct (py_get data "response" (JObj [])) as [x|e] eqn:H1; [|done].
  destruct (py_get x "result" (JObj [])) as [y|e] eqn:H2; [|done].
  destruct (found_clients_getitem data (JArr [client]) Hf eq_refl)
    as (r1 & r2 & G1 & G2 & G3).
  unfold create_invoice, bindO, liftM at 1, liftO. rewrite Hr.
  cbn [fst snd of_result].
  rewrite H1. cbn [of_result]. rewrite H2. cbn [of_result].
  rewrite Hf'. cbn [of_result truthy negb].
  rewrite G1, G2, G3. cbn [py_len of_result length Nat.ltb Nat.leb py_getitem_0].
  rewrite Hid. reflexivity.
Qed.

(** X20. Whatever the server answers, every request that a run of
    [create_invoice] sends is either the [GET] of the lookup by email or a
    [POST] of an invoice that carries the given items and has [send_now]
    set to [False]: creating an invoice never sends it. *)
Theorem create_invoice_never_sends (w : World) (req : request)
    (out : net_outcome) :
  let w' := (create_invoice E strftime client_email items w).2 in
  In (EvRequest req out) (new_events w w') ->
  is_call "GET" (base_url (self w) +:+ clients_endpoint (self w))
    None (email_search client_email) req \/
  (req_method req = "POST" /\
   exists invoice,
     req_json req = Some (JObj [("invoice", JObj invoice)]) /\
     assoc_get invoice "lines" = Some items /\
     assoc_get invoice "send_now" = Some (JBool false)).
Proof.
  intros w'. subst w'.
  destruct (get_client_by_email E client_email w) as [r1 w1] eqn:Hr.
  destruct (get_client_by_email_events w) as (evs1 & Ht1 & Hc1).
  rewrite Hr in Ht1. simpl in Ht1.
  destruct (create_invoice_run w w1 r1 Hr)
    as [Hw|(data & found & first & cid & _ & _ & _ & _ & Hrun)].
  - rewrite Hw, (new_events_app _ _ _ Ht1). intros Hin. left. by eapply Hc1.
  - simpl in Hrun. rewrite Hrun. unfold liftM. cbn [snd].
    set (t := env_now E (trace w1)).
    destruct (_make_request_events E "POST" (invoices_endpoint (self w1))
                (Some (invoice_body cid (strftime t) items)) None
                (log (EvNow t) w1)) as (evs2 & Ht2 & _ & _ & _ & Hc2).
    simpl in Ht2. rewrite Ht1 in Ht2. rewrite <- !app_assoc in Ht2.
    rewrite (new_events_app _ _ _ Ht2).
    intros Hin. apply in_app_or in Hin as [Hin|Hin]; [left; by eapply Hc1|].
    apply in_app_or in Hin as [Hin|Hin].
    { by destruct Hin. }
    right. destruct (Hc2 _ _ Hin) as (Hm & _ & Hj & _).
    split; [done|]. eexists. split; [exact Hj|]. by split.
Qed.

End CreateInvoice.

Lemma create_invoice_needs_one_client_witness :
  let E := clients_env (JArr [acme; globex]) in
  let r := get_client_by_email E "pat@acme.example" fresh_world in
  get_client_by_email E "pat@acme.example" fresh_world
    = (Ok (clients_response (JArr [acme; globex])), r.2) /\
  found_clients (clients_response (JArr [acme; globex])) = Ok (JArr [acme; globex]) /\
  create_invoice E some_date "pat@acme.example" (JArr []) fresh_world
    = (Raised (ValueError "Multiple clients found with email: pat@acme.example"),
       r.2).
Proof.
  intros E r.
  assert (Hr : get_client_by_email E "pat@acme.example" fresh_world
               = (Ok (clients_response (JArr [acme; globex])), r.2))
    by (vm_compute; reflexivity).
  split; [exact Hr|]. split; [reflexivity|].
  destruct (create_invoice_needs_one_client E some_date "pat@acme.example"
              (JArr []) fresh_world r.2 _ _ Hr eq_refl) as (_ & H & _).
  apply (H 2%nat); [reflexivity|reflexivity|lia].
Defined.

Lemma create_invoice_posts_for_the_client_witness :
  let E := clients_env (JArr [acme]) in
  let r := get_client_by_email E "pat@acme.example" fresh_world in
  get_client_by_email E "pat@acme.example" fresh_world
    = (Ok (clients_response (JArr [acme])), r.2) /\
  (create_invoice E some_date "pat@acme.example" (JArr []) fresh_world).1
    = Returned (clients_response (JArr [acme])).
Proof.
  intros E r.
  assert (Hr : get_client_by_email E "pat@acme.example" fresh_world
               = (Ok (clients_response (JArr [acme])), r.2))
    by (vm_compute; reflexivity).
  split; [exact Hr|].
  rewrite (create_invoice_posts_for_the_client E some_date "pat@acme.example"
             (JArr []) fresh_world r.2 _ acme (JNum (PFin 7)) Hr eq_refl eq_refl).
  vm_compute. reflexivity.
Defined.

Lemma create_invoice_never_sends_witness :
  let E := clients_env (JArr [acme]) in
  let w' := (create_invoice E some_date "pat@acme.example" (JArr []) fresh_world).2 in
  let req :=
    the_request "POST"
      "https://api.freshbooks.com/accounting/account/ogqZ2g/invoices/invoices"
      (Some (invoice_body (JNum (PFin 7)) "2025-01-01" (JArr []))) None
      fresh_world in
  let out := NetResp (Sample.json_response 200 (clients_response (JArr [acme]))) in
  In (EvRequest req out) (new_events fresh_world w') /\
  (is_call "GET"
     (base_url (self fresh_world) +:+ clients_endpoint (self fresh_world))
     None (email_search "pat@acme.example") req \/
   req_method req = "POST" /\
   exists invoice,
     req_json req = Some (JObj [("invoice", JObj invoice)]) /\
     assoc_get invoice "lines" = Some (JArr []) /\
     assoc_get invoice "send_now" = Some (JBool false)).
Proof.
  intros E w' req out.
  assert (Hin : In (EvRequest req out) (new_events fresh_world w')).
  { vm_compute. do 4 right. left. reflexivity. }
  split; [exact Hin|].
  exact (create_invoice_never_sends E some_date "pat@acme.example" (JArr [])
           fresh_world req out Hin).
Defined.

(** ** The first authorization *)

Lemma bindO_liftM_ok {A B} (m : M A) (k : A -> MO B) w a w' :
  m w = (Ok a, w') -> bindO (liftM m) k w = k a w'.
Proof. intros H. unfold bindO, liftM. by rewrite H. Qed.

Lemma bindO_liftM_raise {A B} (m : M A) (k : A -> MO B) w e w' :
  m w = (Raise e, w') -> bindO (liftM m) k w = (Raised e, w').
Proof. intros H. unfold bindO, liftM. by rewrite H. Qed.

Lemma bindO_liftO_returned {A B} (o : outcome A) (k : A -> MO B) w a :
  o = Returned a -> bindO (liftO o) k w = k a w.
Proof. by intros ->. Qed.

Section WritesOnly.

Variable path : string.

Lemma only_file_changes_refl w : only_file_changes path w w.
Proof.
  split; [done|]. split; [done|]. exists []. by rewrite app_nil_r.
Qed.

Lemma only_file_changes_trans w1 w2 w3 :
  only_file_changes path w1 w2 -> only_file_changes path w2 w3 ->
  only_file_changes path w1 w3.
Proof.
  intros (Hs1 & Hf1 & evs1 & Ht1 & Hl1) (Hs2 & Hf2 & evs2 & Ht2 & Hl2).
  split; [congruence|]. split.
  - intros p Hp. rewrite (Hf2 p Hp). by apply Hf1.
  - exists (evs1 ++ evs2). rewrite Ht2, Ht1, app_assoc. split; [done|].
    by apply Forall_app.
Qed.

Lemma only_file_changes_log ev w :
  is_local ev = true -> only_file_changes path w (log ev w).
Proof.
  intros Hev. split; [done|]. split; [done|]. exists [ev]. split; [done|].
  by constructor.
Qed.

Lemma writes_only_bind {A B} (m : MO A) (k : A -> MO B) :
  writes_only path m -> (forall a, writes_only path (k a)) ->
  writes_only path (bindO m k).
Proof.
  intros Hm Hk w. unfold bindO. specialize (Hm w).
  destruct (m w) as [[a|e|cls arg] w1]; simpl in *; try done.
  eapply only_file_changes_trans; [exact Hm|]. apply Hk.
Qed.

Lemma writes_only_liftO {A} (o : outcome A) : writes_only path (liftO o).
Proof. intros w. apply only_file_changes_refl. Qed.

Lemma writes_only_retO {A} (a : A) : writes_only path (retO a).
Proof. intros w. apply only_file_changes_refl. Qed.

Lemma writes_only_raise_for_status r :
  writes_only path (liftM (raise_for_status r)).
Proof.
  intros w. unfold liftM, raise_for_status.
  destruct (is_error_status _); apply only_file_changes_refl.
Qed.

Lemma writes_only_now E : writes_only path (liftM (now E)).
Proof. intros w. by apply only_file_changes_log. Qed.

Lemma writes_only_print text arg : writes_only path (liftM (print text arg)).
Proof. intros w. by apply only_file_changes_log. Qed.

Lemma writes_only_set_key E key value :
  writes_only path (liftM (set_key E path key value)).
Proof.
  intros w. unfold liftM, set_key.
  destruct (env_fault E (trace w) _) as [f|]; simpl.
  all: split; [done|]; split;
    [intros p Hp; by apply lookup_fs_put_ne|eexists [_]; split; [done|by constructor]].
Qed.

End WritesOnly.

Ltac writes_only_step :=
  first
    [ apply writes_only_retO | apply writes_only_liftO
    | apply writes_only_raise_for_status | apply writes_only_now
    | apply writes_only_print | apply writes_only_set_key
    | apply writes_only_bind; [|intros ?] ].

Section Exchange.

Variable E : Env.
Variable environ : string -> option string.
Variable py_slice : pyval -> nat -> outcome pyval.
Variable py_format : pyval -> string.

(** X21. Whatever the server answers and whichever file operation fails,
    [exchange_code_for_tokens] makes exactly one network call, the [POST]
    of the authorization code to the token URL, and after it only reads the
    clock, writes [.env] and prints.  It changes no file other than [.env]:
    unlike [atomic_save_tokens] it never makes a backup of the store. *)
Theorem exchange_code_for_tokens_writes_only_env (auth_code : string) (w : World) :
  let w' := (exchange_code_for_tokens E environ py_slice py_format auth_code w).2 in
  let form := exchange_form environ auth_code in
  self w' = self w /\
  (forall p, p <> ".env" -> fs w' !! p = fs w !! p) /\
  exists evs,
    new_events w w' = EvPost TOKEN_URL form (env_post E (trace w) TOKEN_URL form) :: evs /\
    Forall (fun ev => is_local ev = true) evs.
Proof.
  intros w' form.
  assert (H1 : only_file_changes ".env"
                 (log (EvPost TOKEN_URL form (env_post E (trace w) TOKEN_URL form)) w)
                 w').
  { subst w'. unfold exchange_code_for_tokens. fold form.
    set (k := fun response : response => _).
    assert (Hk : forall r, writes_only ".env" (k r)).
    { intros r. unfold k. repeat writes_only_step. }
    unfold bindO at 1, liftM at 1, requests_post. cbn [fst snd].
    change "https://api.freshbooks.com/auth/oauth/token" with TOKEN_URL.
    destruct (env_post E (trace w) TOKEN_URL form) as [e|r]; simpl;
      [apply only_file_changes_refl|apply Hk]. }
  destruct H1 as (Hs & Hf & evs & Ht & Hl).
  split; [done|]. split; [done|]. exists evs. split; [|done].
  unfold new_events. rewrite Ht. simpl.
  rewrite <- app_assoc. by rewrite drop_app_length.
Qed.

(** X22. The exchange does not save the tokens atomically.  When the
    server's answer is accepted and the first [set_key] succeeds but the
    second one fails, the call raises the error of the failed write and
    [.env] keeps the first write: it holds the new access token beside the
    refresh token from before (changed only by what the failed write did to
    the file), and nothing rolls it back. *)
Theorem exchange_code_for_tokens_is_not_atomic (auth_code : string) (w : World)
    (r : response) (token_data : list (string * pyval)) (x : pyfloat) (f : fault) :
  let form := exchange_form environ auth_code in
  let access := default JNull (assoc_get token_data "access_token") in
  let refresh := default JNull (assoc_get token_data "refresh_token") in
  let expires_in := default (JNum (PFin 43200)) (assoc_get token_data "expires_in") in
  let w1 := log (EvPost TOKEN_URL form (NetResp r)) w in
  let t := env_now E (trace w1) in
  let write1 := OpSetKey ".env" "FRESHBOOKS_ACCESS_TOKEN" access in
  let write2 := OpSetKey ".env" "FRESHBOOKS_REFRESH_TOKEN" refresh in
  env_post E (trace w) TOKEN_URL form = NetResp r ->
  is_error_status (status_code r) = false ->
  resp_json r = Ok (JObj token_data) ->
  py_add_float (py_round E) t expires_in = Ok x ->
  env_fault E (trace w1 ++ [EvNow t]) write1 = None ->
  env_fault E (trace w1 ++ [EvNow t; EvIO write1 None]) write2 = Some f ->
  let res := exchange_code_for_tokens E environ py_slice py_format auth_code w in
  res.1 = Raised (fault_exn f) /\
  fs res.2 !! ".env" =
    fault_damage f
      (dotenv_set_key E (fs w !! ".env") "FRESHBOOKS_ACCESS_TOKEN" access) /\
  new_events w res.2 =
    [EvPost TOKEN_URL form (NetResp r); EvNow t; EvIO write1 None;
     EvIO write2 (Some (fault_exn f))].
Proof.
  intros form access refresh expires_in w1 t write1 write2
    Hpost Hstatus Hjson Hadd Hw1 Hw2 res.
  assert (Hres : res =
    (Raised (fault_exn f),
     log (EvIO write2 (Some (fault_exn f)))
       (with_fs (fs_put ".env"
                   (fault_damage f
                      (dotenv_set_key E (fs w !! ".env")
                         "FRESHBOOKS_ACCESS_TOKEN" access))
                   (fs_put ".env"
                      (dotenv_set_key E (fs w !! ".env")
                         "FRESHBOOKS_ACCESS_TOKEN" access) (fs w)))
          (log (EvIO write1 None) (log (EvNow t) w1))))).
  { subst res. unfold exchange_code_for_tokens.
    change "https://api.freshbooks.com/auth/oauth/token" with TOKEN_URL.
    fold form.
    rewrite (bindO_liftM_ok _ _ w r w1)
      by (unfold requests_post; by rewrite Hpost).
    rewrite (bindO_liftM_ok _ _ w1 tt w1)
      by (unfold raise_for_status; by rewrite Hstatus).
    rewrite (bindO_liftO_returned _ _ w1 (JObj token_data)) by (by rewrite Hjson).
    rewrite (bindO_liftO_returned _ _ w1 access) by done.
    rewrite (bindO_liftO_returned _ _ w1 refresh) by done.
    rewrite (bindO_liftO_returned _ _ w1 expires_in) by done.
    rewrite (bindO_liftM_ok _ _ w1 t (log (EvNow t) w1)) by done.
    rewrite (bindO_liftO_returned _ _ _ x) by (by rewrite Hadd).
    erewrite bindO_liftM_ok;
      [|unfold set_key; cbn [log trace]; fold write1; rewrite Hw1; reflexivity].
    erewrite bindO_liftM_raise;
      [|unfold set_key; cbn [log with_fs trace fs]; rewrite <- app_assoc;
        cbn [app]; fold write2; rewrite Hw2; reflexivity].
    by rewrite lookup_fs_put_eq. }
  rewrite Hres. cbn [fst snd]. split; [done|]. split.
  - cbn [log with_fs fs]. by rewrite lookup_fs_put_eq.
  - unfold new_events, w1. cbn [log with_fs trace].
    rewrite <- !app_assoc. by rewrite drop_app_length.
Qed.

End Exchange.

Lemma exchange_code_for_tokens_is_not_atomic_witness :
  let E := half_saving_env in
  let res := exchange_code_for_tokens E empty_environ slice_str format_str "code"
               fresh_world in
  res.1 = Raised (OSError "No space left on device") /\
  fs res.2 !! ".env" =
    Some ("FRESHBOOKS_REFRESH_TOKEN='old-refresh'" +:+
          "FRESHBOOKS_ACCESS_TOKEN='new-access'" +:+ nl).
Proof.
  intros E res.
  destruct (exchange_code_for_tokens_is_not_atomic E empty_environ slice_str
              format_str "code" fresh_world
              (Sample.json_response 200 Sample.tokens_body)
              [("access_token", JStr "new-access");
               ("refresh_token", JStr "new-refresh");
               ("expires_in", JNum (PFin 43200))]
              (PFin (inject_Z 44201))
              {| fault_exn := OSError "No space left on device";
                 fault_damage := fun st => st |}
              eq_refl eq_refl eq_refl
              ltac:(vm_compute; reflexivity) eq_refl eq_refl)
    as (H1 & H2 & _).
  split; [exact H1|]. unfold res. rewrite H2. vm_compute. reflexivity.
Defined.

(** ** The functions of the module *)

Lemma init_without_token environ account token :
  not_given token -> not_given (environ "FRESHBOOKS_ACCESS_TOKEN") ->
  init environ account token = Raise (ValueError NO_ACCESS_TOKEN_MSG).
Proof.
  intros Hn Hn'. unfold init.
  rewrite (py_or_not_given _ _ _ Hn). by rewrite (truthy_not_given _ Hn').
Qed.

Lemma init_raises environ account token e :
  init environ account token = Raise e -> e = ValueError NO_ACCESS_TOKEN_MSG.
Proof. unfold init. destruct (negb _); [|done]. congruence. Qed.

(** X23. Without an access token, passed or in the environment, each of
    the six functions of the module raises the [ValueError] of the
    constructor and does nothing else: no request is sent and the world is
    unchanged. *)
Theorem standalone_functions_need_a_token (E : Env)
    (environ : string -> option string) (account token : option string)
    (w : World) :
  not_given token ->
  not_given (environ "FRESHBOOKS_ACCESS_TOKEN") ->
  let no_token := ValueError NO_ACCESS_TOKEN_MSG in
  (forall invoice_id,
     Standalone.get_invoice E environ invoice_id account token w
     = (Raise no_token, w)) /\
  (forall organization email,
     Standalone.get_client E environ organization email account token w
     = (Raise no_token, w)) /\
  (forall strftime client_email items,
     Standalone.create_invoice E environ strftime client_email items account token w
     = (Raised no_token, w)) /\
  (forall email first_name last_name organization,
     Standalone.create_client E environ email first_name last_name organization
       account token w
     = (Raise no_token, w)) /\
  (forall invoice_id humanApproved,
     Standalone.send_invoice E environ invoice_id humanApproved account token w
     = (Raise no_token, w)) /\
  (forall invoice_id,
     Standalone.delete_invoice E environ invoice_id account token w
     = (Raise no_token, w)).
Proof.
  intros Hn Hn' no_token.
  pose proof (init_without_token environ account token Hn Hn') as Hinit.
  unfold Standalone.get_invoice, Standalone.get_client,
    Standalone.create_invoice, Standalone.create_client,
    Standalone.send_invoice, Standalone.delete_invoice,
    Standalone.with_client, Standalone.with_clientO,
    Standalone.create_freshbooks_client.
  rewrite Hinit. repeat split.
Qed.

Lemma standalone_functions_need_a_token_witness :
  not_given (Some "") /\
  not_given (empty_environ "FRESHBOOKS_ACCESS_TOKEN") /\
  Standalone.delete_invoice granting_env empty_environ "42" None (Some "") fresh_world
  = (Raise (ValueError NO_ACCESS_TOKEN_MSG), fresh_world).
Proof.
  assert (H1 : not_given (Some "")) by (by right).
  assert (H2 : not_given (empty_environ "FRESHBOOKS_ACCESS_TOKEN")) by (by left).
  split; [exact H1|]. split; [exact H2|].
  destruct (standalone_functions_need_a_token granting_env empty_environ None
              (Some "") fresh_world H1 H2) as (_ & _ & _ & _ & _ & H).
  apply H.
Defined.

(** X24. The function [send_invoice] of the module, called without
    approval, sends nothing: it raises the [ValueError] of the constructor
    when that finds no token, else the [ValueError] of the safety check,
    and in both cases the trace and the files are as before. *)
Theorem standalone_send_invoice_requires_approval (E : Env)
    (environ : string -> option string) (invoice_id : string)
    (humanApproved : pyval) (account token : option string) (w : World) :
  truthy humanApproved = false ->
  let res := Standalone.send_invoice E environ invoice_id humanApproved
               account token w in
  res.1 = Raise (ValueError
                   match init environ account token with
                   | Ok _ => SAFETY_CHECK_MSG
                   | Raise _ => NO_ACCESS_TOKEN_MSG
                   end) /\
  trace res.2 = trace w /\
  fs res.2 = fs w.
Proof.
  intros Ht res. subst res.
  unfold Standalone.send_invoice, Standalone.with_client,
    Standalone.create_freshbooks_client, send_invoice.
  rewrite Ht. cbn [negb].
  destruct (init environ account token) as [c|e] eqn:Hinit; [done|].
  by rewrite (init_raises _ _ _ _ Hinit).
Qed.

Lemma standalone_send_invoice_requires_approval_witness :
  let res := Standalone.send_invoice granting_env token_only_environ "42"
               (JBool false) None None fresh_world in
  truthy (JBool false) = false /\
  res.1 = Raise (ValueError SAFETY_CHECK_MSG) /\
  trace res.2 = trace fresh_world.
Proof.
  intros res. split; [reflexivity|].
  destruct (standalone_send_invoice_requires_approval granting_env
              token_only_environ "42" (JBool false) None None fresh_world eq_refl)
    as (H1 & H2 & _).
  split; [exact H1|exact H2].
Defined.
